(** * AutoSplit receipt parser: a shallow embedding of [backend/nlp_parser.py]
    and [backend/ocr_parser.py]

    The development has three layers.

    - The Python run-time the two modules lean on: [str] values and their
      methods, the handful of [re] patterns, [float]/[int] conversion and
      binary64 arithmetic, exceptions.
    - The functions of the two modules, transcribed statement by statement.
    - The properties of those functions. *)

From Stdlib Require Import ZArith Ascii String List Bool Lia Lqa Permutation
  Sorted QArith Qabs Qpower.
From Stdlib Require Import Floats.SpecFloat.
From stdpp Require Import base option gmap.
Import ListNotations.

Local Open Scope string_scope.
Local Open Scope list_scope.
Local Open Scope Z_scope.

(* ===================================================================== *)
(** * Python [str]                                                         *)
(* ===================================================================== *)

(** A [str] is modelled as the list of its code points, restricted to the
    range 0..255 (Latin-1).  The two currency signs of the source patterns
    that lie outside that range (the rupee and the euro sign) therefore
    never occur in a modelled text. *)
Definition str := list ascii.

Definition S_ (s : string) : str := list_ascii_of_string s.
Coercion S_ : string >-> str.

Definition code (c : ascii) : N := N_of_ascii c.

Definition in_range (lo hi : N) (c : ascii) : bool :=
  ((lo <=? code c) && (code c <=? hi))%N.

Definition ascii_eqb (a b : ascii) : bool := Ascii.eqb a b.

(** [c.isspace()] and the pattern [\s]: both are Unicode white space. *)
Definition isspace (c : ascii) : bool :=
  in_range 9 13 c || in_range 28 32 c || (code c =? 133)%N || (code c =? 160)%N.

(** The pattern [\d] (decimal digits; only 0-9 below code point 256). *)
Definition isdigit (c : ascii) : bool := in_range 48 57 c.

Definition isupper_az (c : ascii) : bool := in_range 65 90 c.
Definition islower_az (c : ascii) : bool := in_range 97 122 c.

(** The pattern [\w]: alphanumeric code points and the underscore. *)
Definition isword (c : ascii) : bool :=
  isdigit c || isupper_az c || islower_az c || (code c =? 95)%N
  || (code c =? 170)%N || (code c =? 178)%N || (code c =? 179)%N
  || (code c =? 181)%N || (code c =? 185)%N || (code c =? 186)%N
  || in_range 188 190 c || in_range 192 214 c || in_range 216 246 c
  || in_range 248 255 c.

(** [c.lower()]. *)
Definition lower_char (c : ascii) : ascii :=
  if isupper_az c || in_range 192 214 c || in_range 216 222 c
  then ascii_of_N (code c + 32) else c.

Definition lower (s : str) : str := map lower_char s.

Fixpoint lstrip_by (p : ascii -> bool) (s : str) : str :=
  match s with
  | c :: s' => if p c then lstrip_by p s' else s
  | [] => []
  end.

Definition rstrip_by (p : ascii -> bool) (s : str) : str :=
  rev (lstrip_by p (rev s)).

(** [s.strip()] and [s.strip('.')]. *)
Definition strip_by (p : ascii -> bool) (s : str) : str :=
  rstrip_by p (lstrip_by p s).

Definition strip (s : str) : str := strip_by isspace s.

Fixpoint starts_with (p s : str) : bool :=
  match p, s with
  | [], _ => true
  | a :: p', b :: s' => ascii_eqb a b && starts_with p' s'
  | _ :: _, [] => false
  end.

(** [s.find(sub)]; [None] stands for Python's [-1]. *)
Fixpoint find_from (i : nat) (sub s : str) : option nat :=
  if starts_with sub s then Some i
  else match s with
       | [] => None
       | _ :: s' => find_from (Datatypes.S i) sub s'
       end.

Definition find (sub s : str) : option nat := find_from 0 sub s.

(** [sub in s]. *)
Definition contains (sub s : str) : bool :=
  match find sub s with Some _ => true | None => false end.

Definition has_char (c : ascii) (s : str) : bool := existsb (ascii_eqb c) s.

(** [not s]. *)
Definition is_empty {A} (l : list A) : bool :=
  match l with [] => true | _ => false end.

Definition len (s : str) : Z := Z.of_nat (length s).

Fixpoint str_eqb (a b : str) : bool :=
  match a, b with
  | [], [] => true
  | x :: a', y :: b' => ascii_eqb x y && str_eqb a' b'
  | _, _ => false
  end.

(** [s.replace(sub, by)] for a non-empty [sub]. *)
Fixpoint replace_sub_fuel (fuel : nat) (sub by_ s : str) : str :=
  match fuel with
  | O => s
  | Datatypes.S fuel' =>
      match s with
      | [] => []
      | c :: s' =>
          if starts_with sub s
          then by_ ++ replace_sub_fuel fuel' sub by_ (skipn (length sub) s)
          else c :: replace_sub_fuel fuel' sub by_ s'
      end
  end.

Definition replace_sub (sub by_ s : str) : str :=
  replace_sub_fuel (length s) sub by_ s.

(** [s.rfind(c)] for a one-character [c]: the last index, or [-1]. *)
Fixpoint rfind_from (i : Z) (c : ascii) (s : str) : Z :=
  match s with
  | [] => -1
  | x :: s' =>
      let r := rfind_from (i + 1) c s' in
      if 0 <=? r then r else if ascii_eqb x c then i else -1
  end.

Definition rfind (c : ascii) (s : str) : Z := rfind_from 0 c s.

(** [s.replace(c, by)] for a one-character [c]. *)
Definition replace (c : ascii) (by_ : str) (s : str) : str :=
  flat_map (fun x => if ascii_eqb x c then by_ else [x]) s.

(** [s.split(c)] for a one-character separator: never empty. *)
Fixpoint split (c : ascii) (s : str) : list str :=
  match s with
  | [] => [[]]
  | x :: s' =>
      if ascii_eqb x c then [] :: split c s'
      else match split c s' with
           | p :: ps => (x :: p) :: ps
           | [] => [[x]]
           end
  end.

(** [''.join(parts)]. *)
Definition join (parts : list str) : str := concat parts.

(** [parts[-1]] of a non-empty list ([split] never returns an empty one). *)
Definition last_part (parts : list str) : str := List.last parts [].

(** [l[-n:]]. *)
Definition last_n {A} (n : nat) (l : list A) : list A :=
  skipn (length l - n) l.

(** [s[a:b]] for non-negative bounds. *)
Definition slice (a b : nat) (s : str) : str := firstn (b - a) (skipn a s).

(** Line boundaries of [s.splitlines()]. *)
Definition is_linebreak (c : ascii) : bool :=
  in_range 10 13 c || in_range 28 30 c || (code c =? 133)%N.

(** [s.splitlines()]: a carriage return followed by a line feed is one
    boundary, and a final boundary does not open an empty last line. *)
Fixpoint splitlines_aux (cur : str) (s : str) : list str :=
  match s with
  | [] => match cur with [] => [] | _ => [rev cur] end
  | c :: s' =>
      if is_linebreak c then
        match s' with
        | d :: s'' =>
            if (code c =? 13)%N && (code d =? 10)%N
            then rev cur :: splitlines_aux [] s''
            else rev cur :: splitlines_aux [] s'
        | [] => [rev cur]
        end
      else splitlines_aux (c :: cur) s'
  end.

Definition splitlines (s : str) : list str := splitlines_aux [] s.

(* ===================================================================== *)
(** * Python [float] and [int]                                             *)
(* ===================================================================== *)

(** A [float] is an IEEE 754 binary64 number, in the representation of the
    standard library's specification of floating-point arithmetic; every
    operation rounds to nearest, ties to even. *)
Definition float := spec_float.
Definition prec : Z := 53.
Definition emax : Z := 1024.

(** The binary64 number nearest to [n / d], for [n >= 0]. *)
Definition float_of_ratio (n : Z) (d : positive) : float :=
  match n with
  | Zpos p => SFdiv prec emax (S754_finite false p 0) (S754_finite false d 0)
  | _ => S754_zero false
  end.

(** A decimal literal: [dec n k] is the float written [n / 10^k], so
    [dec 123456 2] is Python's [1234.56]. *)
Definition dec (n : Z) (k : nat) : float :=
  float_of_ratio n (Z.to_pos (10 ^ Z.of_nat k)).

Definition float_of_Z (z : Z) : float := binary_normalize prec emax z 0 false.

(** [x / y] on floats; both divisions of the source have a non-zero
    divisor, so [ZeroDivisionError] does not arise. *)
Definition fdiv (x y : float) : float := SFdiv prec emax x y.

(** [x < y] and [x <= y]; comparing a float with an [int] constant that is
    exactly representable compares it with that constant as a float. *)
Definition fltb (x y : float) : bool := SFltb x y.
Definition fleb (x y : float) : bool := SFleb x y.

(** [x.is_integer()]: false on infinities and NaN. *)
Definition is_integer (x : float) : bool :=
  match x with
  | S754_zero _ => true
  | S754_finite _ m e => (0 <=? e) || (Zpos m mod 2 ^ (- e) =? 0)
  | _ => false
  end.

(** The integer nearest to [n / d], ties to even ([n >= 0], [d > 0]). *)
Definition div_half_even (n d : Z) : Z :=
  let q := n / d in
  match 2 * (n mod d) ?= d with
  | Lt => q
  | Gt => q + 1
  | Eq => if Z.even q then q else q + 1
  end.

(** [round(x, ndigits)] for [ndigits >= 0]: the exact value of [x] is
    rounded half-even to [ndigits] decimals and the decimal is converted
    back; infinities and NaN round to themselves. *)
Definition py_round (x : float) (ndigits : nat) : float :=
  match x with
  | S754_finite s m e =>
      let p := 10 ^ Z.of_nat ndigits in
      let n := if 0 <=? e then Zpos m * 2 ^ e * p
               else div_half_even (Zpos m * p) (2 ^ (- e)) in
      match n with
      | Zpos n' =>
          SFdiv prec emax (S754_finite s n' 0) (S754_finite false (Z.to_pos p) 0)
      | _ => S754_zero s
      end
  | _ => x
  end.

(** Value of a string of decimal digits, [None] if another character
    occurs. *)
Fixpoint digits_value (acc : Z) (s : str) : option Z :=
  match s with
  | [] => Some acc
  | c :: s' =>
      if isdigit c
      then digits_value (10 * acc + Z.of_N (code c - 48)) s'
      else None
  end.

(** The interpreter's cap on the length of a digit string that [int]
    converts: 4300 digits, the default of [sys.set_int_max_str_digits]. *)
Definition int_max_str_digits : nat := 4300.

(** [int(s)], on the strings that reach it: only digits and separators
    survive the filters of the normalizers.  [None] is [ValueError], which
    the interpreter also raises on a string longer than the cap. *)
Definition py_int (s : str) : option Z :=
  match s with
  | [] => None
  | _ =>
      if (int_max_str_digits <? length s)%nat then None
      else digits_value 0 s
  end.

(** [float(s)], on strings over digits and ['.']: digits with at most one
    point and at least one digit, correctly rounded; a value too large
    becomes [inf].  [None] is [ValueError]. *)
Definition py_float (s : str) : option float :=
  match split "." s with
  | [i] =>
      match i with
      | [] => None
      | _ => option_map (fun n => float_of_ratio n 1) (digits_value 0 i)
      end
  | [i; f] =>
      match i ++ f with
      | [] => None
      | _ => option_map (fun n => dec n (length f)) (digits_value 0 (i ++ f))
      end
  | _ => None
  end.

(** ** Exceptions *)

Inductive exn := OverflowError.

Inductive result (A : Type) :=
| Ret (a : A)
| Raise (e : exn).
Arguments Ret {A} a.
Arguments Raise {A} e.

#[global] Instance result_ret : MRet result := @Ret.

#[global] Instance result_bind : MBind result := fun A B k m =>
  match m with
  | Ret a => k a
  | Raise e => Raise e
  end.

(** [float(n)] for an [int]: [OverflowError] when [n] rounds beyond the
    largest finite float. *)
Definition py_float_of_int (n : Z) : result float :=
  match float_of_Z n with
  | S754_infinity _ => Raise OverflowError
  | f => Ret f
  end.

(* ===================================================================== *)
(** * Python [re]                                                          *)
(* ===================================================================== *)

(** The patterns of the two modules, as syntax trees, and a backtracking
    matcher with Python's search order: alternatives left to right,
    quantifiers greedy, the leftmost match wins. *)
Inductive regex :=
| Chr (p : ascii -> bool)                       (* one character of a class *)
| Eps
| Seq (r1 r2 : regex)
| Alt (r1 r2 : regex)
| Rep (r : regex) (lo : nat) (hi : option nat)  (* greedy r{lo,hi} *)
| Grp (i : nat) (r : regex)                     (* capturing group i *)
| Bol                                           (* ^ *)
| Eol                                           (* $ *)
| Wb.                                           (* \b *)

(** An alternative that names a character outside the modelled range. *)
Definition Never : regex := Chr (fun _ => false).

Definition opt (r : regex) : regex := Rep r 0 (Some 1%nat).
Definition star (r : regex) : regex := Rep r 0 None.
Definition plus (r : regex) : regex := Rep r 1 None.

Definition lit (s : str) : regex :=
  fold_right (fun c r => Seq (Chr (ascii_eqb c)) r) Eps s.

(** A literal under [re.IGNORECASE]. *)
Definition lit_ci (s : str) : regex :=
  fold_right
    (fun c r => Seq (Chr (fun x => ascii_eqb (lower_char x) (lower_char c))) r)
    Eps s.

Definition alts (rs : list regex) : regex :=
  match rs with
  | [] => Never
  | r :: rs' => fold_left Alt rs' r
  end.

Record mstate := MState {
  pos : nat;                    (* index of the next character *)
  prev : option ascii;          (* the character before it *)
  rest : str;                   (* the text from [pos] on *)
  caps : list (nat * str)       (* groups matched so far, latest first *)
}.

Definition word_opt (c : option ascii) : bool :=
  match c with Some x => isword x | None => false end.

Fixpoint rmatch (r : regex) (st : mstate)
    (k : mstate -> option mstate) : option mstate :=
  match r with
  | Chr p =>
      match rest st with
      | c :: s' =>
          if p c then k (MState (Datatypes.S (pos st)) (Some c) s' (caps st))
          else None
      | [] => None
      end
  | Eps => k st
  | Seq r1 r2 => rmatch r1 st (fun st1 => rmatch r2 st1 k)
  | Alt r1 r2 =>
      match rmatch r1 st k with
      | Some e => Some e
      | None => rmatch r2 st k
      end
  | Rep r' lo hi =>
      (fix loop (fuel cnt : nat) (st : mstate) {struct fuel} : option mstate :=
         let stop := if (lo <=? cnt)%nat then k st else None in
         match fuel with
         | O => stop
         | Datatypes.S fuel' =>
             if match hi with Some h => (cnt <? h)%nat | None => true end
             then
               match rmatch r' st
                       (fun st' => if (pos st <? pos st')%nat
                                   then loop fuel' (Datatypes.S cnt) st'
                                   else None) with
               | Some e => Some e
               | None => stop
               end
             else stop
         end) (Datatypes.S (length (rest st))) 0%nat st
  | Grp i r' =>
      rmatch r' st
        (fun st' =>
           k (MState (pos st') (prev st') (rest st')
                ((i, firstn (pos st' - pos st) (rest st)) :: caps st')))
  | Bol => if (pos st =? 0)%nat then k st else None
  | Eol =>
      match rest st with
      | [] => k st
      | [c] => if (code c =? 10)%N then k st else None
      | _ => None
      end
  | Wb =>
      if xorb (word_opt (prev st)) (word_opt (head (rest st)))
      then k st else None
  end.

(** A match object: where it starts, and the state at its end. *)
Record rematch := ReMatch { m_start : nat; m_end : mstate }.

(** [m.group(i)]. *)
Definition group (m : rematch) (i : nat) : option str :=
  snd <$> List.find (fun c => (fst c =? i)%nat) (caps (m_end m)).

(** [p.search(s)], started at index [i] of the text. *)
Fixpoint search_at (r : regex) (i : nat) (pv : option ascii) (s : str)
    : option rematch :=
  match rmatch r (MState i pv s []) Some with
  | Some e => Some (ReMatch i e)
  | None =>
      match s with
      | [] => None
      | c :: s' => search_at r (Datatypes.S i) (Some c) s'
      end
  end.

Definition search (r : regex) (s : str) : option rematch :=
  search_at r 0 None s.

Definition matches (r : regex) (s : str) : bool :=
  match search r s with Some _ => true | None => false end.

(** [p.finditer(s)]: successive non-overlapping matches.  No pattern of
    the source matches the empty string; an empty match would step one
    character forward. *)
Fixpoint finditer_at (fuel : nat) (r : regex) (i : nat) (pv : option ascii)
    (s : str) : list rematch :=
  match fuel with
  | O => []
  | Datatypes.S fuel' =>
      match search_at r i pv s with
      | None => []
      | Some m =>
          let e := m_end m in
          m :: (if (m_start m <? pos e)%nat
                then finditer_at fuel' r (pos e) (prev e) (rest e)
                else match rest e with
                     | c :: s' =>
                         finditer_at fuel' r (Datatypes.S (pos e)) (Some c) s'
                     | [] => []
                     end)
      end
  end.

Definition finditer (r : regex) (s : str) : list rematch :=
  finditer_at (Datatypes.S (length s)) r 0 None s.

(** [re.sub(p, repl, s)] for a constant replacement. *)
Fixpoint sub_at (fuel : nat) (r : regex) (repl : str) (i : nat)
    (pv : option ascii) (s : str) : str :=
  match fuel with
  | O => s
  | Datatypes.S fuel' =>
      match search_at r i pv s with
      | None => s
      | Some m =>
          let e := m_end m in
          firstn (m_start m - i) s ++ repl ++
          (if (m_start m <? pos e)%nat
           then sub_at fuel' r repl (pos e) (prev e) (rest e)
           else match rest e with
                | c :: s' =>
                    c :: sub_at fuel' r repl (Datatypes.S (pos e)) (Some c) s'
                | [] => []
                end)
      end
  end.

Definition re_sub (r : regex) (repl : str) (s : str) : str :=
  sub_at (Datatypes.S (length s)) r repl 0 None s.

(** [re.sub] of a negated class by the empty string keeps the characters
    of the class. *)
Definition keep (p : ascii -> bool) (s : str) : str := List.filter p s.

(** [re.fullmatch]: a match from the start that consumes the whole text. *)
Definition fullmatch (r : regex) (s : str) : bool :=
  match rmatch r (MState 0 None s [])
          (fun e => match rest e with [] => Some e | _ => None end) with
  | Some _ => true
  | None => false
  end.

(** [m.group(i)] of a group that took part in the match. *)
Definition group_str (m : rematch) (i : nat) : str := default [] (group m i).

(** ** Patterns shared by the two modules *)

Definition ws : regex := Chr isspace.
Definition digit : regex := Chr isdigit.

(** The class  [0-9\.,] *)
Definition num_char (c : ascii) : bool :=
  isdigit c || ascii_eqb c "." || ascii_eqb c ",".

(** The pattern  [0-9] [0-9\.,]{0,20} [0-9] *)
Definition num_tok : regex :=
  Seq digit (Seq (Rep (Chr num_char) 0 (Some 20%nat)) digit).

(** The patterns  [/\\\-]{1,}  and  \d{8,}  of the two line classifiers. *)
Definition slash_re : regex :=
  Rep (Chr (fun c => ascii_eqb c "/" || ascii_eqb c "\" || ascii_eqb c "-"))
      1 None.
Definition long_digits_re : regex := Rep digit 8 None.

(* ===================================================================== *)
(** * Values shared by the two modules                                     *)
(* ===================================================================== *)

(** An element of a context list. *)
Inductive number :=
| PyInt (z : Z)
| PyFloat (f : float).

(** [isinstance(x, float) and not x.is_integer()]. *)
Definition fractional (x : number) : bool :=
  match x with
  | PyFloat f => negb (is_integer f)
  | PyInt _ => false
  end.

(** [ctx and any(fractional(x) for x in ctx)]; [None] is Python's [None]. *)
Definition shows_decimals (ctx : option (list number)) : bool :=
  match ctx with
  | Some l => existsb fractional l
  | None => false
  end.

(** The literals [100.0], [0], [50], [1000000] and [10000000]. *)
Definition f100 : float := dec 1000 1.
Definition f0 : float := float_of_Z 0.
Definition f50 : float := float_of_Z 50.
Definition f1e6 : float := float_of_Z 1000000.
Definition f1e7 : float := float_of_Z 10000000.

(** The dictionaries built by [extract_lines_with_prices] and read by
    [detect_person_item_relations], with their three keys.  The reader
    takes a missing [raw_line] for the empty string, so a dictionary
    without that key is the record with an empty [raw_line]. *)
Record Item := mkItem {
  description : str;
  price : float;
  raw_line : str
}.

(** The try/except around [float(tok.replace(',', ''))] that both modules
    use to collect the context numbers. *)
Definition context_number (t : str) : list number :=
  if has_char "." t then
    match py_float (replace "," "" t) with
    | Some f => [PyFloat f]
    | None => []
    end
  else [].

(** [[l.strip() for l in raw_text.splitlines() if l.strip()]]. *)
Definition stripped_lines (raw_text : str) : list str :=
  List.filter (fun l => negb (is_empty l)) (map strip (splitlines raw_text)).

(* ===================================================================== *)
(** * backend/nlp_parser.py                                                *)
(* ===================================================================== *)

Module Nlp.

Definition _METADATA_KEYWORDS : list str :=
  [ S_ "invoice"; S_ "invoice no"; S_ "invoice#"; S_ "bill no"; S_ "bill#";
    S_ "date"; S_ "time"; S_ "gst"; S_ "tax"; S_ "subtotal";
    S_ "amount due"; S_ "total due"; S_ "amount"; S_ "phone"; S_ "tel";
    S_ "mobile"; S_ "order no"; S_ "qty"; S_ "quantity"; S_ "id";
    S_ "paid"; S_ "change"; S_ "receipt" ].

(** The pattern, ignoring case (parts set apart by blanks):
    (?: (?: ₹ | \$ | € | rs\.? | inr ) \s* )? ( [0-9] [0-9\.,]{0,20} [0-9] ) *)
Definition _AMT_RE : regex :=
  Seq (opt (Seq (alts [Never; lit "$"; Never;
                       Seq (lit_ci "rs") (opt (lit ".")); lit_ci "inr"])
                (star ws)))
      (Grp 1 num_tok).

Definition _is_metadata_line (line : str) : bool :=
  let low := lower line in
  if existsb (fun k => contains k low) _METADATA_KEYWORDS then true
  else if matches slash_re line && matches digit line then true
  else if matches long_digits_re line then true
  else false.

(** Lines 38-58 of [_clean_and_convert_token]: which separator is the
    decimal point. *)
Definition resolve_separators (s : str) : str :=
  if has_char "." s && has_char "," s then
    if rfind "," s <? rfind "." s then replace "," "" s
    else replace "," "." (replace "." "" s)
  else if has_char "," s && negb (has_char "." s) then
    let parts := split "," s in
    if len (last_part parts) =? 2 then replace "," "." s
    else if len (last_part parts) =? 3 then join parts
    else replace "," "." s
  else if has_char "." s && negb (has_char "," s) then
    let parts := split "." s in
    if 2 <? len (last_part parts) then join parts else s
  else s.

(** Lines 60-79 of [_clean_and_convert_token]: the conversion, with the
    division by 100 of long integer tokens. *)
Definition convert (s : str) (context_nums : option (list number))
    : result (option float) :=
  if has_char "." s then Ret (py_float s)
  else
    match py_int s with
    | None => Ret None
    | Some val =>
        if 5 <=? len s then
          f ← py_float_of_int val; Ret (Some (fdiv f f100))
        else if shows_decimals context_nums && (4 <=? len s) then
          f ← py_float_of_int val; Ret (Some (fdiv f f100))
        else
          f ← py_float_of_int val; Ret (Some f)
    end.

Definition _clean_and_convert_token (tok : option str)
    (context_nums : option (list number)) : result (option float) :=
  match tok with
  | None => Ret None
  | Some tok =>
      let s := strip tok in
      let s := keep num_char s in
      if is_empty s then Ret None
      else convert (resolve_separators s) context_nums
  end.

(** The pattern, ignoring case (parts set apart by blanks):
    (total|amount due|amount payable|amount) \s* [:\-]? \s*
    ( [0-9] [0-9\.,]{0,20} [0-9] ) *)
Definition total_kw_re : regex :=
  Seq (Grp 1 (alts [lit_ci "total"; lit_ci "amount due";
                    lit_ci "amount payable"; lit_ci "amount"]))
      (Seq (star ws)
         (Seq (opt (Chr (fun c => ascii_eqb c ":" || ascii_eqb c "-")))
            (Seq (star ws) (Grp 2 num_tok)))).

(** The two loops that build [context_numbers]. *)
Definition context_numbers_of (lines : list str) : list number :=
  let context_tokens :=
    flat_map (fun ln => map (fun m => group_str m 1) (finditer _AMT_RE ln))
             lines in
  flat_map context_number context_tokens.

(** One turn of the phase-1 loop: [Some total] when the turn returns. *)
Definition phase1_line (context_numbers : list number) (ln : str)
    : result (option float) :=
  if _is_metadata_line ln && negb (contains "total" (lower ln)) then Ret None
  else
    match search total_kw_re ln with
    | Some m =>
        let raw_tok := group m 2 in
        total ← _clean_and_convert_token raw_tok (Some context_numbers);
        match total with
        | Some total =>
            if fltb f0 total then Ret (Some (py_round total 2)) else Ret None
        | None => Ret None
        end
    | None => Ret None
    end.

(** The phase-1 loop over [reversed(lines[-12:])]. *)
Fixpoint phase1 (context_numbers : list number) (lns : list str)
    : result (option float) :=
  match lns with
  | [] => Ret None
  | ln :: lns' =>
      r ← phase1_line context_numbers ln;
      match r with
      | Some total => Ret (Some total)
      | None => phase1 context_numbers lns'
      end
  end.

(** The inner phase-2 loop: the candidates of one line. *)
Fixpoint line_candidates (context_numbers : list number) (ln : str)
    (ms : list rematch) : result (list (float * str)) :=
  match ms with
  | [] => Ret []
  | m :: ms' =>
      val ← _clean_and_convert_token (group m 1) (Some context_numbers);
      cs ← line_candidates context_numbers ln ms';
      match val with
      | Some val =>
          if fltb f0 val && fltb val f1e7 then Ret ((val, ln) :: cs)
          else Ret cs
      | None => Ret cs
      end
  end.

(** The phase-2 loop over [reversed(lines[-20:])]. *)
Fixpoint phase2_candidates (context_numbers : list number) (lns : list str)
    : result (list (float * str)) :=
  match lns with
  | [] => Ret []
  | ln :: lns' =>
      if _is_metadata_line ln then phase2_candidates context_numbers lns'
      else
        cs ← line_candidates context_numbers ln (finditer _AMT_RE ln);
        cs' ← phase2_candidates context_numbers lns';
        Ret (cs ++ cs')
  end.

(** [sorted(candidates, key=lambda x: x[0], reverse=True)]: a stable sort,
    largest value first. *)
Fixpoint insert_desc (c : float * str) (l : list (float * str))
    : list (float * str) :=
  match l with
  | [] => [c]
  | d :: l' => if fltb (fst c) (fst d) then d :: insert_desc c l' else c :: l
  end.

Definition sorted_desc (l : list (float * str)) : list (float * str) :=
  fold_right insert_desc [] l.

(** The end of [find_total_amount], from [if candidates:] on. *)
Definition pick_total (candidates : list (float * str)) : option float :=
  if is_empty candidates then None
  else
    let cand_sorted := sorted_desc candidates in
    match cand_sorted with
    | (top, _) :: (second, _) :: _ =>
        if fltb f0 second && fltb f50 (fdiv top second)
        then Some (py_round second 2)
        else Some (py_round top 2)
    | (top, _) :: _ => Some (py_round top 2)
    | [] => None
    end.

Definition find_total_amount (raw_text : option str)
    : result (option float) :=
  match raw_text with
  | None => Ret None
  | Some raw_text =>
      if is_empty raw_text then Ret None else
      let lines := stripped_lines raw_text in
      let context_numbers := context_numbers_of lines in
      r ← phase1 context_numbers (rev (last_n 12 lines));
      match r with
      | Some total => Ret (Some total)
      | None =>
          candidates ← phase2_candidates context_numbers
                         (rev (last_n 20 lines));
          Ret (pick_total candidates)
      end
  end.

(** The pattern  \b ( [A-Z][a-z]+ (?: \s+ [A-Z][a-z]+ ){0,2} ) \b *)
Definition cap_word : regex := Seq (Chr isupper_az) (plus (Chr islower_az)).
Definition name_re : regex :=
  Seq Wb (Seq (Grp 1 (Seq cap_word
                        (Rep (Seq (plus ws) cap_word) 0 (Some 2%nat)))) Wb).

(** The pattern  \b name \b  built with [re.escape]. *)
Definition word_re (name : str) : regex := Seq Wb (Seq (lit name) Wb).

(** The named-entity model [nlp], when it was loaded: the texts of the
    entities labelled PERSON, or [None] when the call raises. *)
Definition ner := str -> option (list str).

(** The fallback candidates: capitalized word sequences. *)
Definition fallback_persons (text : str) : list str :=
  flat_map
    (fun m =>
       let candidate := strip (group_str m 1) in
       if (1 <? len candidate) && negb (_is_metadata_line candidate)
       then [candidate] else [])
    (finditer name_re text).

Definition find_persons (nlp : option ner) (text : str) : list str :=
  let persons :=
    match nlp with
    | Some model => default [] (model text)
    | None => []
    end in
  if is_empty persons then fallback_persons text else persons.

(** The body of the loop over [persons]: does [name] get appended? *)
Definition name_assigned (lower_text raw_line name : str) : bool :=
  if is_empty name || (len (strip name) <? 2) then false
  else if matches (word_re (lower name)) raw_line then true
  else
    match find raw_line lower_text with
    | Some idx =>
        let span :=
          slice (Nat.max 0 (idx - 80)) (idx + 80 + length raw_line)
                lower_text in
        matches (word_re (lower name)) span
    | None => false
    end.

(** [list(dict.fromkeys(l))]: first occurrences, in order. *)
Fixpoint fromkeys (seen : list str) (l : list str) : list str :=
  match l with
  | [] => []
  | x :: l' =>
      if existsb (str_eqb x) seen then fromkeys seen l'
      else x :: fromkeys (x :: seen) l'
  end.

(** The loop over [enumerate(items)], started at index [i]. *)
Fixpoint assign_from (i : nat) (persons : list str) (lower_text : str)
    (items : list Item) (assignments : gmap nat (list str))
    : gmap nat (list str) :=
  match items with
  | [] => assignments
  | it :: items' =>
      let raw_line := lower (raw_line it) in
      let assigned :=
        List.filter (name_assigned lower_text raw_line) persons in
      assign_from (Datatypes.S i) persons lower_text items'
        (if is_empty assigned then assignments
         else <[ i := fromkeys [] assigned ]> assignments)
  end.

(** Lines 171-194: the assignments for a given list of persons. *)
Definition assign_persons (persons : list str) (items : list Item)
    (text : str) : gmap nat (list str) :=
  assign_from 0 persons (lower text) items ∅.

Definition detect_person_item_relations (nlp : option ner)
    (items : list Item) (raw_text : option str) : gmap nat (list str) :=
  match raw_text with
  | None => ∅
  | Some text =>
      if is_empty text || is_empty items then ∅
      else assign_persons (find_persons nlp text) items text
  end.

End Nlp.

(* ===================================================================== *)
(** * backend/ocr_parser.py                                                *)
(* ===================================================================== *)

Module Ocr.

Definition _METADATA_KEYWORDS : list str :=
  [ S_ "invoice"; S_ "invoice no"; S_ "invoice#"; S_ "bill no"; S_ "bill#";
    S_ "date"; S_ "time"; S_ "gst"; S_ "tax"; S_ "subtotal";
    S_ "total due"; S_ "amount due"; S_ "amount"; S_ "phone"; S_ "tel";
    S_ "mobile"; S_ "order no"; S_ "order#"; S_ "qty"; S_ "quantity";
    S_ "id"; S_ "cash"; S_ "card"; S_ "paid"; S_ "change"; S_ "receipt";
    S_ "taxable"; S_ "vat"; S_ "tin"; S_ "gstin"; S_ "merchant";
    S_ "address"; S_ "email" ].

(** The pattern (parts set apart by blanks), group 1 is [sym], group 2 is
    [num]:
    (?P<sym> ₹ | \$ | € | Rs\.? | INR )? \s* (?P<num> [0-9] [0-9\.,]{0,20} [0-9] ) *)
Definition _NUM_TOKEN_RE : regex :=
  Seq (opt (Grp 1 (alts [Never; lit "$"; Never;
                         Seq (lit "Rs") (opt (lit ".")); lit "INR"])))
      (Seq (star ws) (Grp 2 num_tok)).

(** The pattern  ( [0-9] [0-9\.,]{0,20} [0-9] ) \s* $ *)
Definition _RIGHTMOST_NUM_RE : regex :=
  Seq (Grp 1 num_tok) (Seq (star ws) Eol).

Definition _is_metadata_line (line : str) : bool :=
  let low := lower line in
  if existsb (fun k => contains k low) _METADATA_KEYWORDS then true
  else if matches slash_re line && matches digit line then true
  else if matches long_digits_re line then true
  else false.

(** The class of the filter: digits, [','], ['.'] and ['-']. *)
Definition num_char_minus (c : ascii) : bool :=
  isdigit c || ascii_eqb c "," || ascii_eqb c "." || ascii_eqb c "-".

Definition digit_or_dot (c : ascii) : bool := isdigit c || ascii_eqb c ".".

(** The pattern  \d+ ( \. \d+ )? *)
Definition plain_number_re : regex :=
  Seq (plus digit) (opt (Grp 1 (Seq (lit ".") (plus digit)))).

(** Lines 67-100 of [_normalize_number_token]: which separator is the
    decimal point. *)
Definition resolve_separators (s : str) : str :=
  if has_char "." s && has_char "," s then
    let '(dec_, thou) :=
      if rfind "," s <? rfind "." s then ("."%char, ","%char)
      else (","%char, "."%char) in
    let s := replace thou "" s in
    replace dec_ "." s
  else if has_char "," s && negb (has_char "." s) then
    let parts := split "," s in
    if len (last_part parts) =? 2 then replace "," "." s
    else if (len (last_part parts) =? 3)
            && (1 <? Z.of_nat (length parts)) then join parts
    else replace "," "." s
  else if has_char "." s && negb (has_char "," s) then
    let parts := split "." s in
    if len (last_part parts) <=? 2 then s else join parts
  else s.

(** Lines 107-140 of [_normalize_number_token]: the conversion, with the
    division by 100 of long integer tokens. *)
Definition convert (s : str) (context_numbers : option (list number))
    : result (option float) :=
  if is_empty s then Ret None
  else if has_char "." s then Ret (py_float s)
  else
    match py_int s with
    | None => Ret None
    | Some val =>
        let length_ := len s in
        if length_ <=? 3 then f ← py_float_of_int val; Ret (Some f)
        else if shows_decimals context_numbers then
          f ← py_float_of_int val; Ret (Some (fdiv f f100))
        else if 5 <=? length_ then
          f ← py_float_of_int val; Ret (Some (fdiv f f100))
        else f ← py_float_of_int val; Ret (Some f)
    end.

Definition _normalize_number_token (tok : option str)
    (context_numbers : option (list number)) : result (option float) :=
  match tok with
  | None => Ret None
  | Some tok =>
      if is_empty tok || negb (matches digit tok) then Ret None else
      let s := strip tok in
      let s := keep num_char_minus s in
      let s := resolve_separators s in
      let s := strip_by (fun c => ascii_eqb c ".") s in
      let s := if negb (fullmatch plain_number_re s)
               then keep digit_or_dot s else s in
      convert s context_numbers
  end.

(** The quick clean-up of a context token.  The rupee sign removed by the
    source is outside the modelled range. *)
Definition clean_context_token (tok : str) : str :=
  let cleaned := replace " " "" tok in
  let cleaned := replace_sub "INR" "" (replace_sub "Rs" "" cleaned) in
  if has_char "," cleaned && has_char "." cleaned then
    if rfind "," cleaned <? rfind "." cleaned then replace "," "" cleaned
    else replace "," "." (replace "." "" cleaned)
  else cleaned.

Definition context_numbers_of (lines : list str) : list number :=
  let context_number_tokens :=
    flat_map
      (fun ln =>
         map (fun m => clean_context_token (group_str m 2))
             (finditer _NUM_TOKEN_RE ln))
      lines in
  flat_map context_number context_number_tokens.

(** The three clean-up steps that turn a line into a description. *)
Definition describe (chosen ln : str) : str :=
  let desc := strip (re_sub (Seq (lit chosen) (Seq (star ws) Eol)) "" ln) in
  let desc :=
    strip (re_sub
             (Seq Bol (plus (Chr (fun c => isspace c || ascii_eqb c "$"
                                            || (code c =? 163)%N))))
             "" desc) in
  strip (re_sub
           (Seq Bol (Seq (plus digit)
                       (Seq (Chr (fun c => ascii_eqb c "." || ascii_eqb c ")"
                                           || ascii_eqb c "-"))
                          (star ws))))
           "" desc).

(** One turn of the main loop: the item appended, if any. *)
Definition line_item (context_numbers : list number) (ln : str)
    : result (option Item) :=
  if _is_metadata_line ln then Ret None
  else
    let chosen :=
      match search _RIGHTMOST_NUM_RE ln with
      | Some m_right => group m_right 1
      | None =>
          match search _NUM_TOKEN_RE ln with
          | Some m_any => group m_any 2
          | None => None
          end
      end in
    match chosen with
    | None => Ret None
    | Some chosen =>
        if is_empty chosen then Ret None else
        price ← _normalize_number_token (Some chosen)
                  (if is_empty context_numbers then None
                   else Some context_numbers);
        match price with
        | None => Ret None
        | Some price =>
            let desc := describe chosen ln in
            if fleb price f0 || fltb f1e6 price then Ret None
            else
              Ret (Some (mkItem (if is_empty desc then S_ "(item)" else desc)
                                (py_round price 2) ln))
        end
    end.

Fixpoint items_of (context_numbers : list number) (lns : list str)
    : result (list Item) :=
  match lns with
  | [] => Ret []
  | ln :: lns' =>
      it ← line_item context_numbers ln;
      its ← items_of context_numbers lns';
      Ret (match it with Some it => it :: its | None => its end)
  end.

Definition extract_lines_with_prices (raw_text : option str)
    : result (list Item) :=
  match raw_text with
  | None => Ret []
  | Some raw_text =>
      if is_empty raw_text then Ret [] else
      let lines := stripped_lines raw_text in
      items_of (context_numbers_of lines) lines
  end.

End Ocr.

(* ===================================================================== *)
(** * Notions used in the statements                                       *)
(* ===================================================================== *)

(** ** Shape of an amount token *)

Definition first_is (p : ascii -> bool) (s : str) : bool :=
  match s with c :: _ => p c | [] => false end.

Definition last_is (p : ascii -> bool) (s : str) : bool := first_is p (rev s).

(** What the amount patterns capture: digits, points and commas, with a
    digit first and a digit last. *)
Definition amount_token (tok : str) : bool :=
  forallb num_char tok && first_is isdigit tok && last_is isdigit tok.

(** The seven normalizations of the specification under an empty context,
    for one normalizer [norm]. *)
Definition normalizes_as_specified
    (norm : option str -> option (list number) -> result (option float))
    (empty : option (list number)) : Prop :=
  norm (Some (S_ "1,234.56")) empty = Ret (Some (dec 123456 2))
  /\ norm (Some (S_ "1.234,56")) empty = Ret (Some (dec 123456 2))
  /\ norm (Some (S_ "12,50")) empty = Ret (Some (dec 1250 2))
  /\ norm (Some (S_ "1,234")) empty = Ret (Some (dec 12340 1))
  /\ norm (Some (S_ "250")) empty = Ret (Some (dec 2500 1))
  /\ norm (Some (S_ "18099")) empty = Ret (Some (dec 18099 2))
  /\ norm (Some (S_ "1809")) empty = Ret (Some (dec 18090 1)).

(** ** Floats *)

(** A value accepted as a phase-2 candidate: [0 < v < 10000000]. *)
Definition plausible (v : float) : bool := fltb f0 v && fltb v f1e7.

(** A finite float greater than zero. *)
Definition posfin (v : float) : bool :=
  match v with S754_finite false _ _ => true | _ => false end.

Definition is_nan (v : float) : bool :=
  match v with S754_nan => true | _ => false end.

Definition cand_ok (c : float * str) : Prop := posfin (fst c) = true.

(** [d] does not come before [c] in descending order. *)
Definition below (c d : float * str) : Prop := fleb (fst d) (fst c) = true.

(** ** Names *)



(** [s] is [a], then [t], then [b], and [t] does not occur further to the
    left. *)
Definition first_occurrence (t s a b : str) : Prop :=
  s = a ++ t ++ b
  /\ forall a' b' : str, s = a' ++ t ++ b' -> (length a <= length a')%nat.




(** Deduplication as the specification words it: every name once, in the
    order of first appearance. *)
Fixpoint first_seen (l : list str) : list str :=
  match l with
  | [] => []
  | x :: l' => x :: List.filter (fun y => negb (str_eqb x y)) (first_seen l')
  end.

Definition unseen (seen : list str) (y : str) : bool :=
  negb (existsb (str_eqb y) seen).

(** ** What a pattern matches *)

(** [t] occurs in [s] as a contiguous piece. *)
Definition occurs_in (t s : str) : Prop := exists a b, s = a ++ t ++ b.

(** The texts a pattern can consume, anchors read as the empty text. *)
Fixpoint lang (r : regex) (w : str) : Prop :=
  match r with
  | Chr p => exists c, w = [c] /\ p c = true
  | Eps | Bol | Eol | Wb => w = []
  | Seq r1 r2 => exists u v, w = u ++ v /\ lang r1 u /\ lang r2 v
  | Alt r1 r2 => lang r1 w \/ lang r2 w
  | Rep r' lo hi =>
      exists ws,
        w = concat ws /\ Forall (lang r') ws /\ (lo <= length ws)%nat
        /\ match hi with Some h => (length ws <= h)%nat | None => True end
  | Grp _ r' => lang r' w
  end.

(** The texts group [i] of a pattern can record. *)
Fixpoint captures (r : regex) (i : nat) (t : str) : Prop :=
  match r with
  | Grp j r' => (i = j /\ lang r' t) \/ captures r' i t
  | Seq r1 r2 | Alt r1 r2 => captures r1 i t \/ captures r2 i t
  | Rep r' _ _ => captures r' i t
  | _ => False
  end.

(** What a successful run of the matcher on [r] from [st] hands to its
    continuation. *)
Definition run_of (r : regex) (st st' : mstate) (w : str) : Prop :=
  rest st = w ++ rest st'
  /\ pos st' = (pos st + length w)%nat
  /\ exists new,
       caps st' = new ++ caps st
       /\ Forall (fun c => captures r (fst c) (snd c) /\ occurs_in (snd c) w)
            new.

(** The loop that [rmatch] runs for a repetition, with the matcher of the
    repeated pattern as a parameter. *)
Definition rep_loop (m : mstate -> (mstate -> option mstate) -> option mstate)
    (lo : nat) (hi : option nat) (k : mstate -> option mstate)
    : nat -> nat -> mstate -> option mstate :=
  fix loop (fuel cnt : nat) (st : mstate) {struct fuel} : option mstate :=
    let stop := if (lo <=? cnt)%nat then k st else None in
    match fuel with
    | O => stop
    | Datatypes.S fuel' =>
        if match hi with Some h => (cnt <? h)%nat | None => true end
        then
          match m st (fun st' => if (pos st <? pos st')%nat
                                 then loop fuel' (Datatypes.S cnt) st'
                                 else None) with
          | Some e => Some e
          | None => stop
          end
        else stop
    end.

(** [n] repetitions respect the upper bound [hi]. *)
Definition within (hi : option nat) (n : nat) : Prop :=
  match hi with Some h => (n <= h)%nat | None => True end.

(** What a match object says about the text it was found in. *)
Definition match_in (r : regex) (s : str) (m : rematch) : Prop :=
  exists w,
    occurs_in w s /\ lang r w
    /\ forall i t, group m i = Some t -> captures r i t /\ occurs_in t w.

(** A text captured by one of the four numeric groups, found in line [ln]. *)
Definition numeric_token_of (ln t : str) : Prop :=
  amount_token t = true /\ (2 <= length t <= 22)%nat /\ occurs_in t ln.

(** Case analysis on what a group of a given pattern can record. *)
Ltac split_captures H :=
  cbn in H;
  repeat match goal with
         | H : _ \/ _ |- _ => destruct H
         | H : _ /\ _ |- _ => destruct H
         | H : False |- _ => destruct H
         end;
  try discriminate; try assumption.

(** ** Signs and infinities *)

Definition is_inf (v : float) : bool :=
  match v with S754_infinity _ => true | _ => false end.

(** Neither negative nor NaN: [+0.0], a positive finite float or [+inf]. *)
Definition nonneg (v : float) : bool :=
  match v with
  | S754_zero s | S754_infinity s | S754_finite s _ _ => negb s
  | S754_nan => false
  end.

(** ** Groups that always take part *)

(** Group [i] takes part in every match of the pattern. *)
Fixpoint binds (r : regex) (i : nat) : bool :=
  match r with
  | Grp j r' => (i =? j)%nat || binds r' i
  | Seq r1 r2 => binds r1 i || binds r2 i
  | Alt r1 r2 => binds r1 i && binds r2 i
  | Rep r' lo _ => (1 <=? lo)%nat && binds r' i
  | _ => false
  end.

(** The four places where the source takes a numeric token out of a line:
    the pattern and the number of the group read. *)
Definition token_patterns : list (regex * nat) :=
  [ (Nlp._AMT_RE, 1%nat); (Nlp.total_kw_re, 2%nat);
    (Ocr._NUM_TOKEN_RE, 2%nat); (Ocr._RIGHTMOST_NUM_RE, 1%nat) ].

(** ** Metadata lines, in words *)

(** The class of the date pattern: slash, backslash and hyphen. *)
Definition is_date_sep (c : ascii) : bool :=
  ascii_eqb c "/" || ascii_eqb c "\" || ascii_eqb c "-".

(** [s] holds [n] consecutive characters of class [p]. *)
Definition has_run (p : ascii -> bool) (n : nat) (s : str) : Prop :=
  exists run, occurs_in run s /\ length run = n /\ forallb p run = true.

(** The three marks of a metadata line, in words: a keyword somewhere in
    the lower-cased line, a date separator together with a digit, or eight
    digits in a row. *)
Definition metadata_like (keywords : list str) (line : str) : Prop :=
  (exists k, In k keywords /\ occurs_in k (lower line))
  \/ (existsb is_date_sep line = true /\ existsb isdigit line = true)
  \/ has_run isdigit 8 line.

(** Length of the longest prefix in class [p]. *)
Fixpoint run_len (p : ascii -> bool) (s : str) : nat :=
  match s with
  | c :: s' => if p c then Datatypes.S (run_len p s') else O
  | [] => O
  end.

(** ** Trimmed texts *)

(** Neither the first nor the last character is white space. *)
Definition trimmed (s : str) : Prop :=
  first_is isspace s = false /\ last_is isspace s = false.

(** ** Candidate names *)

(** A capital letter A-Z followed by one or more letters a-z. *)
Definition capitalised (w : str) : Prop :=
  exists c tl,
    w = c :: tl /\ isupper_az c = true /\ tl <> []
    /\ forallb islower_az tl = true.

(** One to three capitalised words, set apart by white space. *)
Definition name_like (t : str) : Prop :=
  exists w more,
    t = w ++ concat (map (fun p => fst p ++ snd p) more)
    /\ capitalised w
    /\ (length more <= 2)%nat
    /\ Forall (fun p : str * str =>
                 fst p <> [] /\ forallb isspace (fst p) = true
                 /\ capitalised (snd p)) more.

(** The named-entity model is missing, fails on [text] or finds no person
    in it. *)
Definition no_model_persons (nlp : option Nlp.ner) (text : str) : Prop :=
  match nlp with
  | Some model => model text = None \/ model text = Some []
  | None => True
  end.

(** ** Binary64 numbers and their values *)

(** The place of [n / d] between [n / d] rounded down and the next
    integer. *)
Definition loc_of_ratio (n d : Z) : location :=
  if n mod d =? 0 then loc_Exact else loc_Inexact (2 * (n mod d) ?= d).

Definition rec_of_ratio (n d : Z) : shr_record :=
  shr_record_of_loc (n / d) (loc_of_ratio n d).

(** The float of a mantissa and an exponent in range. *)
Definition of_mantissa (s : bool) (m e : Z) : float :=
  match m with
  | Z0 => S754_zero s
  | Zpos p => if e <=? emax - prec then S754_finite s p e else S754_infinity s
  | Zneg _ => S754_nan
  end.

(** What [binary_round_aux] computes on the quotient [n / d] taken at
    exponent [e]: the exponent is raised until 53 digits are left, the
    quotient at that exponent is rounded half-even, and one more digit is
    dropped when the rounding carried. *)
Definition round_ratio (s : bool) (n d e : Z) : float :=
  let e1 := Z.max e (fexp prec emax (Zdigits2 (n / d) + e)) in
  let q2 := div_half_even n (d * 2 ^ (e1 - e)) in
  let e3 := Z.max e1 (fexp prec emax (Zdigits2 q2 + e1)) in
  of_mantissa s (q2 / 2 ^ (e3 - e1)) e3.

(** The exponent at which [SFdiv] takes the quotient of two mantissas. *)
Definition div_exponent (mx my : positive) (ex ey : Z) : Z :=
  Z.min (fexp prec emax (Zdigits2 (Zpos mx) + ex - (Zdigits2 (Zpos my) + ey)))
        (ex - ey).

(** The exponent at which [float(n)] takes an integer: 0 when it has more
    than 53 digits; otherwise the integer is shifted to the left until it
    has 53 digits, and the exponent is the opposite of the shift. *)
Definition int_exponent (m : positive) : Z :=
  Z.min (fexp prec emax (Zdigits2 (Zpos m))) 0.

(** The number a finite float stands for.  Infinities and NaN are given
    the value 0, as the zeros have it, so that [0 < value x] says that [x]
    is finite and positive. *)
Definition value (x : float) : Q :=
  match x with
  | S754_finite s m e =>
      (if s then Qopp else fun q => q) (inject_Z (Zpos m) * 2 ^ e)%Q
  | _ => 0%Q
  end.

(** A float in the binary64 format: a finite one has its mantissa and
    exponent in canonical form. *)
Definition binary64 (x : float) : bool := valid_binary prec emax x.

(** [n] is the integer nearest to [x], the even one when [x] lies halfway
    between two integers. *)
Definition nearest_even (x : Q) (n : Z) : Prop :=
  (Qabs (x - inject_Z n) <= 1 # 2)%Q
  /\ ((Qabs (x - inject_Z n) == 1 # 2)%Q -> Z.even n = true).

(** The least integer that [float] does not convert: halfway between the
    largest finite binary64 number, [2^1024 - 2^971], and [2^1024]. *)
Definition float_overflow : Z := 2 ^ 1024 - 2 ^ 970.

(* ===================================================================== *)
(** * Properties                                                           *)
(* ===================================================================== *)

(** ** Strings *)

Lemma ascii_eqb_eq (a b : ascii) : ascii_eqb a b = true <-> a = b.
Proof. apply Ascii.eqb_eq. Qed.

Lemma keep_id (p : ascii -> bool) (s : str) :
  forallb p s = true -> keep p s = s.
Proof.
  unfold keep. induction s as [| c s IH]; simpl; [reflexivity |].
  intros H. apply andb_prop in H as [Hc Hs]. rewrite Hc, IH by assumption.
  reflexivity.
Qed.

Lemma lstrip_by_id (p : ascii -> bool) (s : str) :
  first_is (fun c => negb (p c)) s = true -> lstrip_by p s = s.
Proof.
  destruct s as [| c s]; simpl; [discriminate |].
  intros H. apply negb_true_iff in H. rewrite H. reflexivity.
Qed.

Lemma strip_by_id (p : ascii -> bool) (s : str) :
  first_is (fun c => negb (p c)) s = true ->
  last_is (fun c => negb (p c)) s = true ->
  strip_by p s = s.
Proof.
  intros Hf Hl. unfold strip_by, rstrip_by.
  rewrite (lstrip_by_id p s Hf), (lstrip_by_id p (rev s) Hl).
  apply rev_involutive.
Qed.

Lemma first_is_weaken (p q : ascii -> bool) (s : str) :
  (forall c, p c = true -> q c = true) ->
  first_is p s = true -> first_is q s = true.
Proof. destruct s; simpl; auto. Qed.

Lemma forallb_weaken (p q : ascii -> bool) (s : str) :
  (forall c, p c = true -> q c = true) ->
  forallb p s = true -> forallb q s = true.
Proof.
  intros Hpq. rewrite !forallb_forall. auto.
Qed.

Lemma replace_app (c : ascii) (b u v : str) :
  replace c b (u ++ v) = replace c b u ++ replace c b v.
Proof. unfold replace. apply flat_map_app. Qed.

Lemma first_is_replace (c : ascii) (b s : str) :
  isdigit c = false ->
  first_is isdigit s = true -> first_is isdigit (replace c b s) = true.
Proof.
  intros Hc. destruct s as [| x s]; simpl; [discriminate |].
  intros Hx. destruct (ascii_eqb x c) eqn:E.
  - apply ascii_eqb_eq in E. subst. congruence.
  - simpl. assumption.
Qed.

Lemma last_is_replace (c : ascii) (b s : str) :
  isdigit c = false ->
  last_is isdigit s = true -> last_is isdigit (replace c b s) = true.
Proof.
  intros Hc. unfold last_is. destruct (rev s) as [| d r] eqn:E; simpl;
    [discriminate |].
  intros Hd. apply (f_equal (@rev ascii)) in E. rewrite rev_involutive in E.
  simpl in E. subst s. rewrite replace_app, rev_app_distr.
  simpl. destruct (ascii_eqb d c) eqn:E'.
  - apply ascii_eqb_eq in E'. subst. congruence.
  - simpl. assumption.
Qed.

Lemma forallb_replace (p q : ascii -> bool) (c : ascii) (b s : str) :
  (forall x, p x = true -> ascii_eqb x c = false -> q x = true) ->
  forallb q b = true ->
  forallb p s = true -> forallb q (replace c b s) = true.
Proof.
  intros Hpq Hb. induction s as [| x s IH]; simpl; [reflexivity |].
  intros H. apply andb_prop in H as [Hx Hs].
  rewrite forallb_app, IH by assumption. rewrite andb_true_r.
  destruct (ascii_eqb x c) eqn:E; [assumption |].
  simpl. rewrite (Hpq x Hx E). reflexivity.
Qed.

Lemma replace_same (c : ascii) (s : str) : replace c [c] s = s.
Proof.
  induction s as [| x s IH]; simpl; [reflexivity |].
  fold (replace c [c] s). rewrite IH.
  destruct (ascii_eqb x c) eqn:E; [| reflexivity].
  apply ascii_eqb_eq in E. subst. reflexivity.
Qed.

Lemma split_cons (c : ascii) (s : str) : exists p ps, split c s = p :: ps.
Proof.
  induction s as [| x s (p & ps & IH)]; simpl; [eauto |].
  destruct (ascii_eqb x c); [eauto |]. rewrite IH. eauto.
Qed.

Lemma join_split (c : ascii) (s : str) : join (split c s) = replace c [] s.
Proof.
  unfold join. induction s as [| x s IH]; simpl; [reflexivity |].
  fold (replace c [] s).
  destruct (ascii_eqb x c); simpl; [assumption |].
  destruct (split_cons c s) as (p & ps & E). rewrite E in *. simpl in *.
  rewrite IH. reflexivity.
Qed.

Lemma split_has_char (c : ascii) (s : str) :
  has_char c s = true -> (1 <? Z.of_nat (length (split c s))) = true.
Proof.
  intros H. apply Z.ltb_lt.
  induction s as [| x s IH]; simpl in *; [discriminate |].
  destruct (split_cons c s) as (p & ps & E).
  destruct (ascii_eqb x c) eqn:Exc.
  - rewrite E. simpl. lia.
  - unfold ascii_eqb in *. rewrite Ascii.eqb_sym, Exc in H. simpl in H.
    specialize (IH H). rewrite E in *. simpl in *. lia.
Qed.

(** ** The two normalizers agree *)

Lemma resolve_separators_agree (s : str) :
  Nlp.resolve_separators s = Ocr.resolve_separators s.
Proof.
  unfold Nlp.resolve_separators, Ocr.resolve_separators.
  destruct (has_char "." s) eqn:Hd, (has_char "," s) eqn:Hc; simpl;
    try reflexivity.
  - destruct (rfind "," s <? rfind "." s); [| reflexivity].
    symmetry. apply replace_same.
  - rewrite Z.leb_antisym. destruct (2 <? len (last_part (split "." s)));
      reflexivity.
  - destruct (len (last_part (split "," s)) =? 2); [reflexivity |].
    rewrite (split_has_char "," s Hc), andb_true_r. reflexivity.
Qed.

Lemma has_char_false (c : ascii) (s : str) (x : ascii) :
  has_char c s = false -> In x s -> ascii_eqb x c = false.
Proof.
  unfold has_char. intros H Hin.
  destruct (ascii_eqb x c) eqn:E; [| reflexivity].
  apply ascii_eqb_eq in E. subst x.
  assert (existsb (ascii_eqb c) s = true) as H'; [| congruence].
  apply existsb_exists. exists c. split; [assumption |].
  apply ascii_eqb_eq. reflexivity.
Qed.

Lemma no_comma_digit_or_dot (s : str) :
  has_char "," s = false ->
  forallb num_char s = true -> forallb Ocr.digit_or_dot s = true.
Proof.
  intros Hc. rewrite !forallb_forall. intros H x Hin.
  specialize (H x Hin). pose proof (has_char_false _ _ _ Hc Hin) as Hx.
  unfold num_char in H. unfold Ocr.digit_or_dot. rewrite Hx in H.
  rewrite orb_false_r in H. assumption.
Qed.

Lemma num_char_not_comma (x : ascii) :
  num_char x = true -> ascii_eqb x "," = false -> Ocr.digit_or_dot x = true.
Proof.
  unfold num_char, Ocr.digit_or_dot. intros H E. rewrite E, orb_false_r in H.
  assumption.
Qed.

(** What the separator step leaves of an amount token. *)
Lemma resolve_separators_shape (s : str) :
  amount_token s = true ->
  forallb Ocr.digit_or_dot (Nlp.resolve_separators s) = true
  /\ first_is isdigit (Nlp.resolve_separators s) = true
  /\ last_is isdigit (Nlp.resolve_separators s) = true.
Proof.
  unfold amount_token. intros H.
  apply andb_prop in H as [H Hl]. apply andb_prop in H as [Ha Hf].
  assert (Hrc : forall b, forallb Ocr.digit_or_dot b = true ->
            forallb Ocr.digit_or_dot (replace "," b s) = true
            /\ first_is isdigit (replace "," b s) = true
            /\ last_is isdigit (replace "," b s) = true).
  { intros b Hb. split; [| split].
    - apply (forallb_replace num_char); auto using num_char_not_comma.
    - apply first_is_replace; auto.
    - apply last_is_replace; auto. }
  unfold Nlp.resolve_separators.
  destruct (has_char "." s) eqn:Hd, (has_char "," s) eqn:Hc; simpl.
  - destruct (rfind "," s <? rfind "." s); [apply Hrc; reflexivity |].
    split; [| split].
    + apply (forallb_replace num_char); auto using num_char_not_comma.
      apply (forallb_replace num_char); auto.
    + apply first_is_replace; auto. apply first_is_replace; auto.
    + apply last_is_replace; auto. apply last_is_replace; auto.
  - rewrite join_split.
    destruct (2 <? len (last_part (split "." s))).
    + split; [| split].
      * apply (forallb_replace Ocr.digit_or_dot); auto.
        apply no_comma_digit_or_dot; assumption.
      * apply first_is_replace; auto.
      * apply last_is_replace; auto.
    + auto using no_comma_digit_or_dot.
  - rewrite join_split.
    destruct (len (last_part (split "," s)) =? 2);
      [apply Hrc; reflexivity |].
    destruct (len (last_part (split "," s)) =? 3); apply Hrc; reflexivity.
  - auto using no_comma_digit_or_dot.
Qed.

Lemma convert_agree (s : str) (ctx : option (list number)) :
  Nlp.convert s ctx = Ocr.convert s ctx.
Proof.
  unfold Nlp.convert, Ocr.convert.
  destruct s as [| c s]; [reflexivity |].
  change (is_empty (c :: s)) with false. cbv iota.
  destruct (has_char "." (c :: s)); [reflexivity |].
  destruct (py_int (c :: s)) as [val |]; [| reflexivity].
  cbv zeta.
  destruct (5 <=? len (c :: s)) eqn:H5, (len (c :: s) <=? 3) eqn:H3,
    (4 <=? len (c :: s)) eqn:H4, (shows_decimals ctx); simpl;
    try reflexivity; lia.
Qed.

Lemma digit_not_space (c : ascii) : isdigit c = true -> isspace c = false.
Proof.
  unfold isdigit, isspace, in_range. generalize (code c). intros n H.
  apply andb_prop in H as [H1 H2]. apply N.leb_le in H1, H2.
  destruct (N.leb_spec n 13), (N.leb_spec 28 n), (N.leb_spec n 32),
    (N.eqb_spec n 133), (N.eqb_spec n 160);
    rewrite ?andb_false_r; simpl; try reflexivity; lia.
Qed.

Lemma digit_not_sep (c x : ascii) :
  isdigit c = false -> isdigit x = true -> ascii_eqb x c = false.
Proof.
  intros Hc Hx. destruct (ascii_eqb x c) eqn:E; [| reflexivity].
  apply ascii_eqb_eq in E. subst. congruence.
Qed.

Lemma digit_search (s : str) :
  first_is isdigit s = true -> matches digit s = true.
Proof.
  destruct s as [| c s]; simpl; [discriminate |]. intros H.
  unfold matches, search. simpl. rewrite H. reflexivity.
Qed.

(** C10.  The two normalizers agree: on every token made of digits, points
    and commas that begins and ends with a digit, and for every context
    (absent, or any list of numbers), [_clean_and_convert_token] and
    [_normalize_number_token] give the same outcome: the same float, both
    [None], or both the same exception. *)
Theorem C10_normalizers_agree (tok : str) (ctx : option (list number)) :
  amount_token tok = true ->
  Nlp._clean_and_convert_token (Some tok) ctx
  = Ocr._normalize_number_token (Some tok) ctx.
Proof.
  intros Htok. pose proof Htok as H. unfold amount_token in H.
  apply andb_prop in H as [H Hl]. apply andb_prop in H as [Ha Hf].
  assert (Hstrip : strip tok = tok).
  { apply strip_by_id; (eapply (first_is_weaken isdigit); [| eassumption]);
      intros c Hc; rewrite (digit_not_space c Hc); reflexivity. }

  unfold Nlp._clean_and_convert_token, Ocr._normalize_number_token.
  cbv zeta. rewrite Hstrip.
  rewrite (keep_id num_char tok Ha).
  rewrite (keep_id Ocr.num_char_minus tok).
  2:{ apply (forallb_weaken num_char); [| assumption].
      intros c. unfold num_char, Ocr.num_char_minus.
      destruct (isdigit c), (ascii_eqb c "."), (ascii_eqb c ","); simpl;
        congruence. }
  rewrite (digit_search tok Hf).
  destruct tok as [| c tok]; [discriminate |].
  change (is_empty (c :: tok)) with false. cbv iota. simpl negb. cbv iota.
  rewrite <- resolve_separators_agree.
  destruct (resolve_separators_shape (c :: tok) Htok) as (Hdd & Hfd & Hld).
  rewrite strip_by_id.
  2,3: (eapply (first_is_weaken isdigit); [| eassumption]);
       intros x Hx; rewrite (digit_not_sep "." x); auto.
  rewrite (keep_id Ocr.digit_or_dot _ Hdd).
  destruct (negb (fullmatch Ocr.plain_number_re (Nlp.resolve_separators (c :: tok))));
    apply convert_agree.
Qed.

Lemma C10_normalizers_agree_witness :
  Nlp._clean_and_convert_token (Some (S_ "1.234,56")) (Some [PyInt 7])
  = Ocr._normalize_number_token (Some (S_ "1.234,56")) (Some [PyInt 7]).
Proof. apply (C10_normalizers_agree (S_ "1.234,56")). reflexivity. Defined.

(** ** The normalizers on the tokens of the specification *)

Lemma existsb_fractional (ctx : list number) (x : number) :
  In x ctx -> fractional x = true -> shows_decimals (Some ctx) = true.
Proof.
  intros Hin Hx. simpl. apply existsb_exists. exists x. split; assumption.
Qed.

(** C2.  On the token "1.234.567" both normalizers remove the dots and
    then, the remaining digit string having seven digits, divide by 100:
    the result is 12345.67 and not 1234567.0, whatever the context. *)
Theorem C2_dotted_thousands_divided_by_100 (ctx : option (list number)) :
  Nlp._clean_and_convert_token (Some (S_ "1.234.567")) ctx
    = Ret (Some (dec 1234567 2))
  /\ Ocr._normalize_number_token (Some (S_ "1.234.567")) ctx
    = Ret (Some (dec 1234567 2))
  /\ dec 1234567 2 <> dec 12345670 1.
Proof.
  split; [| split].
  - unfold Nlp._clean_and_convert_token, Nlp.convert.
    destruct (shows_decimals ctx); vm_compute; reflexivity.
  - unfold Ocr._normalize_number_token, Ocr.convert.
    destruct (shows_decimals ctx); vm_compute; reflexivity.
  - vm_compute. discriminate.
Qed.

(** C3.  With an empty context (no list, or an empty list) both
    normalizers map "1,234.56" and "1.234,56" to 1234.56, "12,50" to
    12.50, "1,234" to 1234.0, "250" to 250.0, "18099" to 180.99 and "1809"
    to 1809.0; with a context that holds a fractional value they map
    "1809" to 18.09. *)
Theorem C3_normalization_table :
  normalizes_as_specified Nlp._clean_and_convert_token None
  /\ normalizes_as_specified Nlp._clean_and_convert_token (Some [])
  /\ normalizes_as_specified Ocr._normalize_number_token None
  /\ normalizes_as_specified Ocr._normalize_number_token (Some [])
  /\ (forall (ctx : list number) (x : number),
        In x ctx -> fractional x = true ->
        Nlp._clean_and_convert_token (Some (S_ "1809")) (Some ctx)
        = Ret (Some (dec 1809 2))
        /\ Ocr._normalize_number_token (Some (S_ "1809")) (Some ctx)
           = Ret (Some (dec 1809 2))).
Proof.
  repeat split; try (vm_compute; reflexivity).
  - unfold Nlp._clean_and_convert_token, Nlp.convert.
    rewrite (existsb_fractional ctx x) by assumption.
    vm_compute. reflexivity.
  - unfold Ocr._normalize_number_token, Ocr.convert.
    rewrite (existsb_fractional ctx x) by assumption.
    vm_compute. reflexivity.
Qed.

Lemma C3_normalization_table_witness :
  Nlp._clean_and_convert_token (Some (S_ "1809")) (Some [PyFloat (dec 125 1)])
  = Ret (Some (dec 1809 2))
  /\ Ocr._normalize_number_token (Some (S_ "1809"))
       (Some [PyFloat (dec 125 1)])
     = Ret (Some (dec 1809 2)).
Proof.
  destruct C3_normalization_table as (_ & _ & _ & _ & H).
  apply (H [PyFloat (dec 125 1)] (PyFloat (dec 125 1))).
  - left. reflexivity.
  - vm_compute. reflexivity.
Defined.

(** C9, as stated, fails: a token of 400 digits makes both normalizers
    raise, because the conversion [float(val)] of the parsed integer is
    outside every try block and overflows. *)
Theorem C9_normalizer_raises_on_long_token :
  Nlp._clean_and_convert_token (Some (repeat "9"%char 400)) None
    = Raise OverflowError
  /\ Ocr._normalize_number_token (Some (repeat "9"%char 400)) None
    = Raise OverflowError.
Proof. split; vm_compute; reflexivity. Qed.

(** ** The order of positive finite floats *)

Lemma positive_posfin (v : float) :
  fltb f0 v = true -> fltb v f1e7 = true -> posfin v = true.
Proof. destruct v as [[] | [] | | [] m e]; simpl; try discriminate; auto. Qed.

Lemma plausible_posfin (v : float) : plausible v = true -> posfin v = true.
Proof.
  unfold plausible. intros H. apply andb_prop in H as [H0 H7].
  apply positive_posfin; assumption.
Qed.

Lemma fleb_posfin (m1 m2 : positive) (e1 e2 : Z) :
  fleb (S754_finite false m1 e1) (S754_finite false m2 e2) = true
  <-> e1 < e2 \/ (e1 = e2 /\ (m1 <= m2)%positive).
Proof.
  unfold fleb, SFleb, SFcompare. rewrite Pos.compare_cont_spec. simpl.
  destruct (Z.compare_spec e1 e2) as [E | E | E].
  - unfold Pos.le. destruct (m1 ?= m2)%positive eqn:C; split; intros H;
      try discriminate; try (right; split; [assumption | discriminate]);
      try reflexivity; try lia.
    destruct H as [H | [_ H]]; [lia | congruence].
  - split; [left; assumption | reflexivity].
  - split; [discriminate | lia].
Qed.

Lemma fltb_posfin (m1 m2 : positive) (e1 e2 : Z) :
  fltb (S754_finite false m1 e1) (S754_finite false m2 e2) = true
  <-> e1 < e2 \/ (e1 = e2 /\ (m1 < m2)%positive).
Proof.
  unfold fltb, SFltb, SFcompare. rewrite Pos.compare_cont_spec. simpl.
  destruct (Z.compare_spec e1 e2) as [E | E | E].
  - unfold Pos.lt. destruct (m1 ?= m2)%positive eqn:C; split; intros H;
      try discriminate; try (right; split; [assumption | reflexivity]);
      try reflexivity; try lia; destruct H as [H | [_ H]]; try lia;
      congruence.
  - split; [left; assumption | reflexivity].
  - split; [discriminate | lia].
Qed.

Lemma fleb_total (x y : float) :
  posfin x = true -> posfin y = true ->
  fltb x y = false -> fleb y x = true.
Proof.
  destruct x as [| | | [] m1 e1]; try discriminate.
  destruct y as [| | | [] m2 e2]; try discriminate.
  intros _ _ H. apply fleb_posfin.
  destruct (Z.lt_total e1 e2) as [L | [L | L]].
  - assert (fltb (S754_finite false m1 e1) (S754_finite false m2 e2) = true)
      as H' by (apply fltb_posfin; lia). congruence.
  - destruct (Pos.lt_total m1 m2) as [M | [M | M]].
    + assert (fltb (S754_finite false m1 e1) (S754_finite false m2 e2) = true)
        as H' by (apply fltb_posfin; lia). congruence.
    + right. split; [lia |]. subst. apply Pos.le_refl.
    + right. split; [lia |]. apply Pos.lt_le_incl. assumption.
  - left. lia.
Qed.

Lemma fltb_fleb (x y : float) :
  posfin x = true -> posfin y = true ->
  fltb x y = true -> fleb x y = true.
Proof.
  destruct x as [| | | [] m1 e1]; try discriminate.
  destruct y as [| | | [] m2 e2]; try discriminate.
  intros _ _ H. apply fltb_posfin in H. apply fleb_posfin.
  destruct H as [H | [H1 H2]]; [left; assumption |].
  right. split; [assumption |]. apply Pos.lt_le_incl. assumption.
Qed.

Lemma fleb_trans (x y z : float) :
  posfin x = true -> posfin y = true -> posfin z = true ->
  fleb x y = true -> fleb y z = true -> fleb x z = true.
Proof.
  destruct x as [| | | [] m1 e1]; try discriminate.
  destruct y as [| | | [] m2 e2]; try discriminate.
  destruct z as [| | | [] m3 e3]; try discriminate.
  intros _ _ _ H1 H2. apply fleb_posfin in H1, H2. apply fleb_posfin.
  lia.
Qed.

(** ** No operation of the normalizers produces NaN *)

Lemma iter_pos_invariant {A} (f : A -> A) (P : A -> Prop) :
  (forall x, P x -> P (f x)) ->
  forall p x, P x -> P (SpecFloat.iter_pos f p x).
Proof.
  intros Hf. induction p as [p IH | p IH |]; simpl; intros x Hx; auto.
Qed.

Lemma shr_1_nonneg (mrs : shr_record) :
  0 <= shr_m mrs -> 0 <= shr_m (shr_1 mrs).
Proof.
  destruct mrs as [m r s]. simpl.
  destruct m as [| [p | p |] | [p | p |]]; simpl; lia.
Qed.

Lemma shr_nonneg (mrs : shr_record) (e n : Z) :
  0 <= shr_m mrs -> 0 <= shr_m (fst (shr mrs e n)).
Proof.
  intros H. unfold shr. destruct n as [| p | p]; simpl; try assumption.
  apply iter_pos_invariant; [apply shr_1_nonneg | assumption].
Qed.

Lemma shr_fexp_nonneg (m e : Z) (l : location) :
  0 <= m -> 0 <= shr_m (fst (shr_fexp prec emax m e l)).
Proof.
  intros H. unfold shr_fexp. apply shr_nonneg.
  destruct l as [| []]; simpl; assumption.
Qed.

Lemma round_nearest_even_nonneg (m : Z) (l : location) :
  0 <= m -> 0 <= round_nearest_even m l.
Proof.
  intros H. unfold round_nearest_even.
  destruct l as [| []]; try destruct (Z.even m); lia.
Qed.

Lemma binary_round_aux_not_nan (sx : bool) (mx ex : Z) (lx : location) :
  0 <= mx -> is_nan (binary_round_aux prec emax sx mx ex lx) = false.
Proof.
  intros H. unfold binary_round_aux.
  pose proof (shr_fexp_nonneg mx ex lx H) as H1.
  destruct (shr_fexp prec emax mx ex lx) as [mrs' e']. simpl in H1.
  pose proof (shr_fexp_nonneg
                (round_nearest_even (shr_m mrs') (loc_of_shr_record mrs'))
                e' loc_Exact
                (round_nearest_even_nonneg _ _ H1)) as H2.
  destruct (shr_fexp prec emax _ e' loc_Exact) as [mrs'' e'']. simpl in H2.
  destruct (shr_m mrs'') as [| p | p]; [reflexivity | | lia].
  destruct (e'' <=? emax - prec); reflexivity.
Qed.

Lemma SFdiv_finite_not_nan (sx sy : bool) (mx my : positive) (ex ey : Z) :
  is_nan (SFdiv prec emax (S754_finite sx mx ex) (S754_finite sy my ey))
  = false.
Proof.
  unfold SFdiv.
  destruct (SFdiv_core_binary prec emax (Zpos mx) ex (Zpos my) ey)
    as [[mz ez] lz] eqn:E.
  apply binary_round_aux_not_nan.
  unfold SFdiv_core_binary in E.
  set (m' := match _ - _ - _ with Z0 => _ | Zpos _ => _ | Zneg _ => _ end)
    in E.
  assert (0 <= m') as Hm'.
  { subst m'. destruct (_ - _ - _); try lia. apply Z.shiftl_nonneg. lia. }
  pose proof (Z.div_eucl_eq m' (Zpos my) ltac:(lia)) as Hq.
  pose proof (Z.mod_pos_bound m' (Zpos my) ltac:(lia)) as Hr.
  unfold Z.modulo in Hr.
  destruct (Z.div_eucl m' (Zpos my)) as [q r]. injection E as <- _ _.
  nia.
Qed.

Lemma float_of_ratio_not_nan (n : Z) (d : positive) :
  is_nan (float_of_ratio n d) = false.
Proof.
  unfold float_of_ratio. destruct n; try reflexivity.
  apply SFdiv_finite_not_nan.
Qed.

Lemma float_of_Z_not_nan (z : Z) : is_nan (float_of_Z z) = false.
Proof.
  unfold float_of_Z, binary_normalize, binary_round.
  destruct z as [| p | p]; [reflexivity | |];
    destruct (shl_align _ _ _) as [mz ez]; apply binary_round_aux_not_nan;
    lia.
Qed.

Lemma fdiv_f100_not_nan (f : float) :
  is_nan f = false -> is_nan (fdiv f f100) = false.
Proof.
  unfold fdiv. set (c := f100). vm_compute in c. subst c.
  destruct f as [s | s | | s m e]; intros H; try reflexivity;
    try discriminate.
  apply SFdiv_finite_not_nan.
Qed.

Lemma py_float_not_nan (s : str) (v : float) :
  py_float s = Some v -> is_nan v = false.
Proof.
  unfold py_float.
  destruct (split "." s) as [| i [| f [| ? ?]]]; try discriminate.
  - destruct i; [discriminate |].
    destruct (digits_value 0 _); [| discriminate].
    intros [= <-]. apply float_of_ratio_not_nan.
  - destruct (i ++ f); [discriminate |].
    destruct (digits_value 0 _); [| discriminate].
    intros [= <-]. apply float_of_ratio_not_nan.
Qed.

Lemma py_float_of_int_not_nan (z : Z) (f : float) :
  py_float_of_int z = Ret f -> is_nan f = false.
Proof.
  unfold py_float_of_int. pose proof (float_of_Z_not_nan z) as H.
  destruct (float_of_Z z); intros [= <-]; assumption || reflexivity.
Qed.

Lemma ocr_convert_not_nan (s : str) (ctx : option (list number)) (v : float) :
  Ocr.convert s ctx = Ret (Some v) -> is_nan v = false.
Proof.
  unfold Ocr.convert. destruct (is_empty s); [discriminate |].
  destruct (has_char "." s).
  - intros [= H]. eapply py_float_not_nan. eassumption.
  - destruct (py_int s) as [val |]; [| discriminate]. cbv zeta.
    destruct (py_float_of_int val) as [f | e] eqn:E;
      [| repeat match goal with |- context [if ?b then _ else _] =>
           destruct b end; discriminate].
    pose proof (py_float_of_int_not_nan val f E) as Hf.
    repeat match goal with |- context [if ?b then _ else _] =>
      destruct b end; simpl; intros [= <-];
      auto using fdiv_f100_not_nan.
Qed.

Lemma normalize_not_nan (tok : option str) (ctx : option (list number))
    (v : float) :
  Ocr._normalize_number_token tok ctx = Ret (Some v) -> is_nan v = false.
Proof.
  unfold Ocr._normalize_number_token. destruct tok as [tok |];
    [| discriminate].
  destruct (is_empty tok || negb (matches digit tok)); [discriminate |].
  cbv zeta. apply ocr_convert_not_nan.
Qed.

Lemma above_zero (v : float) :
  is_nan v = false -> fleb v f0 = false -> fltb f0 v = true.
Proof.
  destruct v as [[] | [] | | [] m e]; simpl; intros; try discriminate; auto.
Qed.

Lemma fleb_fltb_trans (x y z : float) :
  posfin x = true -> posfin y = true -> posfin z = true ->
  fleb x y = true -> fltb y z = true -> fltb x z = true.
Proof.
  destruct x as [| | | [] m1 e1]; try discriminate.
  destruct y as [| | | [] m2 e2]; try discriminate.
  destruct z as [| | | [] m3 e3]; try discriminate.
  intros _ _ _ H1 H2. apply fleb_posfin in H1. apply fltb_posfin in H2.
  apply fltb_posfin. lia.
Qed.

Lemma f1e6_posfin : posfin f1e6 = true.
Proof. vm_compute. reflexivity. Qed.

Lemma f1e7_posfin : posfin f1e7 = true.
Proof. vm_compute. reflexivity. Qed.

Lemma f1e6_below_f1e7 : fltb f1e6 f1e7 = true.
Proof. vm_compute. reflexivity. Qed.

Lemma not_above_posfin (v : float) :
  fltb f0 v = true -> fltb f1e6 v = false -> posfin v = true.
Proof.
  destruct v as [[] | [] | | [] m e]; intros H0 H6; try reflexivity;
    vm_compute in H0; vm_compute in H6; discriminate.
Qed.

Create HintDb float_order.
#[global] Hint Resolve f1e6_posfin f1e7_posfin f1e6_below_f1e7
  plausible_posfin fleb_total : float_order.

Lemma up_to_million (v : float) :
  fltb f0 v = true -> fltb f1e6 v = false ->
  fleb v f1e6 = true /\ fltb v f1e7 = true.
Proof.
  intros H0 H6. pose proof (not_above_posfin v H0 H6) as Hv.
  assert (fleb v f1e6 = true) as Hle by auto with float_order.
  split; [assumption |].
  apply (fleb_fltb_trans v f1e6 f1e7); auto with float_order.
Qed.

(** ** The stable descending sort and the candidates *)

Lemma insert_desc_perm (c : float * str) (l : list (float * str)) :
  Permutation (Nlp.insert_desc c l) (c :: l).
Proof.
  induction l as [| d l IH]; simpl; [reflexivity |].
  destruct (fltb (fst c) (fst d)); [| reflexivity].
  rewrite IH. apply perm_swap.
Qed.

Lemma sorted_desc_perm (l : list (float * str)) : Permutation (Nlp.sorted_desc l) l.
Proof.
  induction l as [| c l IH]; simpl; [reflexivity |].
  rewrite insert_desc_perm. constructor. assumption.
Qed.

Lemma insert_desc_sorted (c : float * str) (l : list (float * str)) :
  cand_ok c -> Forall cand_ok l ->
  StronglySorted below l -> StronglySorted below (Nlp.insert_desc c l).
Proof.
  intros Hc Hl Hs. induction Hs as [| d l Hs IH Hd]; simpl.
  - repeat constructor.
  - inversion Hl as [| ? ? Hdok Hlok]; subst.
    destruct (fltb (fst c) (fst d)) eqn:E.
    + constructor; [auto |].
      rewrite (insert_desc_perm c l). constructor; [| assumption].
      apply fltb_fleb; assumption.
    + assert (below c d) as Hcd by (apply fleb_total; assumption).
      constructor; [constructor; assumption |].
      constructor; [assumption |].
      rewrite Forall_forall in *. intros x Hx.
      unfold below in *. eapply fleb_trans; [| | | apply Hd, Hx | apply Hcd];
        auto.
      apply Hlok, Hx.
Qed.

Lemma sorted_desc_sorted (l : list (float * str)) :
  Forall cand_ok l -> StronglySorted below (Nlp.sorted_desc l).
Proof.
  induction 1 as [| c l Hc Hl IH]; simpl; [constructor |].
  apply insert_desc_sorted; auto.
  rewrite (sorted_desc_perm l). assumption.
Qed.

Lemma line_candidates_plausible (ctx : list number) (ln : str)
    (ms : list rematch) (cs : list (float * str)) :
  Nlp.line_candidates ctx ln ms = Ret cs ->
  Forall (fun c => plausible (fst c) = true) cs.
Proof.
  revert cs. induction ms as [| m ms IH]; simpl; intros cs H.
  - injection H as <-. constructor.
  - destruct (Nlp._clean_and_convert_token (group m 1) (Some ctx))
      as [val | e]; simpl in H; [| discriminate].
    destruct (Nlp.line_candidates ctx ln ms) as [cs' | e]; simpl in H;
      [| discriminate].
    specialize (IH cs' eq_refl).
    destruct val as [val |]; [| injection H as <-; assumption].
    destruct (fltb f0 val && fltb val f1e7) eqn:E; injection H as <-;
      [| assumption].
    constructor; assumption.
Qed.

Lemma phase2_candidates_plausible (ctx : list number) (lns : list str)
    (cs : list (float * str)) :
  Nlp.phase2_candidates ctx lns = Ret cs ->
  Forall (fun c => plausible (fst c) = true) cs.
Proof.
  revert cs. induction lns as [| ln lns IH]; simpl; intros cs H.
  - injection H as <-. constructor.
  - destruct (Nlp._is_metadata_line ln); [auto |].
    destruct (Nlp.line_candidates ctx ln (finditer Nlp._AMT_RE ln))
      as [c1 | e] eqn:E1; simpl in H; [| discriminate].
    destruct (Nlp.phase2_candidates ctx lns) as [c2 | e]; simpl in H;
      [| discriminate].
    injection H as <-. apply Forall_app. split.
    + eapply line_candidates_plausible. eassumption.
    + auto.
Qed.

(** The two largest candidates, as the sort exposes them. *)
Lemma sorted_desc_top_two (l : list (float * str)) :
  Forall (fun c => plausible (fst c) = true) l ->
  (2 <= length l)%nat ->
  exists c1 c2 cs,
    Nlp.sorted_desc l = c1 :: c2 :: cs
    /\ Permutation l (c1 :: c2 :: cs)
    /\ Forall (fun c => fleb (fst c) (fst c1) = true) (c2 :: cs)
    /\ Forall (fun c => fleb (fst c) (fst c2) = true) cs.
Proof.
  intros Hp Hlen.
  assert (Forall cand_ok l) as Hok.
  { eapply List.Forall_impl; [| exact Hp]. intros c. apply plausible_posfin. }
  pose proof (sorted_desc_perm l) as Hperm.
  pose proof (sorted_desc_sorted l Hok) as Hs.
  pose proof (Permutation_length Hperm) as Hl.
  destruct (Nlp.sorted_desc l) as [| c1 [| c2 cs]]; simpl in Hl;
    try (exfalso; lia).
  exists c1, c2, cs. split; [reflexivity |].
  split; [symmetry; assumption |].
  inversion Hs as [| ? ? Hs' Hb]; subst.
  inversion Hs' as [| ? ? _ Hn]; subst.
  split; assumption.
Qed.

(** ** The choice among the candidates *)

Lemma pick_total_two (cands : list (float * str)) :
  Forall (fun c => plausible (fst c) = true) cands ->
  (2 <= length cands)%nat ->
  exists c1 c2 others,
    Permutation cands (c1 :: c2 :: others)
    /\ Forall (fun c => fleb (fst c) (fst c1) = true) (c2 :: others)
    /\ Forall (fun c => fleb (fst c) (fst c2) = true) others
    /\ Nlp.pick_total cands
       = Some (py_round (if fltb f50 (fdiv (fst c1) (fst c2))
                         then fst c2 else fst c1) 2).
Proof.
  intros Hp Hlen.
  destruct (sorted_desc_top_two cands Hp Hlen)
    as (c1 & c2 & others & Hsort & Hperm & H1 & H2).
  exists c1, c2, others. repeat (split; [assumption |]).
  unfold Nlp.pick_total. rewrite Hsort.
  destruct cands as [| c cands]; [simpl in Hlen; lia |]. simpl is_empty.
  cbv iota.
  assert (plausible (fst c2) = true) as Hc2.
  { rewrite List.Forall_forall in Hp. apply Hp.
    eapply Permutation_in; [symmetry; exact Hperm |]. right. left.
    reflexivity. }
  unfold plausible in Hc2. apply andb_prop in Hc2 as [Hpos _].
  destruct c1 as [v1 l1], c2 as [v2 l2]. simpl in *. rewrite Hpos. simpl.
  destruct (fltb f50 (fdiv v1 v2)); reflexivity.
Qed.

Lemma pick_total_in (cands : list (float * str)) (r : float) :
  Nlp.pick_total cands = Some r ->
  exists c, In c cands /\ r = py_round (fst c) 2.
Proof.
  unfold Nlp.pick_total. destruct (is_empty cands); [discriminate |].
  pose proof (sorted_desc_perm cands) as Hperm.
  destruct (Nlp.sorted_desc cands) as [| [v1 l1] [| [v2 l2] others]].
  - discriminate.
  - intros [= <-]. exists (v1, l1). split; [| reflexivity].
    eapply Permutation_in; [exact Hperm |]. left. reflexivity.
  - destruct (fltb f0 v2 && fltb f50 (fdiv v1 v2)); intros [= <-].
    + exists (v2, l2). split; [| reflexivity].
      eapply Permutation_in; [exact Hperm |]. right. left. reflexivity.
    + exists (v1, l1). split; [| reflexivity].
      eapply Permutation_in; [exact Hperm |]. left. reflexivity.
Qed.

Lemma find_total_amount_phase2 (raw_text : str) (cands : list (float * str)) :
  is_empty raw_text = false ->
  Nlp.phase1 (Nlp.context_numbers_of (stripped_lines raw_text))
    (rev (last_n 12 (stripped_lines raw_text))) = Ret None ->
  Nlp.phase2_candidates (Nlp.context_numbers_of (stripped_lines raw_text))
    (rev (last_n 20 (stripped_lines raw_text))) = Ret cands ->
  Nlp.find_total_amount (Some raw_text) = Ret (Nlp.pick_total cands).
Proof.
  intros He H1 H2. unfold Nlp.find_total_amount.
  rewrite He. cbv zeta. rewrite H1. simpl. rewrite H2. reflexivity.
Qed.

(** ** Where a returned total comes from *)

Lemma phase1_line_value (ctx : list number) (ln : str) (r : float) :
  Nlp.phase1_line ctx ln = Ret (Some r) ->
  exists tok v,
    Nlp._clean_and_convert_token tok (Some ctx) = Ret (Some v)
    /\ fltb f0 v = true /\ r = py_round v 2.
Proof.
  unfold Nlp.phase1_line.
  destruct (Nlp._is_metadata_line ln && negb (contains "total" (lower ln)));
    [discriminate |].
  destruct (search Nlp.total_kw_re ln) as [m |]; [| discriminate].
  destruct (Nlp._clean_and_convert_token (group m 2) (Some ctx))
    as [[v |] | e] eqn:E; simpl; try discriminate.
  destruct (fltb f0 v) eqn:Hv; [| discriminate].
  intros [= <-]. exists (group m 2), v. auto.
Qed.

Lemma phase1_found (ctx : list number) (lns : list str) (r : float) :
  Nlp.phase1 ctx lns = Ret (Some r) ->
  exists ln, In ln lns /\ Nlp.phase1_line ctx ln = Ret (Some r).
Proof.
  induction lns as [| ln lns IH]; simpl; [discriminate |].
  destruct (Nlp.phase1_line ctx ln) as [[t |] | e] eqn:E; simpl;
    try discriminate.
  - intros [= <-]. exists ln. auto.
  - intros H. destruct (IH H) as (ln' & Hin & Hln'). exists ln'. auto.
Qed.

Lemma line_candidates_value (ctx : list number) (ln : str)
    (ms : list rematch) (cs : list (float * str)) (c : float * str) :
  Nlp.line_candidates ctx ln ms = Ret cs -> In c cs ->
  exists tok,
    Nlp._clean_and_convert_token tok (Some ctx) = Ret (Some (fst c)).
Proof.
  revert cs. induction ms as [| m ms IH]; simpl; intros cs H Hin.
  - injection H as <-. destruct Hin.
  - destruct (Nlp._clean_and_convert_token (group m 1) (Some ctx))
      as [val | e] eqn:E; simpl in H; [| discriminate].
    destruct (Nlp.line_candidates ctx ln ms) as [cs' | e]; simpl in H;
      [| discriminate].
    specialize (IH cs' eq_refl).
    destruct val as [val |]; [| injection H as <-; auto].
    destruct (fltb f0 val && fltb val f1e7); injection H as <-; [| auto].
    destruct Hin as [<- | Hin]; [| auto]. exists (group m 1). assumption.
Qed.

Lemma phase2_candidates_value (ctx : list number) (lns : list str)
    (cs : list (float * str)) (c : float * str) :
  Nlp.phase2_candidates ctx lns = Ret cs -> In c cs ->
  exists tok,
    Nlp._clean_and_convert_token tok (Some ctx) = Ret (Some (fst c)).
Proof.
  revert cs. induction lns as [| ln lns IH]; simpl; intros cs H Hin.
  - injection H as <-. destruct Hin.
  - destruct (Nlp._is_metadata_line ln); [eauto |].
    destruct (Nlp.line_candidates ctx ln (finditer Nlp._AMT_RE ln))
      as [c1 | e] eqn:E1; simpl in H; [| discriminate].
    destruct (Nlp.phase2_candidates ctx lns) as [c2 | e]; simpl in H;
      [| discriminate].
    injection H as <-. apply in_app_or in Hin as [Hin | Hin].
    + eapply line_candidates_value; eassumption.
    + eauto.
Qed.

(** ** Where an item comes from *)

Lemma line_item_value (ctx : list number) (ln : str) (it : Item) :
  Ocr.line_item ctx ln = Ret (Some it) ->
  exists tok c v,
    Ocr._normalize_number_token tok c = Ret (Some v)
    /\ price it = py_round v 2
    /\ fltb f0 v = true /\ fleb v f1e6 = true /\ fltb v f1e7 = true.
Proof.
  unfold Ocr.line_item. destruct (Ocr._is_metadata_line ln); [discriminate |].
  match goal with |- context [match ?c with Some _ => _ | None => _ end] =>
    destruct c as [chosen |] end; [| discriminate].
  destruct (is_empty chosen); [discriminate |].
  match goal with |- context [Ocr._normalize_number_token ?t ?c] =>
    destruct (Ocr._normalize_number_token t c) as [[v |] | e] eqn:E;
    simpl; try discriminate;
    destruct (fleb v f0 || fltb f1e6 v) eqn:G; [discriminate |];
    intros [= <-]; exists t, c, v end.
  apply orb_false_elim in G as [G0 G6]. simpl.
  pose proof (above_zero v (normalize_not_nan _ _ _ E) G0) as Hpos.
  destruct (up_to_million v Hpos G6). auto.
Qed.

Lemma items_of_from_line (ctx : list number) (lns : list str)
    (items : list Item) (it : Item) :
  Ocr.items_of ctx lns = Ret items -> In it items ->
  exists ln, In ln lns /\ Ocr.line_item ctx ln = Ret (Some it).
Proof.
  revert items. induction lns as [| ln lns IH]; simpl; intros items H Hin.
  - injection H as <-. destruct Hin.
  - destruct (Ocr.line_item ctx ln) as [o | e] eqn:E; simpl in H;
      [| discriminate].
    destruct (Ocr.items_of ctx lns) as [its | e]; simpl in H;
      [| discriminate].
    injection H as <-. specialize (IH its eq_refl).
    destruct o as [it' |].
    + destruct Hin as [<- | Hin]; [exists ln; auto |].
      destruct (IH Hin) as (ln' & ? & ?). exists ln'. auto.
    + destruct (IH Hin) as (ln' & ? & ?). exists ln'. auto.
Qed.

(** C1, as stated, fails: the text "Total: 99999999.00" is resolved by
    phase 1, which only asks for a value above 0, to 99999999.0. *)
Lemma C1_total_above_ten_million :
  ~ (forall raw_text r,
       Nlp.find_total_amount raw_text = Ret (Some r) ->
       fltb f0 r = true /\ fltb r f1e7 = true).
Proof.
  intros H.
  assert (Nlp.find_total_amount (Some (S_ "Total: 99999999.00"))
          = Ret (Some (dec 9999999900 2))) as E by (vm_compute; reflexivity).
  destruct (H _ _ E) as [_ H7]. vm_compute in H7. discriminate.
Qed.

(** C1, amended.  Every value returned by [find_total_amount] is the
    rounding to two decimals of a normalized token value [v] with [0 < v];
    when phase 1 returned nothing (the value comes from phase 2) also
    [v < 10000000].  Every item price emitted by
    [extract_lines_with_prices] is the rounding to two decimals of a
    normalized token value [v] with [0 < v <= 1000000], hence
    [v < 10000000]. *)
Theorem C1_values_before_rounding (raw_text : str) :
  (forall r, Nlp.find_total_amount (Some raw_text) = Ret (Some r) ->
     exists tok v,
       Nlp._clean_and_convert_token tok
         (Some (Nlp.context_numbers_of (stripped_lines raw_text)))
       = Ret (Some v)
       /\ r = py_round v 2
       /\ fltb f0 v = true
       /\ (Nlp.phase1 (Nlp.context_numbers_of (stripped_lines raw_text))
             (rev (last_n 12 (stripped_lines raw_text))) = Ret None ->
           fltb v f1e7 = true))
  /\ (forall items it,
        Ocr.extract_lines_with_prices (Some raw_text) = Ret items ->
        In it items ->
        exists tok ctx v,
          Ocr._normalize_number_token tok ctx = Ret (Some v)
          /\ price it = py_round v 2
          /\ fltb f0 v = true /\ fleb v f1e6 = true /\ fltb v f1e7 = true).
Proof.
  split.
  - intros r. unfold Nlp.find_total_amount.
    destruct (is_empty raw_text); [discriminate |]. cbv zeta.
    set (lines := stripped_lines raw_text).
    set (ctx := Nlp.context_numbers_of lines).
    destruct (Nlp.phase1 ctx (rev (last_n 12 lines))) as [[t |] | e] eqn:E1;
      simpl; try discriminate.
    + intros [= <-].
      destruct (phase1_found _ _ _ E1) as (ln & _ & Hln).
      destruct (phase1_line_value _ _ _ Hln) as (tok & v & Hv & Hpos & ->).
      exists tok, v. repeat (split; [assumption || reflexivity |]).
      discriminate.
    + destruct (Nlp.phase2_candidates ctx (rev (last_n 20 lines)))
        as [cands | e] eqn:E2; simpl; [| discriminate].
      intros [= Hpick].
      destruct (pick_total_in _ _ Hpick) as (c & Hin & ->).
      destruct (phase2_candidates_value _ _ _ _ E2 Hin) as (tok & Htok).
      pose proof (phase2_candidates_plausible _ _ _ E2) as Hp.
      rewrite List.Forall_forall in Hp. specialize (Hp c Hin).
      unfold plausible in Hp. apply andb_prop in Hp as [Hpos Hlt].
      exists tok, (fst c). auto.
  - intros items it. unfold Ocr.extract_lines_with_prices.
    destruct (is_empty raw_text); [intros [= <-] [] |]. cbv zeta.
    intros H Hin.
    destruct (items_of_from_line _ _ _ _ H Hin) as (ln & _ & Hln).
    apply (line_item_value _ _ _ Hln).
Qed.

Lemma C1_values_before_rounding_witness :
  exists tok v,
    Nlp._clean_and_convert_token tok
      (Some (Nlp.context_numbers_of (stripped_lines (S_ "Lamp 12.00
Book 450.00"))))
    = Ret (Some v)
    /\ dec 4500 1 = py_round v 2
    /\ fltb f0 v = true
    /\ (Nlp.phase1 (Nlp.context_numbers_of (stripped_lines (S_ "Lamp 12.00
Book 450.00")))
          (rev (last_n 12 (stripped_lines (S_ "Lamp 12.00
Book 450.00")))) = Ret None ->
        fltb v f1e7 = true).
Proof.
  apply (proj1 (C1_values_before_rounding (S_ "Lamp 12.00
Book 450.00")) (dec 4500 1)).
  vm_compute. reflexivity.
Defined.

(** ** Phase 1 *)

Section Phase1.

Variable ctx : list number.

Lemma phase1_cons (ln : str) (lns : list str) :
  Nlp.phase1 ctx (ln :: lns)
  = (r ← Nlp.phase1_line ctx ln;
     match r with
     | Some total => Ret (Some total)
     | None => Nlp.phase1 ctx lns
     end).
Proof. reflexivity. Qed.

(** Lines that yield nothing are passed over. *)
Lemma phase1_skip (l1 l2 : list str) :
  Forall (fun ln => Nlp.phase1_line ctx ln = Ret None) l1 ->
  Nlp.phase1 ctx (l1 ++ l2) = Nlp.phase1 ctx l2.
Proof.
  induction 1 as [| ln l1 Hln _ IH]; [reflexivity |].
  rewrite <- app_comm_cons, phase1_cons, Hln. assumption.
Qed.

(** The token "459.00" has a decimal point: no context changes its value. *)
Lemma phase1_line_total_459 :
  Nlp.phase1_line ctx (S_ "Total: 459.00") = Ret (Some (dec 4590 1)).
Proof. vm_compute. reflexivity. Qed.

End Phase1.

(** C5, as stated, fails: when a later line of the window also carries a
    total, that later line wins. *)
Lemma C5_later_total_wins :
  ~ (forall raw_text,
       In (S_ "Total: 459.00") (last_n 12 (stripped_lines raw_text)) ->
       Nlp.find_total_amount (Some raw_text) = Ret (Some (dec 4590 1))).
Proof.
  intros H.
  specialize (H (S_ "Total: 459.00
Total: 500.00")).
  assert (Nlp.find_total_amount (Some (S_ "Total: 459.00
Total: 500.00")) = Ret (Some (dec 5000 1))) as E by (vm_compute; reflexivity).
  rewrite E in H. 
  assert (Ret (Some (dec 5000 1)) = Ret (Some (dec 4590 1))) as E'.
  { apply H. vm_compute. left. reflexivity. }
  vm_compute in E'. discriminate.
Qed.

(** C5, amended.  When the last 12 non-empty lines of the text include the
    line "Total: 459.00" and no line after it yields a phase-1 result
    (each is skipped, has no keyword match, or has a value that is not
    above 0), [find_total_amount] returns 459.0, whatever the lines before
    it and the rest of the text contain. *)
Theorem C5_explicit_total_first (raw_text : str) (before after : list str) :
  last_n 12 (stripped_lines raw_text)
    = before ++ [S_ "Total: 459.00"] ++ after ->
  Forall (fun ln =>
            Nlp.phase1_line
              (Nlp.context_numbers_of (stripped_lines raw_text)) ln
            = Ret None) after ->
  Nlp.find_total_amount (Some raw_text) = Ret (Some (dec 4590 1)).
Proof.
  intros Hwin Hafter. unfold Nlp.find_total_amount.
  destruct raw_text as [| c raw_text].
  { destruct before; discriminate. }
  change (is_empty (c :: raw_text)) with false. cbv iota zeta.
  rewrite Hwin.
  replace (rev (before ++ [S_ "Total: 459.00"] ++ after))
    with (rev after ++ S_ "Total: 459.00" :: rev before)
    by (rewrite !rev_app_distr, <- app_assoc; reflexivity).
  rewrite phase1_skip.
  2:{ rewrite List.Forall_forall in *. intros ln Hin. apply Hafter.
      apply in_rev. assumption. }
  rewrite phase1_cons, phase1_line_total_459. reflexivity.
Qed.

Lemma C5_explicit_total_first_witness :
  Nlp.find_total_amount (Some (S_ "Lamp 9000.00
Total: 459.00
Thanks")) = Ret (Some (dec 4590 1)).
Proof.
  apply (C5_explicit_total_first _ [S_ "Lamp 9000.00"] [S_ "Thanks"]).
  - vm_compute. reflexivity.
  - repeat constructor.
Defined.

(** ** Items *)

(** C6.  The line "Candy 0,0001" passes the range check with the price
    0.0001 and is emitted with that price rounded to two decimals, which
    is 0.0: an emitted price need not be greater than 0. *)
Theorem C6_item_with_zero_price :
  Ocr.extract_lines_with_prices (Some (S_ "Candy 0,0001"))
    = Ret [mkItem (S_ "Candy") (dec 0 0) (S_ "Candy 0,0001")]
  /\ Ocr._normalize_number_token (Some (S_ "0,0001")) None
    = Ret (Some (dec 1 4))
  /\ fltb f0 (dec 1 4) = true
  /\ py_round (dec 1 4) 2 = dec 0 0
  /\ fltb f0 (dec 0 0) = false.
Proof. repeat split; vm_compute; reflexivity. Qed.

(** ** Persons *)

Lemma str_eqb_eq (a b : str) : str_eqb a b = true <-> a = b.
Proof.
  revert b. induction a as [| x a IH]; destruct b as [| y b]; simpl;
    try (split; [discriminate | discriminate]); [tauto |].
  rewrite andb_true_iff, IH. unfold ascii_eqb. rewrite Ascii.eqb_eq.
  split; [intros [-> ->]; reflexivity | intros [= -> ->]; auto].
Qed.

Lemma str_eqb_refl (a : str) : str_eqb a a = true.
Proof. apply str_eqb_eq. reflexivity. Qed.

Lemma str_eqb_sym (a b : str) : str_eqb a b = str_eqb b a.
Proof.
  destruct (str_eqb a b) eqn:E, (str_eqb b a) eqn:E'; try reflexivity.
  - apply str_eqb_eq in E. subst. rewrite str_eqb_refl in E'. discriminate.
  - apply str_eqb_eq in E'. subst. rewrite str_eqb_refl in E. discriminate.
Qed.

Lemma filter_unseen_cons (x : str) (seen t : list str) :
  List.filter (unseen (x :: seen)) t
  = List.filter (unseen seen)
      (List.filter (fun y => negb (str_eqb x y)) t).
Proof.
  induction t as [| y t IH]; [reflexivity |].
  cbn [List.filter]. unfold unseen at 1. cbn [existsb].
  rewrite (str_eqb_sym y x). destruct (str_eqb x y); cbn [negb orb].
  - exact IH.
  - cbn [List.filter]. fold (unseen seen y).
    destruct (unseen seen y); rewrite IH; reflexivity.
Qed.

Lemma filter_unseen_member (x : str) (seen t : list str) :
  existsb (str_eqb x) seen = true ->
  List.filter (unseen seen)
    (List.filter (fun y => negb (str_eqb x y)) t)
  = List.filter (unseen seen) t.
Proof.
  intros Hx. induction t as [| y t IH]; [reflexivity |].
  cbn [List.filter]. destruct (str_eqb x y) eqn:E; cbn [negb].
  - apply str_eqb_eq in E. subst y.
    assert (unseen seen x = false) as ->
      by (unfold unseen; rewrite Hx; reflexivity).
    exact IH.
  - cbn [List.filter]. destruct (unseen seen y); rewrite IH; reflexivity.
Qed.

Lemma fromkeys_filter (seen l : list str) :
  Nlp.fromkeys seen l = List.filter (unseen seen) (first_seen l).
Proof.
  revert seen. induction l as [| x l IH]; intros seen; [reflexivity |].
  cbn [Nlp.fromkeys first_seen List.filter]. unfold unseen at 1.
  destruct (existsb (str_eqb x) seen) eqn:Ex; cbn [negb].
  - rewrite IH. symmetry. apply filter_unseen_member. assumption.
  - f_equal. rewrite IH. apply filter_unseen_cons.
Qed.

Lemma fromkeys_first_seen (l : list str) : Nlp.fromkeys [] l = first_seen l.
Proof.
  rewrite fromkeys_filter.
  induction (first_seen l) as [| y t IH]; [reflexivity |].
  cbn [List.filter]. unfold unseen at 1. cbn [existsb negb].
  rewrite IH. reflexivity.
Qed.

Lemma first_seen_In (l : list str) (x : str) :
  In x (first_seen l) <-> In x l.
Proof.
  induction l as [| y l IH]; [reflexivity |].
  cbn [first_seen In]. rewrite filter_In, IH.
  destruct (str_eqb y x) eqn:E.
  - apply str_eqb_eq in E. subst. tauto.
  - assert (y <> x) by (intros ->; rewrite str_eqb_refl in E; discriminate).
    cbn [negb]. tauto.
Qed.

Lemma first_seen_NoDup (l : list str) : List.NoDup (first_seen l).
Proof.
  induction l as [| y l IH]; [constructor |].
  cbn [first_seen]. constructor.
  - intros H. apply filter_In in H as [_ H].
    rewrite str_eqb_refl in H. discriminate.
  - apply List.NoDup_filter. assumption.
Qed.

Lemma strip_nil : strip [] = [].
Proof. reflexivity. Qed.

Lemma name_assigned_iff (lower_text line name : str) :
  Nlp.name_assigned lower_text line name = true
  <-> (2 <= length (strip name))%nat
      /\ (matches (Nlp.word_re (lower name)) line = true
          \/ exists idx : nat,
               find line lower_text = Some idx
               /\ matches (Nlp.word_re (lower name))
                    (slice (Nat.max 0 (idx - 80)) (idx + 80 + length line)
                           lower_text) = true).
Proof.
  unfold Nlp.name_assigned, len.
  destruct name as [| c name].
  { split; [discriminate |]. intros [H _]. rewrite strip_nil in H.
    simpl in H. lia. }
  change (is_empty (c :: name)) with false. rewrite orb_false_l.
  destruct (Z.ltb_spec (Z.of_nat (length (strip (c :: name)))) 2) as [L | L].
  { split; [discriminate | lia]. }
  destruct (matches (Nlp.word_re (lower (c :: name))) line).
  { split; [intros _; split; [lia | left; reflexivity] | reflexivity]. }
  destruct (find line lower_text) as [idx |].
  - split.
    + intros H. split; [lia |]. right. exists idx. auto.
    + intros [_ [H | (idx' & [= <-] & H)]]; [discriminate | assumption].
  - split; [discriminate |].
    intros [_ [H | (idx' & H & _)]]; discriminate.
Qed.

Lemma assign_from_lookup (persons : list str) (lower_text : str)
    (items : list Item) (i j : nat) (m : gmap nat (list str)) :
  Nlp.assign_from i persons lower_text items m !! j
  = if (j <? i)%nat then m !! j
    else match items !! (j - i)%nat with
         | Some it =>
             let assigned :=
               List.filter
                 (Nlp.name_assigned lower_text (lower (raw_line it)))
                 persons in
             if is_empty assigned then m !! j
             else Some (Nlp.fromkeys [] assigned)
         | None => m !! j
         end.
Proof.
  revert i m. induction items as [| it items IH]; intros i m; simpl.
  - destruct (j <? i)%nat; reflexivity.
  - rewrite IH. clear IH.
    destruct (Nat.ltb_spec j (Datatypes.S i)) as [L | L].
    + destruct (Nat.ltb_spec j i) as [L' | L'].
      * destruct (is_empty (List.filter _ persons)); [reflexivity |].
        apply lookup_insert_ne. lia.
      * assert (j = i) as -> by lia. rewrite Nat.sub_diag. simpl.
        destruct (is_empty (List.filter _ persons)); [reflexivity |].
        apply lookup_insert_eq.
    + destruct (Nat.ltb_spec j i) as [L' | L']; [lia |].
      replace (j - i)%nat with (Datatypes.S (j - Datatypes.S i)) by lia.
      simpl.
      destruct (is_empty (List.filter
                  (Nlp.name_assigned lower_text (lower (raw_line it)))
                  persons)); [reflexivity |].
      rewrite lookup_insert_ne by lia. reflexivity.
Qed.


(** ** Empty input *)

(** C8.  On a missing or empty text, [extract_lines_with_prices] returns
    the empty list, [find_total_amount] returns [None] and
    [detect_person_item_relations] returns the empty mapping; none of
    them raises. *)
Theorem C8_empty_input (nlp : option Nlp.ner) (items : list Item) :
  Ocr.extract_lines_with_prices None = Ret []
  /\ Ocr.extract_lines_with_prices (Some (S_ "")) = Ret []
  /\ Nlp.find_total_amount None = Ret None
  /\ Nlp.find_total_amount (Some (S_ "")) = Ret None
  /\ Nlp.detect_person_item_relations nlp items None = ∅
  /\ Nlp.detect_person_item_relations nlp items (Some (S_ "")) = ∅.
Proof. repeat split. Qed.

(* ===================================================================== *)
(** * Properties of the whole program                                   *)
(* ===================================================================== *)

(** ** The matcher finds only what the pattern describes *)

Lemma occurs_in_refl (t : str) : occurs_in t t.
Proof. exists [], []. rewrite app_nil_r. reflexivity. Qed.

Lemma occurs_in_app_l (t u v : str) : occurs_in t u -> occurs_in t (u ++ v).
Proof.
  intros (a & b & ->). exists a, (b ++ v). rewrite <- !app_assoc. reflexivity.
Qed.

Lemma occurs_in_app_r (t u v : str) : occurs_in t v -> occurs_in t (u ++ v).
Proof.
  intros (a & b & ->). exists (u ++ a), b. rewrite <- !app_assoc. reflexivity.
Qed.

Lemma occurs_in_trans (t u v : str) :
  occurs_in t u -> occurs_in u v -> occurs_in t v.
Proof.
  intros (a & b & ->) (c & d & ->). exists (c ++ a), (b ++ d).
  rewrite <- !app_assoc. reflexivity.
Qed.

Lemma run_of_nil (r : regex) (st : mstate) : run_of r st st [].
Proof.
  split; [reflexivity |]. split; [simpl; lia |].
  exists []. split; [reflexivity | constructor].
Qed.

Lemma run_of_seq (r1 r2 : regex) (st st1 st2 : mstate) (w1 w2 : str) :
  run_of r1 st st1 w1 -> run_of r2 st1 st2 w2 ->
  run_of (Seq r1 r2) st st2 (w1 ++ w2).
Proof.
  intros (Hr1 & Hp1 & n1 & Hc1 & Hf1) (Hr2 & Hp2 & n2 & Hc2 & Hf2).
  split; [rewrite Hr1, Hr2, app_assoc; reflexivity |].
  split; [rewrite Hp2, Hp1, length_app; lia |].
  exists (n2 ++ n1). split; [rewrite Hc2, Hc1, app_assoc; reflexivity |].
  apply Forall_app. split.
  - eapply List.Forall_impl; [| exact Hf2]. intros c [H1 H2].
    split; [right; assumption | apply occurs_in_app_r; assumption].
  - eapply List.Forall_impl; [| exact Hf1]. intros c [H1 H2].
    split; [left; assumption | apply occurs_in_app_l; assumption].
Qed.

Lemma run_of_weaken (r r' : regex) (st st' : mstate) (w : str) :
  (forall i t, captures r i t -> captures r' i t) ->
  run_of r st st' w -> run_of r' st st' w.
Proof.
  intros Hcap (Hr & Hp & n & Hc & Hf).
  split; [assumption |]. split; [assumption |].
  exists n. split; [assumption |].
  eapply List.Forall_impl; [| exact Hf]. intros c [H1 H2]. auto.
Qed.

(** The loop of a repetition, from iteration [cnt] on. *)
Lemma run_of_rep_step (r : regex) (st st1 st2 : mstate) (w1 w2 : str) :
  run_of r st st1 w1 -> run_of r st1 st2 w2 -> run_of r st st2 (w1 ++ w2).
Proof.
  intros H1 H2.
  apply (run_of_weaken (Seq r r)); [simpl; tauto |].
  apply (run_of_seq r r st st1 st2); assumption.
Qed.

Lemma rmatch_rep (r : regex) (lo : nat) (hi : option nat) (st : mstate)
    (k : mstate -> option mstate) :
  rmatch (Rep r lo hi) st k
  = rep_loop (rmatch r) lo hi k (Datatypes.S (length (rest st))) 0 st.
Proof. reflexivity. Qed.

Lemma rep_loop_sound (r : regex) (lo : nat) (hi : option nat)
    (k : mstate -> option mstate) (e : mstate) :
  (forall st k e,
     rmatch r st k = Some e ->
     exists st' w, k st' = Some e /\ lang r w /\ run_of r st st' w) ->
  forall fuel cnt st,
    within hi cnt ->
    rep_loop (rmatch r) lo hi k fuel cnt st = Some e ->
    exists st' ws,
      k st' = Some e /\ Forall (lang r) ws
      /\ (lo <= cnt + length ws)%nat /\ within hi (cnt + length ws)
      /\ run_of r st st' (concat ws).
Proof.
  intros IH.
  assert (Hstop : forall cnt st,
            within hi cnt ->
            (if (lo <=? cnt)%nat then k st else None) = Some e ->
            exists st' ws,
              k st' = Some e /\ Forall (lang r) ws
              /\ (lo <= cnt + length ws)%nat /\ within hi (cnt + length ws)
              /\ run_of r st st' (concat ws)).
  { intros cnt st Hcnt H. destruct (Nat.leb_spec lo cnt); [| discriminate].
    exists st, []. simpl. rewrite Nat.add_0_r.
    repeat (split; [assumption || constructor |]). apply run_of_nil. }
  induction fuel as [| fuel IHf]; intros cnt st Hcnt H; simpl in H.
  - apply Hstop; assumption.
  - destruct (match hi with Some h => (cnt <? h)%nat | None => true end)
      eqn:Eh; [| apply Hstop; assumption].
    match type of H with
    | match ?x with Some _ => _ | None => _ end = _ =>
        destruct x as [e1 |] eqn:E1
    end; [| apply Hstop; assumption].
    assert (e1 = e) as -> by congruence. clear H.
    apply IH in E1 as (st1 & w1 & H & L1 & R1).
    destruct (pos st <? pos st1)%nat; [| discriminate].
    apply IHf in H as (st2 & ws & H & Lws & Hlo & Hhi & R2).
    + exists st2, (w1 :: ws). simpl.
      split; [assumption |]. split; [constructor; assumption |].
      split; [lia |]. split.
      * replace (cnt + Datatypes.S (length ws))%nat
          with (Datatypes.S cnt + length ws)%nat by lia. assumption.
      * apply (run_of_rep_step r st st1 st2); assumption.
    + destruct hi as [h |]; [| exact I]. apply Nat.ltb_lt in Eh.
      simpl. lia.
Qed.

Lemma rmatch_sound (r : regex) :
  forall st k e,
    rmatch r st k = Some e ->
    exists st' w, k st' = Some e /\ lang r w /\ run_of r st st' w.
Proof.
  induction r as [p | | r1 IH1 r2 IH2 | r1 IH1 r2 IH2 | r' IH lo hi
                 | i r' IH | | |]; intros st k e H.
  - simpl in H. destruct (rest st) as [| c s'] eqn:Er; [discriminate |].
    destruct (p c) eqn:Ep; [| discriminate].
    eexists _, [c]. split; [exact H |]. split; [exists c; auto |].
    split; [assumption |]. split; [simpl; lia |].
    exists []. split; [reflexivity | constructor].
  - exists st, []. split; [assumption |]. split; [reflexivity |].
    apply run_of_nil.
  - simpl in H. apply IH1 in H as (st1 & w1 & H & L1 & R1).
    apply IH2 in H as (st2 & w2 & H & L2 & R2).
    exists st2, (w1 ++ w2). split; [assumption |].
    split; [exists w1, w2; auto |].
    apply (run_of_seq r1 r2 st st1 st2); assumption.
  - simpl in H. destruct (rmatch r1 st k) as [e1 |] eqn:E1.
    + assert (e1 = e) as -> by congruence. clear H.
      apply IH1 in E1 as (st1 & w1 & H & L1 & R1).
      exists st1, w1. split; [assumption |]. split; [left; assumption |].
      apply (run_of_weaken r1); [simpl; tauto | assumption].
    + apply IH2 in H as (st2 & w2 & H & L2 & R2).
      exists st2, w2. split; [assumption |]. split; [right; assumption |].
      apply (run_of_weaken r2); [simpl; tauto | assumption].
  - rewrite rmatch_rep in H.
    apply (rep_loop_sound r' lo hi k e IH) in H
      as (st' & ws & H & Lws & Hlo & Hhi & R).
    + exists st', (concat ws). split; [assumption |]. split.
      * exists ws. simpl in Hlo, Hhi. auto.
      * apply (run_of_weaken r'); [simpl; tauto | assumption].
    + destruct hi; simpl; [lia | exact I].
  - simpl in H.
    apply IH in H as (st1 & w & H & L & (Hr & Hp & n & Hc & Hf)).
    eexists _, w. split; [exact H |]. split; [assumption |].
    split; [assumption |]. split; [assumption |].
    exists ((i, firstn (pos st1 - pos st) (rest st)) :: n).
    split; [simpl; rewrite Hc; reflexivity |].
    assert (firstn (pos st1 - pos st) (rest st) = w) as ->.
    { rewrite Hr, Hp. replace (pos st + length w - pos st)%nat
        with (length w + 0)%nat by lia.
      rewrite firstn_app_2. simpl. apply app_nil_r. }
    constructor.
    + simpl. split; [left; auto | apply occurs_in_refl].
    + eapply List.Forall_impl; [| exact Hf]. intros c [H1 H2].
      split; [right; assumption | assumption].
  - simpl in H. destruct (pos st =? 0)%nat; [| discriminate].
    exists st, []. split; [assumption |]. split; [reflexivity |].
    apply run_of_nil.
  - simpl in H.
    exists st, []. split; [| split; [reflexivity | apply run_of_nil]].
    destruct (rest st) as [| c [| ? ?]]; try discriminate; [assumption |].
    destruct (code c =? 10)%N; [assumption | discriminate].
  - simpl in H. destruct (xorb _ _); [| discriminate].
    exists st, []. split; [assumption |]. split; [reflexivity |].
    apply run_of_nil.
Qed.

Lemma group_in_caps (m : rematch) (i : nat) (t : str) :
  group m i = Some t -> In (i, t) (caps (m_end m)).
Proof.
  unfold group. destruct (List.find _ _) as [[j u] |] eqn:E; [| discriminate].
  simpl. intros [= <-]. apply find_some in E as [Hin Hj].
  simpl in Hj. apply Nat.eqb_eq in Hj. subst. assumption.
Qed.

Lemma search_at_sound (r : regex) (s : str) :
  forall i pv m,
    search_at r i pv s = Some m ->
    exists a w,
      s = a ++ w ++ rest (m_end m)
      /\ m_start m = (i + length a)%nat
      /\ pos (m_end m) = (m_start m + length w)%nat
      /\ lang r w
      /\ forall g t, group m g = Some t -> captures r g t /\ occurs_in t w.
Proof.
  induction s as [| c s IH]; intros i pv m H; simpl in H.
  - destruct (rmatch r (MState i pv [] []) Some) as [e |] eqn:E;
      [| discriminate].
    assert (m = ReMatch i e) as -> by congruence. clear H.
    apply rmatch_sound in E as (st' & w & Hk & L & (Hr & Hp & n & Hc & Hf)).
    assert (st' = e) as -> by congruence. simpl in *.
    exists [], w. split; [assumption |]. split; [simpl; lia |].
    split; [assumption |]. split; [assumption |].
    intros g t Hg. apply group_in_caps in Hg. simpl in Hg.
    rewrite Hc, app_nil_r in Hg. rewrite List.Forall_forall in Hf.
    apply (Hf _ Hg).
  - destruct (rmatch r (MState i pv (c :: s) []) Some) as [e |] eqn:E.
    + assert (m = ReMatch i e) as -> by congruence. clear H.
      apply rmatch_sound in E as (st' & w & Hk & L & (Hr & Hp & n & Hc & Hf)).
      assert (st' = e) as -> by congruence. simpl in *.
      exists [], w. split; [assumption |]. split; [simpl; lia |].
      split; [assumption |]. split; [assumption |].
      intros g t Hg. apply group_in_caps in Hg. simpl in Hg.
      rewrite Hc, app_nil_r in Hg. rewrite List.Forall_forall in Hf.
      apply (Hf _ Hg).
    + apply IH in H as (a & w & Hs & Hst & Hp & L & Hg).
      exists (c :: a), w. split; [simpl; rewrite <- Hs; reflexivity |].
      split; [simpl; lia |]. auto.
Qed.

Lemma search_sound (r : regex) (s : str) (m : rematch) :
  search r s = Some m -> match_in r s m.
Proof.
  intros H. apply search_at_sound in H as (a & w & Hs & _ & _ & L & Hg).
  exists w. split; [exists a, (rest (m_end m)); assumption | auto].
Qed.

Lemma finditer_at_sound (r : regex) :
  forall fuel i pv s m,
    In m (finditer_at fuel r i pv s) -> match_in r s m.
Proof.
  induction fuel as [| fuel IH]; intros i pv s m Hin; simpl in Hin;
    [destruct Hin |].
  destruct (search_at r i pv s) as [m0 |] eqn:E; [| destruct Hin].
  pose proof (search_at_sound r s i pv m0 E) as (a & w & Hs & _ & _ & L & Hg).
  destruct Hin as [<- | Hin].
  - exists w. split; [exists a, (rest (m_end m0)); assumption | auto].
  - assert (match_in r (rest (m_end m0)) m) as (w' & Ho & L' & Hg').
    { destruct (m_start m0 <? pos (m_end m0))%nat; [eapply IH; eassumption |].
      destruct (rest (m_end m0)) as [| c s'] eqn:Er; [destruct Hin |].
      apply IH in Hin as (w' & Ho & L' & Hg').
      exists w'. split; [| auto].
      apply (occurs_in_app_r _ [c] s') in Ho. assumption. }
    exists w'. split; [| auto].
    rewrite Hs, app_assoc. apply occurs_in_app_r. assumption.
Qed.

Lemma finditer_sound (r : regex) (s : str) (m : rematch) :
  In m (finditer r s) -> match_in r s m.
Proof. apply finditer_at_sound. Qed.

(** ** What the numeric patterns capture *)

Lemma lang_chr_star (p : ascii -> bool) (ws : list str) :
  Forall (lang (Chr p)) ws ->
  forallb p (concat ws) = true /\ length (concat ws) = length ws.
Proof.
  induction 1 as [| w ws (c & -> & Hc) _ [IH1 IH2]]; simpl; [auto |].
  rewrite Hc, IH1, IH2. auto.
Qed.

Lemma forallb_app_true {A} (p : A -> bool) (u v : list A) :
  forallb p u = true -> forallb p v = true -> forallb p (u ++ v) = true.
Proof. intros Hu Hv. rewrite forallb_app, Hu, Hv. reflexivity. Qed.

Lemma lang_num_tok (t : str) :
  lang num_tok t ->
  amount_token t = true /\ (2 <= length t <= 22)%nat.
Proof.
  intros (u & v & -> & (c & -> & Hc) & (x & y & -> & Hx & (d & -> & Hd))).
  destruct Hx as (ws & -> & Hws & _ & Hlen).
  destruct (lang_chr_star _ _ Hws) as [Hall Hl].
  unfold digit in *. split.
  - unfold amount_token, last_is. rewrite !andb_true_iff. repeat split.
    + simpl. unfold num_char at 1. rewrite Hc. simpl.
      apply forallb_app_true; [assumption |].
      simpl. unfold num_char. rewrite Hd. reflexivity.
    + simpl. assumption.
    + simpl. rewrite rev_app_distr. simpl. assumption.
  - simpl in Hlen |- *. rewrite length_app, Hl. simpl.
    unfold str in *. lia.
Qed.

Lemma captures_lit (s : str) (i : nat) (t : str) : ~ captures (lit s) i t.
Proof. unfold lit. induction s; simpl; tauto. Qed.

Lemma captures_lit_ci (s : str) (i : nat) (t : str) :
  ~ captures (lit_ci s) i t.
Proof. unfold lit_ci. induction s; simpl; tauto. Qed.

Lemma amt_group (t : str) : captures Nlp._AMT_RE 1 t -> lang num_tok t.
Proof.
  cbn. intros H.
  repeat match goal with
         | H : _ \/ _ |- _ => destruct H
         | H : _ /\ _ |- _ => destruct H
         | H : False |- _ => destruct H
         end; assumption.
Qed.

(** ** Conversions that stay finite *)

(** ** Conversion of an integer below 2^1000 does not overflow *)

Lemma digits2_pos_gt (p : positive) : Zpos p < 2 ^ Zpos (digits2_pos p).
Proof.
  induction p as [p IH | p IH |]; simpl digits2_pos;
    rewrite ?Pos2Z.inj_succ, ?Z.pow_succ_r by lia; lia.
Qed.

Lemma digits2_pos_le (p : positive) (k : Z) :
  Zpos p < 2 ^ k -> Zpos (digits2_pos p) <= k.
Proof.
  revert k. induction p as [p IH | p IH |]; intros k H; simpl digits2_pos.
  - assert (1 <= k).
    { destruct (Z.le_gt_cases 1 k); [assumption |].
      assert (2 ^ k <= 1); [| lia].
      destruct (Z.eq_dec k 0) as [-> | ?]; [reflexivity |].
      rewrite Z.pow_neg_r by lia. lia. }
    replace k with (Z.succ (k - 1)) in H by lia.
    rewrite Z.pow_succ_r in H by lia.
    specialize (IH (k - 1)). rewrite Pos2Z.inj_succ. lia.
  - assert (1 <= k).
    { destruct (Z.le_gt_cases 1 k); [assumption |].
      assert (2 ^ k <= 1); [| lia].
      destruct (Z.eq_dec k 0) as [-> | ?]; [reflexivity |].
      rewrite Z.pow_neg_r by lia. lia. }
    replace k with (Z.succ (k - 1)) in H by lia.
    rewrite Z.pow_succ_r in H by lia.
    specialize (IH (k - 1)). rewrite Pos2Z.inj_succ. lia.
  - destruct (Z.le_gt_cases 1 k); [assumption |].
    assert (2 ^ k <= 1); [| lia].
    destruct (Z.eq_dec k 0) as [-> | ?]; [reflexivity |].
    rewrite Z.pow_neg_r by lia. lia.
Qed.

Lemma Zdigits2_nonneg (m : Z) : 0 <= Zdigits2 m.
Proof. destruct m; simpl; lia. Qed.

Lemma Zdigits2_succ (m : Z) : 0 <= m -> Zdigits2 (m + 1) <= Zdigits2 m + 1.
Proof.
  intros H. destruct m as [| p | p]; [simpl; lia | | lia].
  pose proof (digits2_pos_gt p) as Hp.
  assert (Zpos p + 1 < 2 ^ (Zpos (digits2_pos p) + 1)) as Hlt.
  { rewrite Z.pow_add_r by lia. lia. }
  destruct (Zpos p + 1) as [| q | q] eqn:E; try lia.
  simpl. apply digits2_pos_le. assumption.
Qed.

Lemma digits2_pos_iter_xO (m n : positive) :
  Zpos (digits2_pos (Pos.iter xO m n)) = Zpos (digits2_pos m) + Zpos n.
Proof.
  induction n as [| n IH] using Pos.peano_ind.
  - simpl. lia.
  - rewrite Pos.iter_succ. simpl digits2_pos.
    rewrite !Pos2Z.inj_succ, IH. lia.
Qed.

Lemma iter_pos_counted {A} (f : A -> A) (Q : Z -> A -> Prop) :
  (forall n x, 0 <= n -> Q n x -> Q (n + 1) (f x)) ->
  forall p n x, 0 <= n -> Q n x -> Q (n + Zpos p) (SpecFloat.iter_pos f p x).
Proof.
  intros Hf. induction p as [p IH | p IH |]; simpl; intros n x Hn Hx.
  - replace (n + Zpos p~1) with ((n + 1 + Zpos p) + Zpos p) by lia.
    apply IH; [lia |]. apply IH; [lia |]. apply Hf; assumption.
  - replace (n + Zpos p~0) with ((n + Zpos p) + Zpos p) by lia.
    apply IH; [lia |]. apply IH; assumption.
  - apply Hf; assumption.
Qed.

Lemma shr_1_digits (mrs : shr_record) :
  0 <= shr_m mrs ->
  0 <= shr_m (shr_1 mrs)
  /\ Zdigits2 (shr_m (shr_1 mrs)) <= Z.max 0 (Zdigits2 (shr_m mrs) - 1).
Proof.
  destruct mrs as [m r s]. simpl.
  destruct m as [| [p | p |] | [p | p |]]; simpl;
    rewrite ?Pos2Z.inj_succ; lia.
Qed.

Lemma shr_fexp_bound (m e : Z) (l : location) :
  0 <= m ->
  0 <= shr_m (fst (shr_fexp prec emax m e l))
  /\ snd (shr_fexp prec emax m e l)
     <= Z.max e (fexp prec emax (Zdigits2 m + e))
  /\ Zdigits2 (shr_m (fst (shr_fexp prec emax m e l)))
     + snd (shr_fexp prec emax m e l)
     <= Z.max (Zdigits2 m + e) (fexp prec emax (Zdigits2 m + e)).
Proof.
  intros Hm. unfold shr_fexp, shr.
  assert (shr_m (shr_record_of_loc m l) = m) as Hrec
    by (destruct l as [| []]; reflexivity).
  remember (shr_record_of_loc m l) as rec eqn:Erec. clear Erec.
  destruct (fexp prec emax (Zdigits2 m + e) - e) as [| p | p] eqn:En; simpl.
  - rewrite Hrec. lia.
  - pose proof (iter_pos_counted shr_1
        (fun n x => 0 <= shr_m x /\ Zdigits2 (shr_m x) + n
                                   <= Z.max (Zdigits2 m) n)) as Hit.
    specialize (Hit ltac:(intros n x Hn [H0 H1];
                          destruct (shr_1_digits x H0); split; lia)
                    p 0 rec ltac:(lia) ltac:(cbv beta; rewrite Hrec; lia)).
    simpl in Hit. destruct Hit as [H0 H1]. lia.
  - rewrite Hrec. lia.
Qed.

Lemma round_nearest_even_digits (m : Z) (l : location) :
  0 <= m ->
  0 <= round_nearest_even m l
  /\ Zdigits2 (round_nearest_even m l) <= Zdigits2 m + 1.
Proof.
  intros H. pose proof (Zdigits2_succ m H).
  unfold round_nearest_even.
  destruct l as [| []]; try destruct (Z.even m); split; lia.
Qed.

Lemma binary_round_aux_finite (sx : bool) (mx ex : Z) (lx : location) :
  0 <= mx -> ex <= 0 -> Zdigits2 mx + ex <= 1000 ->
  is_inf (binary_round_aux prec emax sx mx ex lx) = false.
Proof.
  intros Hm He HM. unfold binary_round_aux.
  pose proof (shr_fexp_bound mx ex lx Hm) as (H0 & H1 & H2).
  destruct (shr_fexp prec emax mx ex lx) as [mrs' e']. simpl in H0, H1, H2.
  destruct (round_nearest_even_digits (shr_m mrs') (loc_of_shr_record mrs') H0)
    as [Hr0 Hr1].
  pose proof (shr_fexp_bound _ e' loc_Exact Hr0) as (_ & H4 & _).
  destruct (shr_fexp prec emax _ e' loc_Exact) as [mrs'' e'']. simpl in H4.
  destruct (shr_m mrs''); try reflexivity.
  destruct (Z.leb_spec e'' (emax - prec)); [reflexivity |].
  unfold fexp, SpecFloat.emin, prec, emax in *. lia.
Qed.

Lemma float_of_Z_finite (z : Z) :
  0 <= z < 2 ^ 1000 -> is_inf (float_of_Z z) = false.
Proof.
  intros [H0 H1]. unfold float_of_Z, binary_normalize, binary_round.
  destruct z as [| p | p]; [reflexivity | | lia].
  pose proof (digits2_pos_le p 1000 H1) as Hd.
  unfold shl_align.
  destruct (fexp prec emax (Zpos (digits2_pos p) + 0) - 0) as [| q | q] eqn:E.
  - apply binary_round_aux_finite; simpl; lia.
  - apply binary_round_aux_finite; simpl; lia.
  - apply binary_round_aux_finite; [lia | |].
    + unfold fexp, SpecFloat.emin, prec, emax in *. lia.
    + simpl Zdigits2. rewrite digits2_pos_iter_xO.
      unfold fexp, SpecFloat.emin, prec, emax in *. lia.
Qed.

Lemma py_float_of_int_returns (z : Z) :
  0 <= z < 2 ^ 1000 -> exists f, py_float_of_int z = Ret f.
Proof.
  intros H. unfold py_float_of_int.
  pose proof (float_of_Z_finite z H) as Hf.
  destruct (float_of_Z z); try discriminate; eauto.
Qed.

(** ** Lengths *)

Lemma length_lstrip_by (p : ascii -> bool) (s : str) :
  (length (lstrip_by p s) <= length s)%nat.
Proof.
  induction s as [| c s IH]; simpl; [lia |]. destruct (p c); simpl; lia.
Qed.

Lemma length_strip_by (p : ascii -> bool) (s : str) :
  (length (strip_by p s) <= length s)%nat.
Proof.
  unfold strip_by, rstrip_by. rewrite length_rev.
  etransitivity; [apply length_lstrip_by |]. rewrite length_rev.
  apply length_lstrip_by.
Qed.

Lemma length_keep (p : ascii -> bool) (s : str) :
  (length (keep p s) <= length s)%nat.
Proof.
  unfold keep. induction s as [| c s IH]; simpl; [lia |].
  destruct (p c); simpl; lia.
Qed.

Lemma length_replace (c : ascii) (b s : str) :
  (length b <= 1)%nat -> (length (replace c b s) <= length s)%nat.
Proof.
  intros Hb. induction s as [| x s IH]; simpl; [lia |].
  fold (replace c b s). rewrite length_app.
  destruct (ascii_eqb x c); simpl; lia.
Qed.

Lemma length_nlp_resolve (s : str) :
  (length (Nlp.resolve_separators s) <= length s)%nat.
Proof.
  unfold Nlp.resolve_separators.
  repeat match goal with
         | |- context [if ?b then _ else _] => destruct b
         end;
    rewrite ?join_split;
    repeat (etransitivity; [apply length_replace; simpl; lia |]); lia.
Qed.

(** ** Digit strings *)

Lemma digits_value_bound (s : str) :
  forall acc v,
    0 <= acc -> digits_value acc s = Some v ->
    0 <= v < (acc + 1) * 10 ^ Z.of_nat (length s).
Proof.
  induction s as [| c s IH]; intros acc v Hacc H; simpl in H.
  - injection H as <-. simpl. lia.
  - destruct (isdigit c) eqn:Ec; [| discriminate].
    assert (0 <= Z.of_N (code c - 48) <= 9) as Hd.
    { unfold isdigit, in_range in Ec. apply andb_prop in Ec as [E1 E2].
      apply N.leb_le in E1, E2. lia. }
    apply IH in H; [| lia].
    replace (Z.of_nat (length (c :: s))) with (Z.succ (Z.of_nat (length s)))
      by (simpl length; lia).
    rewrite Z.pow_succ_r by lia.
    assert (0 < 10 ^ Z.of_nat (length s)) by (apply Z.pow_pos_nonneg; lia).
    nia.
Qed.

Lemma py_int_bound (s : str) (v : Z) :
  py_int s = Some v -> 0 <= v < 10 ^ Z.of_nat (length s).
Proof.
  unfold py_int. destruct s as [| c s]; [discriminate |].
  destruct (int_max_str_digits <? length (c :: s))%nat; [discriminate |].
  intros H. apply digits_value_bound in H; lia.
Qed.

Lemma py_int_digits (s : str) (v : Z) :
  s <> [] -> (length s <= int_max_str_digits)%nat ->
  digits_value 0 s = Some v -> py_int s = Some v.
Proof.
  intros Hne Hlen H. unfold py_int. destruct s as [| c s]; [congruence |].
  destruct (Nat.ltb_spec int_max_str_digits (length (c :: s)));
    [lia | assumption].
Qed.

Lemma short_int_converts (s : str) (v : Z) :
  (length s <= 300)%nat -> py_int s = Some v ->
  exists f, py_float_of_int v = Ret f.
Proof.
  intros Hlen H. apply py_int_bound in H.
  apply py_float_of_int_returns.
  assert (10 ^ Z.of_nat (length s) <= 10 ^ 300)
    by (apply Z.pow_le_mono_r; lia).
  assert (10 ^ 300 < 2 ^ 1000) by (apply Z.ltb_lt; vm_compute; reflexivity).
  lia.
Qed.

Lemma nlp_convert_returns (s : str) (ctx : option (list number)) :
  (length s <= 300)%nat -> exists r, Nlp.convert s ctx = Ret r.
Proof.
  intros Hlen. unfold Nlp.convert.
  destruct (has_char "." s); [eauto |].
  destruct (py_int s) as [v |] eqn:Ev; [| eauto].
  destruct (short_int_converts s v Hlen Ev) as [f ->]. simpl.
  repeat match goal with
         | |- context [if ?b then _ else _] => destruct b
         end; eauto.
Qed.

Lemma ocr_convert_returns (s : str) (ctx : option (list number)) :
  (length s <= 300)%nat -> exists r, Ocr.convert s ctx = Ret r.
Proof.
  intros Hlen. unfold Ocr.convert.
  destruct (is_empty s); [eauto |].
  destruct (has_char "." s); [eauto |].
  destruct (py_int s) as [v |] eqn:Ev; [| eauto].
  destruct (short_int_converts s v Hlen Ev) as [f ->]. simpl.
  repeat match goal with
         | |- context [if ?b then _ else _] => destruct b
         end; eauto.
Qed.

Lemma nlp_normalizer_returns (tok : option str) (ctx : option (list number)) :
  (forall t, tok = Some t -> (length t <= 300)%nat) ->
  exists r, Nlp._clean_and_convert_token tok ctx = Ret r.
Proof.
  intros Hlen. unfold Nlp._clean_and_convert_token.
  destruct tok as [t |]; [| eauto]. specialize (Hlen t eq_refl). cbv zeta.
  destruct (is_empty _); [eauto |].
  apply nlp_convert_returns.
  etransitivity; [apply length_nlp_resolve |].
  etransitivity; [apply length_keep |].
  etransitivity; [apply length_strip_by |]. assumption.
Qed.

Lemma ocr_normalizer_returns (tok : option str) (ctx : option (list number)) :
  (forall t, tok = Some t -> (length t <= 300)%nat) ->
  exists r, Ocr._normalize_number_token tok ctx = Ret r.
Proof.
  intros Hlen. unfold Ocr._normalize_number_token.
  destruct tok as [t |]; [| eauto]. specialize (Hlen t eq_refl).
  destruct (is_empty t || negb (matches digit t)); [eauto |]. cbv zeta.
  apply ocr_convert_returns.
  assert (length (strip_by (fun c => ascii_eqb c ".")
                    (Ocr.resolve_separators (keep Ocr.num_char_minus (strip t))))
          <= length t)%nat as H.
  { etransitivity; [apply length_strip_by |].
    rewrite <- resolve_separators_agree.
    etransitivity; [apply length_nlp_resolve |].
    etransitivity; [apply length_keep |]. apply length_strip_by. }
  destruct (negb (fullmatch Ocr.plain_number_re _)); [| lia].
  etransitivity; [apply length_keep |]. lia.
Qed.

(** X1.  On a token of at most 300 characters neither normalizer raises:
    [_clean_and_convert_token] and [_normalize_number_token] both return,
    a float or [None], whatever the context.  (The conversion
    [float(val)] of the source overflows only from 309 digits on.) *)
Theorem X1_normalizers_return_on_short_tokens (tok : str)
    (ctx : option (list number)) :
  (length tok <= 300)%nat ->
  (exists r, Nlp._clean_and_convert_token (Some tok) ctx = Ret r)
  /\ (exists r, Ocr._normalize_number_token (Some tok) ctx = Ret r).
Proof.
  intros H. split.
  - apply nlp_normalizer_returns. intros t [= <-]. assumption.
  - apply ocr_normalizer_returns. intros t [= <-]. assumption.
Qed.

Lemma X1_normalizers_return_on_short_tokens_witness :
  (exists r, Nlp._clean_and_convert_token (Some (S_ "1,234.56")) None
             = Ret r)
  /\ (exists r, Ocr._normalize_number_token (Some (S_ "1,234.56")) None
                = Ret r).
Proof.
  apply (X1_normalizers_return_on_short_tokens (S_ "1,234.56") None).
  simpl. lia.
Defined.

(** ** The entry points do not raise *)

Lemma total_kw_group (t : str) :
  captures Nlp.total_kw_re 2 t -> lang num_tok t.
Proof. intros H. split_captures H. Qed.

Lemma num_token_group (t : str) :
  captures Ocr._NUM_TOKEN_RE 2 t -> lang num_tok t.
Proof. intros H. split_captures H. Qed.

Lemma rightmost_group (t : str) :
  captures Ocr._RIGHTMOST_NUM_RE 1 t -> lang num_tok t.
Proof. intros H. split_captures H. Qed.

Lemma group_numeric (r : regex) (g : nat) (ln : str) (m : rematch) (t : str) :
  (forall t, captures r g t -> lang num_tok t) ->
  match_in r ln m -> group m g = Some t -> numeric_token_of ln t.
Proof.
  intros Hr (w & Hw & _ & Hg) Ht. destruct (Hg g t Ht) as [Hc Ho].
  destruct (lang_num_tok t (Hr t Hc)) as [Ha Hl].
  split; [assumption |]. split; [assumption |].
  eapply occurs_in_trans; eassumption.
Qed.

Lemma group_short (r : regex) (g : nat) (ln : str) (m : rematch) :
  (forall t, captures r g t -> lang num_tok t) ->
  match_in r ln m ->
  forall t, group m g = Some t -> (length t <= 300)%nat.
Proof.
  intros Hr Hm t Ht.
  destruct (group_numeric r g ln m t Hr Hm Ht) as (_ & Hl & _). lia.
Qed.

Lemma phase1_line_returns (ctx : list number) (ln : str) :
  exists r, Nlp.phase1_line ctx ln = Ret r.
Proof.
  unfold Nlp.phase1_line. destruct (_ && _); [eauto |].
  destruct (search Nlp.total_kw_re ln) as [m |] eqn:E; [| eauto].
  destruct (nlp_normalizer_returns (group m 2) (Some ctx)) as [r ->].
  { apply (group_short Nlp.total_kw_re 2 ln m total_kw_group).
    apply search_sound. assumption. }
  simpl. destruct r as [v |]; [| eauto]. destruct (fltb f0 v); eauto.
Qed.

Lemma phase1_returns (ctx : list number) (lns : list str) :
  exists r, Nlp.phase1 ctx lns = Ret r.
Proof.
  induction lns as [| ln lns [r IH]]; simpl; [eauto |].
  destruct (phase1_line_returns ctx ln) as [[t |] ->]; simpl; eauto.
Qed.

Lemma line_candidates_returns (ctx : list number) (ln : str)
    (ms : list rematch) :
  Forall (match_in Nlp._AMT_RE ln) ms ->
  exists cs, Nlp.line_candidates ctx ln ms = Ret cs.
Proof.
  induction 1 as [| m ms Hm _ [cs IH]]; simpl; [eauto |].
  destruct (nlp_normalizer_returns (group m 1) (Some ctx)) as [r ->].
  { apply (group_short Nlp._AMT_RE 1 ln m amt_group Hm). }
  simpl. rewrite IH. simpl. destruct r as [v |]; [| eauto].
  destruct (_ && _); eauto.
Qed.

Lemma phase2_candidates_returns (ctx : list number) (lns : list str) :
  exists cs, Nlp.phase2_candidates ctx lns = Ret cs.
Proof.
  induction lns as [| ln lns [cs IH]]; simpl; [eauto |].
  destruct (Nlp._is_metadata_line ln); [eauto |].
  destruct (line_candidates_returns ctx ln (finditer Nlp._AMT_RE ln))
    as [c1 ->].
  { apply List.Forall_forall. intros m. apply finditer_sound. }
  simpl. rewrite IH. simpl. eauto.
Qed.

Lemma line_item_returns (ctx : list number) (ln : str) :
  exists r, Ocr.line_item ctx ln = Ret r.
Proof.
  unfold Ocr.line_item. destruct (Ocr._is_metadata_line ln); [eauto |].
  assert (forall chosen,
            match search Ocr._RIGHTMOST_NUM_RE ln with
            | Some m_right => group m_right 1
            | None =>
                match search Ocr._NUM_TOKEN_RE ln with
                | Some m_any => group m_any 2
                | None => None
                end
            end = Some chosen -> (length chosen <= 300)%nat) as Hshort.
  { intros chosen.
    destruct (search Ocr._RIGHTMOST_NUM_RE ln) as [m |] eqn:E1.
    - apply (group_short Ocr._RIGHTMOST_NUM_RE 1 ln m rightmost_group).
      apply search_sound. assumption.
    - destruct (search Ocr._NUM_TOKEN_RE ln) as [m |] eqn:E2; [| discriminate].
      apply (group_short Ocr._NUM_TOKEN_RE 2 ln m num_token_group).
      apply search_sound. assumption. }
  destruct (match search Ocr._RIGHTMOST_NUM_RE ln with
            | Some _ => _ | None => _ end) as [chosen |]; [| eauto].
  destruct (is_empty chosen); [eauto |].
  match goal with
  | |- context [Ocr._normalize_number_token ?t ?c] =>
      destruct (ocr_normalizer_returns t c) as [r ->]
  end.
  { intros t [= <-]. apply Hshort. reflexivity. }
  simpl. destruct r as [v |]; [| eauto]. destruct (_ || _); eauto.
Qed.

Lemma items_of_returns (ctx : list number) (lns : list str) :
  exists items, Ocr.items_of ctx lns = Ret items.
Proof.
  induction lns as [| ln lns [its IH]]; simpl; [eauto |].
  destruct (line_item_returns ctx ln) as [r ->]. simpl.
  rewrite IH. simpl. eauto.
Qed.

(** X2.  The two entry points never raise: for every text (or a missing
    one) [find_total_amount] returns a float or [None] and
    [extract_lines_with_prices] returns a list of items.  Every token they
    hand to a normalizer was captured by one of the numeric patterns, so it
    has at most 22 characters and [float(val)] cannot overflow. *)
Theorem X2_entry_points_return (raw_text : option str) :
  (exists r, Nlp.find_total_amount raw_text = Ret r)
  /\ (exists items, Ocr.extract_lines_with_prices raw_text = Ret items).
Proof.
  split.
  - unfold Nlp.find_total_amount. destruct raw_text as [t |]; [| eauto].
    destruct (is_empty t); [eauto |]. cbv zeta.
    destruct (phase1_returns (Nlp.context_numbers_of (stripped_lines t))
                (rev (last_n 12 (stripped_lines t)))) as [r ->].
    simpl. destruct r; [eauto |].
    destruct (phase2_candidates_returns
                (Nlp.context_numbers_of (stripped_lines t))
                (rev (last_n 20 (stripped_lines t)))) as [cs ->].
    simpl. eauto.
  - unfold Ocr.extract_lines_with_prices. destruct raw_text as [t |]; [| eauto].
    destruct (is_empty t); [eauto |]. apply items_of_returns.
Qed.

(** ** No operation of the normalizers produces a negative float *)

Lemma binary_round_aux_nonneg (mx ex : Z) (lx : location) :
  0 <= mx -> nonneg (binary_round_aux prec emax false mx ex lx) = true.
Proof.
  intros H. unfold binary_round_aux.
  pose proof (shr_fexp_nonneg mx ex lx H) as H1.
  destruct (shr_fexp prec emax mx ex lx) as [mrs' e']. simpl in H1.
  pose proof (shr_fexp_nonneg
                (round_nearest_even (shr_m mrs') (loc_of_shr_record mrs'))
                e' loc_Exact
                (round_nearest_even_nonneg _ _ H1)) as H2.
  destruct (shr_fexp prec emax _ e' loc_Exact) as [mrs'' e'']. simpl in H2.
  destruct (shr_m mrs'') as [| p | p]; [reflexivity | | lia].
  destruct (e'' <=? emax - prec); reflexivity.
Qed.

Lemma SFdiv_nonneg (mx my : positive) (ex ey : Z) :
  nonneg (SFdiv prec emax (S754_finite false mx ex) (S754_finite false my ey))
  = true.
Proof.
  unfold SFdiv.
  destruct (SFdiv_core_binary prec emax (Zpos mx) ex (Zpos my) ey)
    as [[mz ez] lz] eqn:E.
  apply binary_round_aux_nonneg.
  unfold SFdiv_core_binary in E.
  set (m' := match _ - _ - _ with Z0 => _ | Zpos _ => _ | Zneg _ => _ end)
    in E.
  assert (0 <= m') as Hm'.
  { subst m'. destruct (_ - _ - _); try lia. apply Z.shiftl_nonneg. lia. }
  pose proof (Z.div_eucl_eq m' (Zpos my) ltac:(lia)) as Hq.
  pose proof (Z.mod_pos_bound m' (Zpos my) ltac:(lia)) as Hr.
  unfold Z.modulo in Hr.
  destruct (Z.div_eucl m' (Zpos my)) as [q r]. injection E as <- _ _.
  nia.
Qed.

Lemma float_of_ratio_nonneg (n : Z) (d : positive) :
  nonneg (float_of_ratio n d) = true.
Proof.
  unfold float_of_ratio. destruct n; try reflexivity. apply SFdiv_nonneg.
Qed.

Lemma float_of_Z_nonneg (z : Z) : 0 <= z -> nonneg (float_of_Z z) = true.
Proof.
  intros H. unfold float_of_Z, binary_normalize, binary_round.
  destruct z as [| p | p]; [reflexivity | | lia].
  destruct (shl_align _ _ _) as [mz ez]. apply binary_round_aux_nonneg. lia.
Qed.

Lemma fdiv_f100_nonneg (f : float) :
  nonneg f = true -> nonneg (fdiv f f100) = true.
Proof.
  unfold fdiv. set (c := f100). vm_compute in c. subst c.
  destruct f as [[] | [] | | [] m e]; intros H; try discriminate;
    try reflexivity.
  apply SFdiv_nonneg.
Qed.

Lemma py_float_nonneg (s : str) (v : float) :
  py_float s = Some v -> nonneg v = true.
Proof.
  unfold py_float.
  destruct (split "." s) as [| i [| f [| ? ?]]]; try discriminate.
  - destruct i; [discriminate |].
    destruct (digits_value 0 _); [| discriminate].
    intros [= <-]. apply float_of_ratio_nonneg.
  - destruct (i ++ f); [discriminate |].
    destruct (digits_value 0 _); [| discriminate].
    intros [= <-]. apply float_of_ratio_nonneg.
Qed.

Lemma py_float_of_int_nonneg (z : Z) (f : float) :
  0 <= z -> py_float_of_int z = Ret f -> nonneg f = true.
Proof.
  unfold py_float_of_int. intros Hz. pose proof (float_of_Z_nonneg z Hz) as H.
  destruct (float_of_Z z); intros [= <-]; assumption.
Qed.

Lemma py_round_nonneg (v : float) (n : nat) :
  nonneg v = true -> nonneg (py_round v n) = true.
Proof.
  destruct v as [[] | [] | | [] m e]; intros H; try discriminate;
    try reflexivity.
  unfold py_round.
  match goal with
  | |- context [match ?x with Z0 => _ | Zpos _ => _ | Zneg _ => _ end] =>
      destruct x
  end; try reflexivity.
  apply SFdiv_nonneg.
Qed.

Lemma nonneg_above_zero (v : float) : nonneg v = true -> fleb f0 v = true.
Proof. destruct v as [[] | [] | | [] m e]; try discriminate; reflexivity. Qed.

Lemma nlp_convert_nonneg (s : str) (ctx : option (list number)) (v : float) :
  Nlp.convert s ctx = Ret (Some v) -> nonneg v = true.
Proof.
  unfold Nlp.convert. destruct (has_char "." s).
  - intros [= H]. eapply py_float_nonneg. eassumption.
  - destruct (py_int s) as [val |] eqn:Ev; [| discriminate].
    apply py_int_bound in Ev as [Hv _].
    destruct (py_float_of_int val) as [f | e] eqn:E;
      [| repeat match goal with |- context [if ?b then _ else _] =>
           destruct b end; discriminate].
    pose proof (py_float_of_int_nonneg val f Hv E) as Hf.
    repeat match goal with |- context [if ?b then _ else _] =>
      destruct b end; simpl; intros [= <-];
      auto using fdiv_f100_nonneg.
Qed.

Lemma nlp_normalizer_nonneg (tok : option str) (ctx : option (list number))
    (v : float) :
  Nlp._clean_and_convert_token tok ctx = Ret (Some v) -> nonneg v = true.
Proof.
  unfold Nlp._clean_and_convert_token. destruct tok as [tok |];
    [| discriminate].
  cbv zeta. destruct (is_empty _); [discriminate |].
  apply nlp_convert_nonneg.
Qed.

Lemma ocr_normalizer_nonneg (tok : option str) (ctx : option (list number))
    (v : float) :
  Ocr._normalize_number_token tok ctx = Ret (Some v) -> nonneg v = true.
Proof.
  unfold Ocr._normalize_number_token. destruct tok as [tok |];
    [| discriminate].
  destruct (is_empty tok || negb (matches digit tok)); [discriminate |].
  cbv zeta. rewrite <- convert_agree. apply nlp_convert_nonneg.
Qed.

(** X3.  No normalizer returns a negative number or NaN: a float returned
    by [_clean_and_convert_token] or [_normalize_number_token] is [+0.0],
    a positive finite float or [+inf], whatever the token and the context;
    a minus sign in the token is dropped, never read as a sign. *)
Theorem X3_normalized_value_not_negative (tok : option str)
    (ctx : option (list number)) (v : float) :
  Nlp._clean_and_convert_token tok ctx = Ret (Some v)
  \/ Ocr._normalize_number_token tok ctx = Ret (Some v) ->
  nonneg v = true /\ fleb f0 v = true /\ is_nan v = false.
Proof.
  intros H.
  assert (nonneg v = true) as Hv.
  { destruct H; [eapply nlp_normalizer_nonneg | eapply ocr_normalizer_nonneg];
      eassumption. }
  split; [assumption |]. split; [apply nonneg_above_zero; assumption |].
  destruct v as [[] | [] | | [] ? ?]; try discriminate; reflexivity.
Qed.

Lemma X3_normalized_value_not_negative_witness :
  nonneg (dec 5 0) = true /\ fleb f0 (dec 5 0) = true
  /\ is_nan (dec 5 0) = false.
Proof.
  apply (X3_normalized_value_not_negative (Some (S_ "-5")) None (dec 5 0)).
  right. vm_compute. reflexivity.
Defined.

Lemma rounded_nonneg (v : float) :
  nonneg v = true ->
  nonneg (py_round v 2) = true /\ fleb f0 (py_round v 2) = true.
Proof.
  intros H. pose proof (py_round_nonneg v 2 H).
  auto using nonneg_above_zero.
Qed.

(** X4.  A total is never negative: a float returned by
    [find_total_amount] is [+0.0] or greater, also after the rounding to
    two decimals (which can take a tiny positive value to [0.0]). *)
Theorem X4_total_not_negative (raw_text : option str) (r : float) :
  Nlp.find_total_amount raw_text = Ret (Some r) ->
  nonneg r = true /\ fleb f0 r = true.
Proof.
  unfold Nlp.find_total_amount.
  destruct raw_text as [t |]; [| discriminate].
  destruct (is_empty t); [discriminate |]. cbv zeta.
  set (lines := stripped_lines t).
  set (ctx := Nlp.context_numbers_of lines).
  destruct (Nlp.phase1 ctx (rev (last_n 12 lines))) as [[x |] | e] eqn:E1;
    simpl; try discriminate.
  - intros [= <-].
    destruct (phase1_found _ _ _ E1) as (ln & _ & Hln).
    destruct (phase1_line_value _ _ _ Hln) as (tok & v & Hv & _ & ->).
    apply rounded_nonneg. eapply nlp_normalizer_nonneg. eassumption.
  - destruct (Nlp.phase2_candidates ctx (rev (last_n 20 lines)))
      as [cands | e] eqn:E2; simpl; [| discriminate].
    intros [= Hpick].
    destruct (pick_total_in _ _ Hpick) as (c & Hin & ->).
    destruct (phase2_candidates_value _ _ _ _ E2 Hin) as (tok & Htok).
    apply rounded_nonneg. eapply nlp_normalizer_nonneg. eassumption.
Qed.

Lemma X4_total_not_negative_witness :
  nonneg (dec 45 1) = true /\ fleb f0 (dec 45 1) = true.
Proof.
  apply (X4_total_not_negative (Some (S_ "Total: 4.50")) (dec 45 1)).
  vm_compute. reflexivity.
Defined.

(** X5.  A price is never negative: the price of every item returned by
    [extract_lines_with_prices] is [+0.0] or greater. *)
Theorem X5_price_not_negative (raw_text : option str) (items : list Item)
    (it : Item) :
  Ocr.extract_lines_with_prices raw_text = Ret items -> In it items ->
  nonneg (price it) = true /\ fleb f0 (price it) = true.
Proof.
  unfold Ocr.extract_lines_with_prices.
  destruct raw_text as [t |]; [| intros [= <-] []].
  destruct (is_empty t); [intros [= <-] [] |]. cbv zeta.
  intros H Hin.
  destruct (items_of_from_line _ _ _ _ H Hin) as (ln & _ & Hln).
  destruct (line_item_value _ _ _ Hln) as (tok & c & v & Hv & -> & _).
  apply rounded_nonneg. eapply ocr_normalizer_nonneg. eassumption.
Qed.

Lemma X5_price_not_negative_witness :
  nonneg (price (mkItem (S_ "Tea") (dec 45 1) (S_ "Tea 4.50"))) = true
  /\ fleb f0 (price (mkItem (S_ "Tea") (dec 45 1) (S_ "Tea 4.50"))) = true.
Proof.
  apply (X5_price_not_negative (Some (S_ "Tea 4.50"))
           [mkItem (S_ "Tea") (dec 45 1) (S_ "Tea 4.50")]).
  - vm_compute. reflexivity.
  - left. reflexivity.
Defined.

(** ** Groups that always take part *)

Lemma rep_loop_binds (r : regex) (lo : nat) (hi : option nat)
    (k : mstate -> option mstate) (e : mstate) :
  (forall st k e,
     rmatch r st k = Some e ->
     exists st', k st' = Some e /\ incl (caps st) (caps st')
                 /\ forall i, binds r i = true ->
                              exists t, In (i, t) (caps st')) ->
  forall fuel cnt st,
    rep_loop (rmatch r) lo hi k fuel cnt st = Some e ->
    exists st', k st' = Some e /\ incl (caps st) (caps st')
                /\ ((cnt < lo)%nat ->
                    forall i, binds r i = true ->
                              exists t, In (i, t) (caps st')).
Proof.
  intros IH.
  assert (Hstop : forall cnt st,
            (if (lo <=? cnt)%nat then k st else None) = Some e ->
            exists st', k st' = Some e /\ incl (caps st) (caps st')
                        /\ ((cnt < lo)%nat ->
                            forall i, binds r i = true ->
                                      exists t, In (i, t) (caps st'))).
  { intros cnt st H. destruct (Nat.leb_spec lo cnt); [| discriminate].
    exists st. split; [assumption |]. split; [apply incl_refl | lia]. }
  induction fuel as [| fuel IHf]; intros cnt st H; simpl in H.
  - apply Hstop; assumption.
  - destruct (match hi with Some h => (cnt <? h)%nat | None => true end);
      [| apply Hstop; assumption].
    match type of H with
    | match ?x with Some _ => _ | None => _ end = _ =>
        destruct x as [e1 |] eqn:E1
    end; [| apply Hstop; assumption].
    assert (e1 = e) as -> by congruence. clear H.
    apply IH in E1 as (st1 & H & Hi1 & Hb1).
    destruct (pos st <? pos st1)%nat; [| discriminate].
    apply IHf in H as (st2 & H & Hi2 & _).
    exists st2. split; [assumption |].
    split; [eapply incl_tran; eassumption |].
    intros _ i Hi. destruct (Hb1 i Hi) as [t Ht]. exists t. auto.
Qed.

Lemma rmatch_binds (r : regex) :
  forall st k e,
    rmatch r st k = Some e ->
    exists st', k st' = Some e /\ incl (caps st) (caps st')
                /\ forall i, binds r i = true ->
                             exists t, In (i, t) (caps st').
Proof.
  induction r as [p | | r1 IH1 r2 IH2 | r1 IH1 r2 IH2 | r' IH lo hi
                 | j r' IH | | |]; intros st k e H.
  - simpl in H. destruct (rest st) as [| c s']; [discriminate |].
    destruct (p c); [| discriminate].
    eexists. split; [exact H |]. split; [apply incl_refl | discriminate].
  - exists st. split; [assumption |].
    split; [apply incl_refl | discriminate].
  - simpl in H. apply IH1 in H as (st1 & H & Hi1 & Hb1).
    apply IH2 in H as (st2 & H & Hi2 & Hb2).
    exists st2. split; [assumption |].
    split; [eapply incl_tran; eassumption |].
    intros i Hi. simpl in Hi. apply orb_prop in Hi as [Hi | Hi].
    + destruct (Hb1 i Hi) as [t Ht]. exists t. auto.
    + auto.
  - simpl in H. destruct (rmatch r1 st k) as [e1 |] eqn:E1.
    + assert (e1 = e) as -> by congruence. clear H.
      apply IH1 in E1 as (st1 & H & Hi1 & Hb1).
      exists st1. split; [assumption |]. split; [assumption |].
      intros i Hi. simpl in Hi. apply andb_prop in Hi as [Hi _]. auto.
    + apply IH2 in H as (st2 & H & Hi2 & Hb2).
      exists st2. split; [assumption |]. split; [assumption |].
      intros i Hi. simpl in Hi. apply andb_prop in Hi as [_ Hi]. auto.
  - rewrite rmatch_rep in H.
    apply (rep_loop_binds r' lo hi k e IH) in H as (st' & H & Hi & Hb).
    exists st'. split; [assumption |]. split; [assumption |].
    intros i Hb'. cbn [binds] in Hb'. apply andb_prop in Hb' as [Hlo Hb'].
    apply Nat.leb_le in Hlo. apply Hb; [lia | assumption].
  - simpl in H. apply IH in H as (st1 & H & Hi1 & Hb1).
    eexists. split; [exact H |]. simpl.
    split; [apply incl_tl; assumption |].
    intros i Hi. apply orb_prop in Hi as [Hi | Hi].
    + apply Nat.eqb_eq in Hi. subst. eexists. left. reflexivity.
    + destruct (Hb1 i Hi) as [t Ht]. exists t. right. assumption.
  - simpl in H. destruct (pos st =? 0)%nat; [| discriminate].
    exists st. split; [assumption |].
    split; [apply incl_refl | discriminate].
  - simpl in H. exists st.
    split; [| split; [apply incl_refl | discriminate]].
    destruct (rest st) as [| c [| ? ?]]; try discriminate; [assumption |].
    destruct (code c =? 10)%N; [assumption | discriminate].
  - simpl in H. destruct (xorb _ _); [| discriminate].
    exists st. split; [assumption |].
    split; [apply incl_refl | discriminate].
Qed.

Lemma group_of_caps (m : rematch) (i : nat) (t : str) :
  In (i, t) (caps (m_end m)) -> exists t', group m i = Some t'.
Proof.
  intros Hin. unfold group.
  destruct (List.find _ _) as [[j u] |] eqn:E; [simpl; eauto |].
  apply (find_none _ _ E) in Hin. simpl in Hin.
  rewrite Nat.eqb_refl in Hin. discriminate.
Qed.

Lemma search_at_binds (r : regex) (g : nat) (s : str) :
  binds r g = true ->
  forall i pv m,
    search_at r i pv s = Some m -> exists t, group m g = Some t.
Proof.
  intros Hb. induction s as [| c s IH]; intros i pv m H; simpl in H.
  - destruct (rmatch r (MState i pv [] []) Some) as [e |] eqn:E;
      [| discriminate].
    assert (m = ReMatch i e) as -> by congruence.
    apply rmatch_binds in E as (st' & Hk & _ & Hg).
    assert (st' = e) as -> by congruence.
    destruct (Hg g Hb) as [t Ht]. apply (group_of_caps _ _ t). assumption.
  - destruct (rmatch r (MState i pv (c :: s) []) Some) as [e |] eqn:E.
    + assert (m = ReMatch i e) as -> by congruence.
      apply rmatch_binds in E as (st' & Hk & _ & Hg).
      assert (st' = e) as -> by congruence.
      destruct (Hg g Hb) as [t Ht]. apply (group_of_caps _ _ t). assumption.
    + eapply IH; eassumption.
Qed.

Lemma finditer_at_binds (r : regex) (g : nat) :
  binds r g = true ->
  forall fuel i pv s m,
    In m (finditer_at fuel r i pv s) -> exists t, group m g = Some t.
Proof.
  intros Hb. induction fuel as [| fuel IH]; intros i pv s m Hin;
    simpl in Hin; [destruct Hin |].
  destruct (search_at r i pv s) as [m0 |] eqn:E; [| destruct Hin].
  destruct Hin as [<- | Hin].
  - eapply search_at_binds; eassumption.
  - destruct (m_start m0 <? pos (m_end m0))%nat; [eapply IH; eassumption |].
    destruct (rest (m_end m0)) as [| c s']; [destruct Hin |].
    eapply IH; eassumption.
Qed.

(** What one of the four numeric groups holds after a successful match. *)
Lemma found_numeric (r : regex) (g : nat) (ln : str) (m : rematch) :
  In (r, g) token_patterns ->
  search r ln = Some m \/ In m (finditer r ln) ->
  exists t, group m g = Some t /\ numeric_token_of ln t.
Proof.
  intros Hp Hm.
  assert (binds r g = true /\ forall t, captures r g t -> lang num_tok t)
    as [Hb Hc].
  { simpl in Hp.
    destruct Hp as [[= <- <-] | [[= <- <-] | [[= <- <-] | [[= <- <-] | []]]]];
      (split; [reflexivity |]).
    - apply amt_group.
    - apply total_kw_group.
    - apply num_token_group.
    - apply rightmost_group. }
  assert (match_in r ln m) as Hin.
  { destruct Hm; [apply search_sound | apply finditer_sound]; assumption. }
  assert (exists t, group m g = Some t) as [t Ht].
  { destruct Hm as [Hm | Hm].
    - eapply search_at_binds; eassumption.
    - eapply finditer_at_binds; eassumption. }
  exists t. split; [assumption |]. eapply group_numeric; eassumption.
Qed.

(** ** Substrings *)

Lemma starts_with_iff (p s : str) :
  starts_with p s = true <-> exists b, s = p ++ b.
Proof.
  revert s. induction p as [| a p IH]; intros s; simpl.
  - split; [eauto | reflexivity].
  - destruct s as [| b s]; [split; [discriminate | intros [? [=]]] |].
    rewrite andb_true_iff, ascii_eqb_eq, IH. split.
    + intros [-> [t ->]]. eauto.
    + intros [t [= -> ->]]. eauto.
Qed.

Lemma find_from_occurs (sub s : str) (i : nat) :
  is_Some (find_from i sub s) <-> occurs_in sub s.
Proof.
  revert i. induction s as [| c s IH]; intros i; simpl.
  - destruct (starts_with sub []) eqn:E.
    + split; [| eauto]. intros _. apply starts_with_iff in E as [b ->].
      exists [], b. reflexivity.
    + split; [intros [? [=]] |]. intros (a & b & H).
      destruct a; simpl in H.
      * assert (starts_with sub [] = true) by (apply starts_with_iff; eauto).
        congruence.
      * discriminate.
  - destruct (starts_with sub (c :: s)) eqn:E.
    + split; [| eauto]. intros _. apply starts_with_iff in E as [b ->].
      exists [], b. reflexivity.
    + rewrite IH. split.
      * intros (a & b & ->). exists (c :: a), b. reflexivity.
      * intros (a & b & H). destruct a as [| x a]; simpl in H.
        -- assert (starts_with sub (c :: s) = true)
             by (apply starts_with_iff; eauto). congruence.
        -- injection H as -> ->. exists a, b. reflexivity.
Qed.

Lemma contains_occurs (sub s : str) :
  contains sub s = true <-> occurs_in sub s.
Proof.
  unfold contains, find. rewrite <- (find_from_occurs sub s 0).
  destruct (find_from 0 sub s); split; eauto; try discriminate.
  intros [? [=]].
Qed.

Lemma lower_app (a b : str) : lower (a ++ b) = lower a ++ lower b.
Proof. apply map_app. Qed.

Lemma occurs_in_lower (t s : str) :
  occurs_in t s -> occurs_in (lower t) (lower s).
Proof.
  intros (a & b & ->). exists (lower a), (lower b).
  rewrite !lower_app. reflexivity.
Qed.

(** ** The one-class patterns *)

Lemma search_at_chr (p : ascii -> bool) (s : str) (i : nat)
    (pv : option ascii) :
  is_Some (search_at (Chr p) i pv s) <-> existsb p s = true.
Proof.
  revert i pv. induction s as [| c s IH]; intros i pv; simpl.
  - split; [intros [? [=]] | discriminate].
  - destruct (p c); simpl; [split; eauto |]. apply IH.
Qed.

Lemma matches_chr (p : ascii -> bool) (s : str) :
  matches (Chr p) s = existsb p s.
Proof.
  unfold matches, search. pose proof (search_at_chr p s 0 None) as H.
  destruct (search_at (Chr p) 0 None s), (existsb p s); try reflexivity.
  - destruct H as [H _]. symmetry. apply H. eauto.
  - destruct H as [_ [? [=]]]. reflexivity.
Qed.

Lemma rep_loop_chr_step (p : ascii -> bool) (lo fuel cnt : nat)
    (st : mstate) :
  rep_loop (rmatch (Chr p)) lo None Some (Datatypes.S fuel) cnt st
  = match
      match rest st with
      | c :: s' =>
          if p c
          then rep_loop (rmatch (Chr p)) lo None Some fuel (Datatypes.S cnt)
                 (MState (Datatypes.S (pos st)) (Some c) s' (caps st))
          else None
      | [] => None
      end
    with
    | Some e => Some e
    | None => if (lo <=? cnt)%nat then Some st else None
    end.
Proof.
  simpl. destruct (rest st) as [| c s']; [reflexivity |].
  destruct (p c); [| reflexivity]. simpl.
  replace (pos st <? Datatypes.S (pos st))%nat with true
    by (symmetry; apply Nat.ltb_lt; lia).
  reflexivity.
Qed.

Lemma rep_loop_chr (p : ascii -> bool) (lo : nat) :
  forall fuel cnt st,
    (length (rest st) < fuel)%nat ->
    is_Some (rep_loop (rmatch (Chr p)) lo None Some fuel cnt st)
    <-> (lo <= cnt + run_len p (rest st))%nat.
Proof.
  induction fuel as [| fuel IH]; intros cnt st Hf; [lia |].
  rewrite rep_loop_chr_step.
  destruct (rest st) as [| c s'] eqn:Er.
  - simpl. destruct (Nat.leb_spec lo cnt); split; eauto; try lia.
    intros [? [=]].
  - simpl run_len. destruct (p c) eqn:Ep.
    + specialize (IH (Datatypes.S cnt)
                     (MState (Datatypes.S (pos st)) (Some c) s' (caps st))).
      simpl in Hf. cbn [rest] in IH. specialize (IH ltac:(lia)).
      destruct (rep_loop (rmatch (Chr p)) lo None Some fuel
                  (Datatypes.S cnt) _) as [e |].
      * split; [intros _ | eauto]. destruct IH as [IH _].
        specialize (IH ltac:(eauto)). lia.
      * destruct (Nat.leb_spec lo cnt).
        -- split; [lia | eauto].
        -- split; [intros [? [=]] |]. intros Hlo. destruct IH as [_ IH].
           destruct (IH ltac:(lia)) as [? [=]].
    + destruct (Nat.leb_spec lo cnt); split; eauto; try lia.
      intros [? [=]].
Qed.

Lemma run_len_prefix (p : ascii -> bool) (n : nat) (s : str) :
  (n <= run_len p s)%nat <->
  exists run b, s = run ++ b /\ length run = n /\ forallb p run = true.
Proof.
  revert n. induction s as [| c s IH]; intros n; simpl.
  - split.
    + intros H. exists [], []. assert (n = O) as -> by lia. auto.
    + intros (run & b & H & <- & _). destruct run; [simpl; lia | discriminate].
  - destruct n as [| n].
    + split; [| lia]. intros _. exists [], (c :: s). auto.
    + destruct (p c) eqn:Ep.
      * rewrite <- Nat.succ_le_mono, IH. split.
        -- intros (run & b & -> & <- & Hr). exists (c :: run), b.
           simpl. rewrite Ep, Hr. auto.
        -- intros (run & b & H & Hl & Hr).
           destruct run as [| x run]; [discriminate |].
           injection H as <- ->. simpl in Hl, Hr.
           apply andb_prop in Hr as [_ Hr]. exists run, b.
           split; [reflexivity |]. split; [lia | assumption].
      * split; [lia |]. intros (run & b & H & Hl & Hr).
        destruct run as [| x run]; [discriminate |].
        injection H as <- ->. simpl in Hr. rewrite Ep in Hr. discriminate.
Qed.

Lemma search_at_nil (r : regex) (i : nat) (pv : option ascii) :
  search_at r i pv []
  = match rmatch r (MState i pv [] []) Some with
    | Some e => Some (ReMatch i e)
    | None => None
    end.
Proof. reflexivity. Qed.

Lemma search_at_cons (r : regex) (i : nat) (pv : option ascii) (c : ascii)
    (s : str) :
  search_at r i pv (c :: s)
  = match rmatch r (MState i pv (c :: s) []) Some with
    | Some e => Some (ReMatch i e)
    | None => search_at r (Datatypes.S i) (Some c) s
    end.
Proof. reflexivity. Qed.

Lemma search_at_rep_chr (p : ascii -> bool) (lo : nat) (s : str) :
  forall i pv,
    is_Some (search_at (Rep (Chr p) lo None) i pv s) <-> has_run p lo s.
Proof.
  assert (Hhere : forall i pv s,
            is_Some (rmatch (Rep (Chr p) lo None) (MState i pv s []) Some)
            <-> (lo <= run_len p s)%nat).
  { intros i pv s0. rewrite rmatch_rep.
    rewrite (rep_loop_chr p lo); simpl; [reflexivity | lia]. }
  assert (Hrun : forall s, (lo <= run_len p s)%nat -> has_run p lo s).
  { intros s0 H. apply run_len_prefix in H as (run & b & -> & Hl & Hr).
    exists run. split; [exists [], b; reflexivity | auto]. }
  induction s as [| c s IH]; intros i pv.
  - rewrite search_at_nil.
    destruct (rmatch _ (MState i pv [] []) Some) as [e |] eqn:E.
    + split; [intros _ | eauto]. apply Hrun.
      apply (proj1 (Hhere i pv _)). rewrite E. eauto.
    + split; [intros [? [=]] |]. intros (run & (a & b & H) & Hl & Hr).
      destruct a; [| discriminate]. simpl in H.
      assert (is_Some (rmatch (Rep (Chr p) lo None) (MState i pv [] []) Some))
        as [? He]; [| congruence].
      apply (proj2 (Hhere i pv _)). apply run_len_prefix.
      exists run, b. auto.
  - rewrite search_at_cons.
    destruct (rmatch _ (MState i pv (c :: s) []) Some) as [e |] eqn:E.
    + split; [intros _ | eauto]. apply Hrun.
      apply (proj1 (Hhere i pv _)). rewrite E. eauto.
    + rewrite IH. split.
      * intros (run & Ho & Hl & Hr). exists run.
        split; [apply (occurs_in_app_r run [c] s); assumption | auto].
      * intros (run & (a & b & H) & Hl & Hr).
        destruct a as [| x a]; simpl in H.
        -- assert (is_Some (rmatch (Rep (Chr p) lo None)
                              (MState i pv (c :: s) []) Some))
             as [? He]; [| congruence].
           apply (proj2 (Hhere i pv _)). apply run_len_prefix.
      exists run, b. auto.
        -- injection H as _ ->. exists run.
           split; [exists a, b; reflexivity | auto].
Qed.

Lemma matches_rep_chr (p : ascii -> bool) (lo : nat) (s : str) :
  matches (Rep (Chr p) lo None) s = true <-> has_run p lo s.
Proof.
  unfold matches, search. rewrite <- (search_at_rep_chr p lo s 0 None).
  destruct (search_at _ 0 None s); split; eauto; try discriminate.
  intros [? [=]].
Qed.

Lemma has_run_one (p : ascii -> bool) (s : str) :
  has_run p 1 s <-> existsb p s = true.
Proof.
  rewrite existsb_exists. split.
  - intros (run & (a & b & ->) & Hl & Hr).
    destruct run as [| c [| ? ?]]; try discriminate. simpl in Hr.
    exists c. split; [| destruct (p c); auto].
    apply in_or_app. right. left. reflexivity.
  - intros (c & Hin & Hc). apply in_split in Hin as (a & b & ->).
    exists [c]. split; [exists a, b; reflexivity |].
    simpl. rewrite Hc. auto.
Qed.

(** ** The line classifiers *)

Lemma classifier_spec (keywords : list str) (line : str) :
  (if existsb (fun k => contains k (lower line)) keywords then true
   else if matches slash_re line && matches digit line then true
   else if matches long_digits_re line then true
   else false) = true
  <-> metadata_like keywords line.
Proof.
  unfold metadata_like.
  assert (existsb (fun k => contains k (lower line)) keywords = true
          <-> exists k, In k keywords /\ occurs_in k (lower line)) as H1.
  { rewrite existsb_exists. split; intros (k & Hk & H); exists k;
      (split; [assumption |]); apply contains_occurs; assumption. }
  assert (matches slash_re line && matches digit line = true
          <-> existsb is_date_sep line = true /\ existsb isdigit line = true)
    as H2.
  { rewrite andb_true_iff. unfold slash_re, digit.
    rewrite matches_rep_chr, has_run_one, matches_chr. reflexivity. }
  pose proof (matches_rep_chr isdigit 8 line) as H3.
  fold digit in H3. fold long_digits_re in H3.
  destruct (existsb _ keywords); [tauto |].
  destruct (_ && _); [tauto |].
  destruct (matches long_digits_re line); [tauto |].
  split; [discriminate |]. intros [H | [H | H]].
  - apply H1 in H. discriminate.
  - apply H2 in H. discriminate.
  - apply H3 in H. discriminate.
Qed.

Lemma nlp_metadata_spec (line : str) :
  Nlp._is_metadata_line line = true
  <-> metadata_like Nlp._METADATA_KEYWORDS line.
Proof. apply classifier_spec. Qed.

Lemma ocr_metadata_spec (line : str) :
  Ocr._is_metadata_line line = true
  <-> metadata_like Ocr._METADATA_KEYWORDS line.
Proof. apply classifier_spec. Qed.

Lemma keywords_incl :
  incl Nlp._METADATA_KEYWORDS Ocr._METADATA_KEYWORDS.
Proof.
  intros k Hk. unfold Nlp._METADATA_KEYWORDS in Hk.
  unfold Ocr._METADATA_KEYWORDS.
  repeat (destruct Hk as [<- | Hk]; [simpl; tauto |]). destruct Hk.
Qed.

Lemma nlp_metadata_ocr (line : str) :
  Nlp._is_metadata_line line = true -> Ocr._is_metadata_line line = true.
Proof.
  rewrite nlp_metadata_spec, ocr_metadata_spec.
  intros [(k & Hk & H) | H]; [left | right; assumption].
  exists k. split; [apply keywords_incl |]; assumption.
Qed.

(** X6.  The two line classifiers, in words: [_is_metadata_line] (of
    either module) holds exactly when the lower-cased line contains one of
    the module's keywords anywhere (also inside a word), or the line has a
    slash, backslash or hyphen and a digit, or it has eight digits in a
    row. *)
Theorem X6_metadata_line_characterised (line : str) :
  (Nlp._is_metadata_line line = true
   <-> metadata_like Nlp._METADATA_KEYWORDS line)
  /\ (Ocr._is_metadata_line line = true
      <-> metadata_like Ocr._METADATA_KEYWORDS line).
Proof. split; [apply nlp_metadata_spec | apply ocr_metadata_spec]. Qed.

(** X7.  A line that the total finder takes for metadata is metadata for
    the item extractor too (its keyword list holds every keyword of the
    other one); so every line that yields an item is a line the total
    finder would read in phase 2. *)
Theorem X7_nlp_metadata_is_ocr_metadata (line : str) :
  Nlp._is_metadata_line line = true -> Ocr._is_metadata_line line = true.
Proof. apply nlp_metadata_ocr. Qed.

Lemma X7_nlp_metadata_is_ocr_metadata_witness :
  Ocr._is_metadata_line (S_ "Cider 3.00") = true.
Proof.
  apply (X7_nlp_metadata_is_ocr_metadata (S_ "Cider 3.00")).
  vm_compute. reflexivity.
Defined.

(** ** Trimming *)

Lemma lstrip_by_split (p : ascii -> bool) (s : str) :
  exists a, s = a ++ lstrip_by p s /\ forallb p a = true.
Proof.
  induction s as [| c s (a & IH & Ha)]; simpl; [exists []; auto |].
  destruct (p c) eqn:E; [| exists []; auto].
  exists (c :: a). simpl. rewrite E, Ha, <- IH. auto.
Qed.

Lemma first_is_lstrip_by (p : ascii -> bool) (s : str) :
  first_is p (lstrip_by p s) = false.
Proof.
  induction s as [| c s IH]; simpl; [reflexivity |].
  destruct (p c) eqn:E; [assumption | simpl; assumption].
Qed.

Lemma strip_by_split (p : ascii -> bool) (s : str) :
  exists a b,
    s = a ++ strip_by p s ++ b /\ forallb p a = true /\ forallb p b = true.
Proof.
  unfold strip_by, rstrip_by.
  destruct (lstrip_by_split p s) as (a & Ha & Hpa).
  destruct (lstrip_by_split p (rev (lstrip_by p s))) as (b & Hb & Hpb).
  exists a, (rev b). split; [| split; [assumption |]].
  - rewrite <- rev_app_distr, <- Hb, rev_involutive. assumption.
  - rewrite forallb_forall in *. intros x Hx. apply Hpb.
    apply in_rev. assumption.
Qed.

Lemma strip_by_occurs (p : ascii -> bool) (s : str) :
  occurs_in (strip_by p s) s.
Proof. destruct (strip_by_split p s) as (a & b & H & _). exists a, b. auto. Qed.

Lemma first_is_rstrip_by (p : ascii -> bool) (s : str) :
  first_is p s = false -> first_is p (rstrip_by p s) = false.
Proof.
  unfold rstrip_by. destruct s as [| c s]; [reflexivity |]. simpl.
  intros Hc. destruct (lstrip_by_split p (rev s ++ [c])) as (a & Ha & Hpa).
  destruct (lstrip_by p (rev s ++ [c])) as [| x l] eqn:E using rev_ind.
  - rewrite app_nil_r in Ha. subst a. rewrite forallb_app in Hpa.
    simpl in Hpa. rewrite Hc, andb_false_r in Hpa. discriminate.
  - clear IHl. rewrite app_assoc in Ha. apply app_inj_tail in Ha as [_ <-].
    rewrite rev_app_distr. simpl. assumption.
Qed.

Lemma strip_trimmed (s : str) : trimmed (strip s).
Proof.
  unfold trimmed, strip, strip_by. split.
  - apply first_is_rstrip_by, first_is_lstrip_by.
  - unfold last_is, rstrip_by. rewrite rev_involutive.
    apply first_is_lstrip_by.
Qed.

Lemma trimmed_strip (s : str) : trimmed s -> strip s = s.
Proof.
  intros [Hf Hl]. destruct s as [| c s]; [reflexivity |].
  apply strip_by_id.
  - simpl in *. rewrite Hf. reflexivity.
  - unfold last_is in *. destruct (rev (c :: s)) as [| d r] eqn:E.
    + apply (f_equal (@length ascii)) in E. rewrite length_rev in E.
      discriminate.
    + simpl in *. rewrite Hl. reflexivity.
Qed.

(** ** Lines *)

Lemma splitlines_aux_spec (n : nat) :
  forall s cur l,
    (length s <= n)%nat ->
    existsb is_linebreak cur = false ->
    In l (splitlines_aux cur s) ->
    existsb is_linebreak l = false /\ occurs_in l (rev cur ++ s).
Proof.
  assert (Hrev : forall cur, existsb is_linebreak cur = false ->
                             existsb is_linebreak (rev cur) = false).
  { intros cur H. apply not_true_is_false. intros E.
    apply existsb_exists in E as (x & Hx & Ex). apply in_rev in Hx.
    assert (existsb is_linebreak cur = true)
      by (apply existsb_exists; eauto). congruence. }
  induction n as [| n IH]; intros s cur l Hn Hcur Hin.
  - destruct s; [| simpl in Hn; lia]. simpl in Hin.
    destruct cur as [| c cur]; [destruct Hin |].
    destruct Hin as [<- | []]. split; [auto |].
    rewrite app_nil_r. apply occurs_in_refl.
  - destruct s as [| c s].
    + simpl in Hin. destruct cur as [| x cur]; [destruct Hin |].
      destruct Hin as [<- | []]. split; [auto |].
      rewrite app_nil_r. apply occurs_in_refl.
    + simpl in Hin, Hn. destruct (is_linebreak c) eqn:Ec.
      * assert (In l (rev cur :: splitlines_aux [] s)
                \/ exists d s', s = d :: s'
                                /\ In l (splitlines_aux [] s')) as Hcase.
        { destruct s as [| d s']; [left; destruct Hin as [<- | []]; left;
                                   reflexivity |].
          destruct ((code c =? 13)%N && (code d =? 10)%N).
          - destruct Hin as [<- | Hin]; [left; left; reflexivity |].
            right. eauto.
          - left. assumption. }
        destruct Hcase as [[<- | Hl] | (d & s' & -> & Hl)].
        -- split; [auto |]. apply occurs_in_app_l, occurs_in_refl.
        -- apply IH in Hl as [H1 H2]; [| lia | reflexivity].
           split; [assumption |]. simpl in H2.
           apply occurs_in_app_r. apply (occurs_in_app_r l [c] s).
           assumption.
        -- apply IH in Hl as [H1 H2]; [| simpl in Hn; lia | reflexivity].
           split; [assumption |]. simpl in H2.
           apply occurs_in_app_r. apply (occurs_in_app_r l [c; d] s').
           assumption.
      * apply IH in Hin as [H1 H2]; [| lia | simpl; rewrite Ec; assumption].
        split; [assumption |]. simpl in H2. rewrite <- app_assoc in H2.
        assumption.
Qed.

Lemma splitlines_spec (s l : str) :
  In l (splitlines s) ->
  existsb is_linebreak l = false /\ occurs_in l s.
Proof.
  intros H.
  apply (splitlines_aux_spec (length s) s [] l) in H; auto.
Qed.

Lemma existsb_occurs (p : ascii -> bool) (t s : str) :
  occurs_in t s -> existsb p s = false -> existsb p t = false.
Proof.
  intros (a & b & ->) H. rewrite !existsb_app in H.
  apply orb_false_elim in H as [_ H]. apply orb_false_elim in H as [H _].
  assumption.
Qed.

Lemma stripped_lines_spec (raw_text ln : str) :
  In ln (stripped_lines raw_text) ->
  ln <> [] /\ trimmed ln /\ existsb is_linebreak ln = false
  /\ occurs_in ln raw_text.
Proof.
  unfold stripped_lines. intros H. apply filter_In in H as [H Hne].
  apply in_map_iff in H as (l & <- & Hl).
  apply splitlines_spec in Hl as [Hb Ho].
  split; [destruct (strip l); [discriminate | congruence] |].
  split; [apply strip_trimmed |].
  split.
  - eapply existsb_occurs; [apply strip_by_occurs | assumption].
  - eapply occurs_in_trans; [apply strip_by_occurs | assumption].
Qed.

(** X8.  The lines both entry points work on: every element of
    [[l.strip() for l in raw_text.splitlines() if l.strip()]] is
    non-empty, has no white space at either end (stripping it again
    changes nothing), holds no line boundary, and is a contiguous piece of
    the text. *)
Theorem X8_stripped_lines (raw_text ln : str) :
  In ln (stripped_lines raw_text) ->
  ln <> [] /\ trimmed ln /\ strip ln = ln
  /\ existsb is_linebreak ln = false /\ occurs_in ln raw_text.
Proof.
  intros H. apply stripped_lines_spec in H as (H1 & H2 & H3 & H4).
  auto using trimmed_strip.
Qed.

Lemma X8_stripped_lines_witness :
  S_ "Tea 4.50" <> [] /\ trimmed (S_ "Tea 4.50")
  /\ strip (S_ "Tea 4.50") = S_ "Tea 4.50"
  /\ existsb is_linebreak (S_ "Tea 4.50") = false
  /\ occurs_in (S_ "Tea 4.50") (S_ "  Tea 4.50

").
Proof.
  apply (X8_stripped_lines (S_ "  Tea 4.50

") (S_ "Tea 4.50")).
  vm_compute. auto.
Defined.

(** ** Where a total comes from *)

Lemma lang_lit_ci (s w : str) : lang (lit_ci s) w -> lower w = lower s.
Proof.
  revert w. unfold lit_ci.
  induction s as [| c s IH]; intros w; simpl; [intros ->; reflexivity |].
  intros (u & v & -> & (x & -> & Hx) & Hv). apply ascii_eqb_eq in Hx.
  simpl. rewrite Hx, (IH v Hv). reflexivity.
Qed.

Lemma total_kw_keyword (t : str) :
  captures Nlp.total_kw_re 1 t ->
  lower t = S_ "total" \/ occurs_in (S_ "amount") (lower t).
Proof.
  unfold Nlp.total_kw_re.
  cbn [captures lang alts fold_left star opt ws num_tok digit].
  intros [[[_ H] | H] | H].
  - destruct H as [[[H | H] | H] | H]; apply lang_lit_ci in H; rewrite H.
    + left. reflexivity.
    + right. exists [], (S_ " due"). reflexivity.
    + right. exists [], (S_ " payable"). reflexivity.
    + right. exists [], []. reflexivity.
  - exfalso.
    repeat match goal with
           | H : _ \/ _ |- _ => destruct H
           | H : captures (lit_ci _) _ _ |- _ => apply captures_lit_ci in H
           | H : False |- _ => destruct H
           end.
  - exfalso.
    repeat match goal with
           | H : _ \/ _ |- _ => destruct H
           | H : _ /\ _ |- _ => destruct H
           | H : False |- _ => destruct H
           end; discriminate.
Qed.

Lemma amount_is_metadata (ln : str) :
  occurs_in (S_ "amount") (lower ln) -> Nlp._is_metadata_line ln = true.
Proof.
  intros H. apply nlp_metadata_spec. left. exists (S_ "amount").
  split; [| assumption]. unfold Nlp._METADATA_KEYWORDS. simpl. tauto.
Qed.

(** A line that phase 1 returns from. *)
Lemma phase1_line_source (ctx : list number) (ln : str) (r : float) :
  Nlp.phase1_line ctx ln = Ret (Some r) ->
  occurs_in (S_ "total") (lower ln)
  /\ exists tok v,
       numeric_token_of ln tok
       /\ Nlp._clean_and_convert_token (Some tok) (Some ctx) = Ret (Some v)
       /\ fltb f0 v = true /\ r = py_round v 2.
Proof.
  unfold Nlp.phase1_line.
  destruct (Nlp._is_metadata_line ln) eqn:Em,
    (contains (S_ "total") (lower ln)) eqn:Et; simpl; try discriminate;
    (destruct (search Nlp.total_kw_re ln) as [m |] eqn:E; [| discriminate]);
    (destruct (found_numeric Nlp.total_kw_re 2 ln m) as (tok & Hg & Hn);
       [simpl; auto | auto |]);
    rewrite Hg;
    (destruct (Nlp._clean_and_convert_token (Some tok) (Some ctx))
       as [[v |] | e] eqn:Ev; simpl; try discriminate);
    (destruct (fltb f0 v) eqn:Ef; [| discriminate]); intros [= <-].
  1,2: split; [apply contains_occurs; assumption | eauto 10].
  exfalso.
  destruct (search_at_binds Nlp.total_kw_re 1 ln eq_refl 0 None m E)
    as [t1 H1].
  destruct (search_sound _ _ _ E) as (w & Hw & _ & Hc).
  destruct (Hc 1%nat t1 H1) as [Hcap Ho].
  assert (occurs_in (lower t1) (lower ln)) as Hlow.
  { apply occurs_in_lower. eapply occurs_in_trans; eassumption. }
  destruct (total_kw_keyword t1 Hcap) as [Ht | Ha].
  - rewrite Ht in Hlow. apply contains_occurs in Hlow. congruence.
  - assert (Nlp._is_metadata_line ln = true); [| congruence].
    apply amount_is_metadata. eapply occurs_in_trans; eassumption.
Qed.

Lemma line_candidates_source (ctx : list number) (ln : str)
    (ms : list rematch) (cs : list (float * str)) (c : float * str) :
  Nlp.line_candidates ctx ln ms = Ret cs -> In c cs ->
  exists m,
    In m ms
    /\ Nlp._clean_and_convert_token (group m 1) (Some ctx)
       = Ret (Some (fst c))
    /\ fltb f0 (fst c) = true.
Proof.
  revert cs. induction ms as [| m ms IH]; intros cs; simpl.
  - intros [= <-] [].
  - destruct (Nlp._clean_and_convert_token (group m 1) (Some ctx))
      as [val | e] eqn:Ev; simpl; [| discriminate].
    destruct (Nlp.line_candidates ctx ln ms) as [cs' | e] eqn:Ec; simpl;
      [| discriminate].
    assert (In c cs' -> exists m0,
              In m0 (m :: ms)
              /\ Nlp._clean_and_convert_token (group m0 1) (Some ctx)
                 = Ret (Some (fst c))
              /\ fltb f0 (fst c) = true) as Hrest.
    { intros Hin. destruct (IH cs' eq_refl Hin) as (m0 & H0 & H1).
      exists m0. split; [right; assumption | assumption]. }
    destruct val as [v |]; [| intros [= <-]; assumption].
    destruct (fltb f0 v && fltb v f1e7) eqn:Ep;
      [| intros [= <-]; assumption].
    intros [= <-] [<- | Hin]; [| auto].
    exists m. split; [left; reflexivity |]. simpl.
    apply andb_prop in Ep as [Ep _]. auto.
Qed.

Lemma phase2_candidates_source (ctx : list number) (lns : list str)
    (cs : list (float * str)) (c : float * str) :
  Nlp.phase2_candidates ctx lns = Ret cs -> In c cs ->
  exists ln tok,
    In ln lns /\ Nlp._is_metadata_line ln = false
    /\ numeric_token_of ln tok
    /\ Nlp._clean_and_convert_token (Some tok) (Some ctx)
       = Ret (Some (fst c))
    /\ fltb f0 (fst c) = true.
Proof.
  revert cs. induction lns as [| ln lns IH]; intros cs; simpl.
  - intros [= <-] [].
  - assert (forall cs', Nlp.phase2_candidates ctx lns = Ret cs' ->
              In c cs' ->
              exists ln0 tok,
                In ln0 (ln :: lns) /\ Nlp._is_metadata_line ln0 = false
                /\ numeric_token_of ln0 tok
                /\ Nlp._clean_and_convert_token (Some tok) (Some ctx)
                   = Ret (Some (fst c))
                /\ fltb f0 (fst c) = true) as Hrest.
    { intros cs' H Hin. destruct (IH cs' H Hin) as (ln0 & tok & H0 & H1).
      exists ln0, tok. split; [right; assumption | assumption]. }
    destruct (Nlp._is_metadata_line ln) eqn:Em; [apply Hrest |].
    destruct (Nlp.line_candidates ctx ln _) as [c1 | e] eqn:E1; simpl;
      [| discriminate].
    destruct (Nlp.phase2_candidates ctx lns) as [c2 | e] eqn:E2; simpl;
      [| discriminate].
    intros [= <-] Hin. apply in_app_or in Hin as [Hin | Hin];
      [| eapply Hrest; [reflexivity | assumption]].
    destruct (line_candidates_source _ _ _ _ _ E1 Hin) as (m & Hm & Hv & Hp).
    destruct (found_numeric Nlp._AMT_RE 1 ln m) as (tok & Hg & Hn);
      [simpl; auto | auto |].
    rewrite Hg in Hv. exists ln, tok.
    split; [left; reflexivity | auto].
Qed.

Lemma in_skipn {A} (n : nat) (l : list A) (x : A) :
  In x (skipn n l) -> In x l.
Proof.
  revert l. induction n as [| n IH]; intros l; [auto |].
  destruct l as [| y l]; simpl; [auto |]. intros H. right. auto.
Qed.

Lemma last_n_incl {A} (n k : nat) (l : list A) :
  (n <= k)%nat -> incl (last_n n l) (last_n k l).
Proof.
  unfold last_n. intros Hnk x Hx.
  replace (length l - n)%nat
    with ((length l - n - (length l - k)) + (length l - k))%nat in Hx by lia.
  rewrite <- skipn_skipn in Hx. apply in_skipn in Hx. assumption.
Qed.

Lemma total_source (raw_text : str) (r : float) :
  Nlp.find_total_amount (Some raw_text) = Ret (Some r) ->
  exists ln tok v,
    In ln (last_n 20 (stripped_lines raw_text))
    /\ numeric_token_of ln tok
    /\ Nlp._clean_and_convert_token (Some tok)
         (Some (Nlp.context_numbers_of (stripped_lines raw_text)))
       = Ret (Some v)
    /\ fltb f0 v = true /\ r = py_round v 2
    /\ ((In ln (last_n 12 (stripped_lines raw_text))
         /\ occurs_in (S_ "total") (lower ln))
        \/ Nlp._is_metadata_line ln = false).
Proof.
  unfold Nlp.find_total_amount.
  destruct (is_empty raw_text); [discriminate |]. cbv zeta.
  set (lines := stripped_lines raw_text).
  set (ctx := Nlp.context_numbers_of lines).
  destruct (Nlp.phase1 ctx (rev (last_n 12 lines))) as [[x |] | e] eqn:E1;
    simpl; try discriminate.
  - intros [= <-].
    destruct (phase1_found _ _ _ E1) as (ln & Hin & Hln).
    apply in_rev in Hin.
    destruct (phase1_line_source _ _ _ Hln)
      as (Ht & tok & v & H1 & H2 & H3 & H4).
    exists ln, tok, v.
    split; [apply (last_n_incl 12 20); [lia | assumption] | auto 10].
  - destruct (Nlp.phase2_candidates ctx (rev (last_n 20 lines)))
      as [cands | e] eqn:E2; simpl; [| discriminate].
    intros [= Hpick].
    destruct (pick_total_in _ _ Hpick) as (c & Hin & ->).
    destruct (phase2_candidates_source _ _ _ _ E2 Hin)
      as (ln & tok & Hl & Hm & Hn & Hv & Hp).
    apply in_rev in Hl. exists ln, tok, (fst c). auto 10.
Qed.

(** X9.  Where a total comes from: a float returned by
    [find_total_amount] is the rounding to two decimals of the normalized
    value [v > 0] of a numeric token (2 to 22 characters of digits, points
    and commas, a digit at both ends) that stands in one of the last 20
    non-empty lines; that line is one of the last 12 and contains "total"
    (in any case), or it is not a metadata line. *)
Theorem X9_total_source (raw_text : str) (r : float) :
  Nlp.find_total_amount (Some raw_text) = Ret (Some r) ->
  exists ln tok v,
    In ln (last_n 20 (stripped_lines raw_text))
    /\ numeric_token_of ln tok
    /\ Nlp._clean_and_convert_token (Some tok)
         (Some (Nlp.context_numbers_of (stripped_lines raw_text)))
       = Ret (Some v)
    /\ fltb f0 v = true /\ r = py_round v 2
    /\ ((In ln (last_n 12 (stripped_lines raw_text))
         /\ occurs_in (S_ "total") (lower ln))
        \/ Nlp._is_metadata_line ln = false).
Proof. apply total_source. Qed.

Lemma X9_total_source_witness :
  exists ln tok v,
    In ln (last_n 20 (stripped_lines (S_ "Tea 4.50")))
    /\ numeric_token_of ln tok
    /\ Nlp._clean_and_convert_token (Some tok)
         (Some (Nlp.context_numbers_of (stripped_lines (S_ "Tea 4.50"))))
       = Ret (Some v)
    /\ fltb f0 v = true /\ dec 45 1 = py_round v 2
    /\ ((In ln (last_n 12 (stripped_lines (S_ "Tea 4.50")))
         /\ occurs_in (S_ "total") (lower ln))
        \/ Nlp._is_metadata_line ln = false).
Proof.
  apply (X9_total_source (S_ "Tea 4.50") (dec 45 1)). vm_compute. reflexivity.
Defined.

(** X10.  No total from metadata lines that do not say "total": when
    each of the last 20 non-empty lines is a metadata line without the
    word "total", [find_total_amount] returns [None].  A line such as
    "Amount due: 45.00" is of that kind, since "amount" is a metadata
    keyword: the keywords "amount due", "amount payable" and "amount" of
    the phase-1 pattern only act on a line that also holds "total". *)
Theorem X10_no_total_from_metadata (raw_text : str) :
  (forall ln, In ln (last_n 20 (stripped_lines raw_text)) ->
              Nlp._is_metadata_line ln = true
              /\ contains (S_ "total") (lower ln) = false) ->
  Nlp.find_total_amount (Some raw_text) = Ret None.
Proof.
  intros Hall.
  destruct (phase1_returns
              (Nlp.context_numbers_of (stripped_lines raw_text))
              (rev (last_n 12 (stripped_lines raw_text)))) as [r1 H1].
  destruct (phase2_candidates_returns
              (Nlp.context_numbers_of (stripped_lines raw_text))
              (rev (last_n 20 (stripped_lines raw_text)))) as [cs H2].
  destruct (Nlp.find_total_amount (Some raw_text)) as [[r |] | e] eqn:E.
  - exfalso. apply total_source in E
      as (ln & tok & v & Hin & _ & _ & _ & _ & [[_ Ht] | Hm]);
      destruct (Hall ln Hin) as [Hmeta Hno].
    + apply contains_occurs in Ht. congruence.
    + congruence.
  - reflexivity.
  - exfalso. unfold Nlp.find_total_amount in E.
    destruct (is_empty raw_text); [discriminate |]. cbv zeta in E.
    rewrite H1 in E. simpl in E. destruct r1; [discriminate |].
    rewrite H2 in E. discriminate.
Qed.

Lemma X10_no_total_from_metadata_witness :
  Nlp.find_total_amount (Some (S_ "Amount due: 45.00")) = Ret None.
Proof.
  apply (X10_no_total_from_metadata (S_ "Amount due: 45.00")).
  intros ln [<- | []]. vm_compute. auto.
Defined.

(** ** Substitutions that delete a prefix or a suffix *)

Lemma bol_search_none (r : regex) (s : str) :
  forall i pv, (0 < i)%nat -> search_at (Seq Bol r) i pv s = None.
Proof.
  induction s as [| c s IH]; intros i pv Hi.
  - rewrite search_at_nil. cbn [rmatch pos].
    destruct (Nat.eqb_spec i 0); [lia | reflexivity].
  - rewrite search_at_cons. cbn [rmatch pos].
    destruct (Nat.eqb_spec i 0); [lia |]. apply IH. lia.
Qed.

Lemma bol_sub_at_id (r : regex) (repl s : str) (fuel i : nat)
    (pv : option ascii) :
  (0 < i)%nat -> sub_at fuel (Seq Bol r) repl i pv s = s.
Proof.
  intros Hi. destruct fuel; simpl; [reflexivity |].
  rewrite bol_search_none by assumption. reflexivity.
Qed.

Lemma sub_at_step (fuel : nat) (r : regex) (repl : str) (i : nat)
    (pv : option ascii) (s : str) :
  sub_at (Datatypes.S fuel) r repl i pv s
  = match search_at r i pv s with
    | None => s
    | Some m =>
        let e := m_end m in
        firstn (m_start m - i) s ++ repl ++
        (if (m_start m <? pos e)%nat
         then sub_at fuel r repl (pos e) (prev e) (rest e)
         else match rest e with
              | c :: s' =>
                  c :: sub_at fuel r repl (Datatypes.S (pos e)) (Some c) s'
              | [] => []
              end)
    end.
Proof. reflexivity. Qed.

(** Deleting the matches of a pattern anchored at the start leaves an end
    of the text. *)
Lemma bol_re_sub_suffix (r : regex) (s : str) :
  exists a, s = a ++ re_sub (Seq Bol r) [] s.
Proof.
  unfold re_sub. rewrite sub_at_step.
  destruct (search_at (Seq Bol r) 0 None s) as [m |] eqn:E;
    [| exists []; reflexivity].
  assert (m_start m = 0%nat) as H0.
  { destruct s as [| c s].
    - rewrite search_at_nil in E.
      destruct (rmatch _ _ Some); [| discriminate].
      injection E as <-. reflexivity.
    - rewrite search_at_cons in E.
      destruct (rmatch _ _ Some).
      + injection E as <-. reflexivity.
      + rewrite bol_search_none in E by lia. discriminate. }
  apply search_at_sound in E as (a & w & Hs & Hst & Hp & _ & _).
  rewrite H0 in *. destruct a; [| simpl in Hst; lia].
  simpl in Hs. cbv zeta. simpl firstn. simpl app.
  destruct (Nat.ltb_spec 0 (pos (m_end m))).
  - rewrite bol_sub_at_id by assumption. exists w. assumption.
  - assert (w = []) as -> by (destruct w; [reflexivity | simpl in Hp; lia]).
    simpl in Hs. exists []. simpl. rewrite <- Hs.
    destruct s as [| c s']; [reflexivity |].
    rewrite bol_sub_at_id by lia. reflexivity.
Qed.

Lemma lang_lit (s w : str) : lang (lit s) w -> w = s.
Proof.
  revert w. unfold lit.
  induction s as [| c s IH]; intros w; simpl; [auto |].
  intros (u & v & -> & (x & -> & Hx) & Hv). apply ascii_eqb_eq in Hx.
  subst. simpl. f_equal. auto.
Qed.

(** A match of a pattern that ends in [$] reaches the end of the text, or
    the line feed that ends it. *)
Lemma eol_search_end (r1 r2 : regex) (s : str) (i : nat) (pv : option ascii)
    (m : rematch) :
  search_at (Seq r1 (Seq r2 Eol)) i pv s = Some m ->
  rest (m_end m) = [] \/ exists c, rest (m_end m) = [c] /\ isspace c = true.
Proof.
  assert (Hhere : forall st e,
            rmatch (Seq r1 (Seq r2 Eol)) st Some = Some e ->
            rest e = [] \/ exists c, rest e = [c] /\ isspace c = true).
  { intros st e H. cbn [rmatch] in H.
    apply rmatch_sound in H as (st1 & _ & H & _).
    apply rmatch_sound in H as (st2 & _ & H & _).
    destruct (rest st2) as [| c [| ? ?]] eqn:Er; try discriminate.
    - injection H as <-. auto.
    - destruct (code c =? 10)%N eqn:Ec; [| discriminate].
      injection H as <-. right. exists c. split; [assumption |].
      apply N.eqb_eq in Ec. unfold isspace, in_range. rewrite Ec.
      reflexivity. }
  revert i pv. induction s as [| c s IH]; intros i pv H.
  - rewrite search_at_nil in H.
    destruct (rmatch _ _ Some) as [e |] eqn:E; [| discriminate].
    injection H as <-. eapply Hhere. eassumption.
  - rewrite search_at_cons in H.
    destruct (rmatch _ _ Some) as [e |] eqn:E.
    + injection H as <-. eapply Hhere. eassumption.
    + eapply IH. eassumption.
Qed.

(** Deleting the chosen token at the end of a trimmed line leaves a start
    of the line. *)
Lemma token_re_sub_prefix (chosen ln : str) :
  chosen <> [] -> last_is isspace ln = false ->
  exists b, ln = re_sub (Seq (lit chosen) (Seq (star ws) Eol)) [] ln ++ b.
Proof.
  intros Hne Hl. unfold re_sub. rewrite sub_at_step.
  destruct (search_at _ 0 None ln) as [m |] eqn:E;
    [| exists []; rewrite app_nil_r; reflexivity].
  pose proof (eol_search_end _ _ _ _ _ _ E) as Hend.
  apply search_at_sound in E as (a & w & Hs & Hst & Hp & L & _).
  assert (rest (m_end m) = []) as Hr.
  { destruct Hend as [H | (c & H & Hc)]; [assumption |]. exfalso.
    rewrite H in Hs. unfold last_is in Hl.
    rewrite Hs, !rev_app_distr in Hl. simpl in Hl. congruence. }
  destruct L as (u & v & -> & Hu & _). apply lang_lit in Hu. subst u.
  cbv zeta. rewrite Hr in *. rewrite Hst in Hp. rewrite Hp, Hst.
  replace (0 + length a - 0)%nat with (length a) by lia.
  assert ((0 + length a <? 0 + length a + length (chosen ++ v))%nat = true)
    as ->.
  { apply Nat.ltb_lt. rewrite length_app.
    destruct chosen; [congruence | simpl; lia]. }
  assert (forall fuel i pv,
            sub_at fuel (Seq (lit chosen) (Seq (star ws) Eol)) [] i pv []
            = []) as ->.
  { intros fuel i pv. destruct fuel; [reflexivity |]. rewrite sub_at_step.
    destruct (search_at _ i pv []) as [m' |] eqn:E'; [| reflexivity].
    exfalso. apply search_at_sound in E' as (a' & w' & Hs' & _ & _ & L' & _).
    destruct L' as (u & v' & -> & Hu & _). apply lang_lit in Hu. subst u.
    destruct a'; [| discriminate]. destruct chosen; [congruence |].
    discriminate. }
  exists (chosen ++ v). rewrite Hs, app_nil_r, app_nil_r.
  rewrite firstn_app, Nat.sub_diag, firstn_all. simpl.
  rewrite app_nil_r. reflexivity.
Qed.

Lemma describe_occurs (chosen ln : str) :
  chosen <> [] -> last_is isspace ln = false ->
  occurs_in (Ocr.describe chosen ln) ln /\ trimmed (Ocr.describe chosen ln).
Proof.
  intros Hne Hl. unfold Ocr.describe. cbv zeta.
  split; [| apply strip_trimmed].
  destruct (token_re_sub_prefix chosen ln Hne Hl) as (b & Hb).
  set (d0 := re_sub (Seq (lit chosen) (Seq (star ws) Eol)) (S_ "") ln) in *.
  set (d1 := strip d0).
  match goal with
  | |- occurs_in (strip (re_sub (Seq Bol ?r3) _
                           (strip (re_sub (Seq Bol ?r2) _ d1)))) _ =>
      destruct (bol_re_sub_suffix r2 d1) as (a2 & H2);
      set (e2 := re_sub (Seq Bol r2) (S_ "") d1) in *;
      destruct (bol_re_sub_suffix r3 (strip e2)) as (a3 & H3);
      set (e3 := re_sub (Seq Bol r3) (S_ "") (strip e2)) in *
  end.
  change (S_ "") with (@nil ascii) in *.
  assert (occurs_in d1 ln) as H1.
  { apply (occurs_in_trans _ d0); [apply strip_by_occurs |].
    exists [], b. assumption. }
  assert (occurs_in (strip e2) d1) as H2'.
  { apply (occurs_in_trans _ e2); [apply strip_by_occurs |].
    exists a2, []. rewrite app_nil_r. assumption. }
  assert (occurs_in (strip e3) (strip e2)) as H3'.
  { apply (occurs_in_trans _ e3); [apply strip_by_occurs |].
    exists a3, []. rewrite app_nil_r. assumption. }
  eauto using occurs_in_trans.
Qed.

(** ** Where an item comes from *)

Lemma numeric_nonempty (ln t : str) : numeric_token_of ln t -> t <> [].
Proof. intros (_ & Hl & _) ->. simpl in Hl. lia. Qed.

Lemma line_item_source (ctx : list number) (ln : str) (it : Item) :
  Ocr.line_item ctx ln = Ret (Some it) ->
  raw_line it = ln
  /\ Ocr._is_metadata_line ln = false
  /\ exists tok v,
       numeric_token_of ln tok
       /\ Ocr._normalize_number_token (Some tok)
            (if is_empty ctx then None else Some ctx) = Ret (Some v)
       /\ fltb f0 v = true /\ fleb v f1e6 = true
       /\ price it = py_round v 2
       /\ description it
          = (if is_empty (Ocr.describe tok ln) then S_ "(item)"
             else Ocr.describe tok ln)
       /\ forall m, search Ocr._RIGHTMOST_NUM_RE ln = Some m ->
                    group m 1 = Some tok.
Proof.
  unfold Ocr.line_item.
  destruct (Ocr._is_metadata_line ln); [discriminate |].
  assert (forall chosen,
            match search Ocr._RIGHTMOST_NUM_RE ln with
            | Some m_right => group m_right 1
            | None =>
                match search Ocr._NUM_TOKEN_RE ln with
                | Some m_any => group m_any 2
                | None => None
                end
            end = Some chosen ->
            numeric_token_of ln chosen
            /\ forall m, search Ocr._RIGHTMOST_NUM_RE ln = Some m ->
                         group m 1 = Some chosen) as Hnum.
  { intros chosen.
    destruct (search Ocr._RIGHTMOST_NUM_RE ln) as [m |] eqn:E1.
    - destruct (found_numeric Ocr._RIGHTMOST_NUM_RE 1 ln m)
        as (t & Hg & Hn); [simpl; auto | auto |].
      rewrite Hg. intros [= <-]. split; [assumption |].
      intros m' [= <-]. assumption.
    - destruct (search Ocr._NUM_TOKEN_RE ln) as [m |] eqn:E2;
        [| discriminate].
      destruct (found_numeric Ocr._NUM_TOKEN_RE 2 ln m)
        as (t & Hg & Hn); [simpl; auto | auto |].
      rewrite Hg. intros [= <-]. split; [assumption | discriminate]. }
  destruct (match search Ocr._RIGHTMOST_NUM_RE ln with
            | Some _ => _ | None => _ end) as [chosen |]; [| discriminate].
  destruct (Hnum chosen eq_refl) as [Hn Hright]. clear Hnum.
  destruct (is_empty chosen); [discriminate |].
  destruct (Ocr._normalize_number_token (Some chosen) _)
    as [[v |] | e] eqn:E; simpl; try discriminate.
  destruct (fleb v f0 || fltb f1e6 v) eqn:G; [discriminate |].
  intros [= <-]. simpl.
  apply orb_false_elim in G as [G0 G6].
  pose proof (above_zero v (normalize_not_nan _ _ _ E) G0) as Hpos.
  destruct (up_to_million v Hpos G6) as [Hle _].
  split; [reflexivity |]. split; [reflexivity |].
  exists chosen, v. auto 10.
Qed.

Lemma items_of_lines (ctx : list number) (lns : list str)
    (items : list Item) :
  Ocr.items_of ctx lns = Ret items -> sublist (map raw_line items) lns.
Proof.
  revert items. induction lns as [| ln lns IH]; simpl; intros items H.
  - injection H as <-. constructor.
  - destruct (Ocr.line_item ctx ln) as [o | e] eqn:E; simpl in H;
      [| discriminate].
    destruct (Ocr.items_of ctx lns) as [its | e]; simpl in H;
      [| discriminate].
    injection H as <-. specialize (IH its eq_refl).
    destruct o as [it |].
    + apply line_item_source in E as [<- _]. simpl.
      apply sublist_skip. assumption.
    + apply sublist_cons. assumption.
Qed.

(** X11.  The items follow the lines of the text: the raw lines of the
    items returned by [extract_lines_with_prices] are, in order, a
    sub-list of the non-empty stripped lines (at most one item per line),
    and none of them is a metadata line. *)
Theorem X11_items_follow_lines (raw_text : str) (items : list Item) :
  Ocr.extract_lines_with_prices (Some raw_text) = Ret items ->
  sublist (map raw_line items) (stripped_lines raw_text)
  /\ (length items <= length (stripped_lines raw_text))%nat
  /\ Forall (fun it => ~ metadata_like Ocr._METADATA_KEYWORDS (raw_line it))
       items.
Proof.
  unfold Ocr.extract_lines_with_prices.
  destruct (is_empty raw_text).
  - intros [= <-]. split; [apply sublist_nil_l |].
    split; [simpl; lia | constructor].
  - cbv zeta. intros H. pose proof (items_of_lines _ _ _ H) as Hs.
    split; [assumption |]. split.
    + apply sublist_length in Hs. rewrite length_map in Hs. assumption.
    + apply List.Forall_forall. intros it Hin.
      destruct (items_of_from_line _ _ _ _ H Hin) as (ln & _ & Hln).
      apply line_item_source in Hln as (-> & Hm & _).
      rewrite <- ocr_metadata_spec. congruence.
Qed.

Lemma X11_items_follow_lines_witness :
  sublist
    (map raw_line [mkItem (S_ "Tea") (dec 45 1) (S_ "Tea 4.50")])
    (stripped_lines (S_ "Cider 3.00
Tea 4.50"))
  /\ (length [mkItem (S_ "Tea") (dec 45 1) (S_ "Tea 4.50")]
      <= length (stripped_lines (S_ "Cider 3.00
Tea 4.50")))%nat
  /\ Forall (fun it => ~ metadata_like Ocr._METADATA_KEYWORDS (raw_line it))
       [mkItem (S_ "Tea") (dec 45 1) (S_ "Tea 4.50")].
Proof.
  apply (X11_items_follow_lines (S_ "Cider 3.00
Tea 4.50")). vm_compute. reflexivity.
Defined.

(** X12.  Where an item comes from: its raw line is one of the non-empty
    stripped lines; its price is the rounding to two decimals of the
    normalized value [0 < v <= 1000000] of a numeric token of that line;
    its description is never empty, has no white space at either end, and
    is the placeholder "(item)" or a contiguous piece of the raw line. *)
Theorem X12_item_source (raw_text : str) (items : list Item) (it : Item) :
  Ocr.extract_lines_with_prices (Some raw_text) = Ret items ->
  In it items ->
  In (raw_line it) (stripped_lines raw_text)
  /\ (exists tok ctx v,
        numeric_token_of (raw_line it) tok
        /\ Ocr._normalize_number_token (Some tok) ctx = Ret (Some v)
        /\ fltb f0 v = true /\ fleb v f1e6 = true
        /\ price it = py_round v 2)
  /\ description it <> []
  /\ trimmed (description it)
  /\ (description it = S_ "(item)"
      \/ occurs_in (description it) (raw_line it)).
Proof.
  unfold Ocr.extract_lines_with_prices.
  destruct (is_empty raw_text); [intros [= <-] [] |]. cbv zeta.
  intros H Hin.
  destruct (items_of_from_line _ _ _ _ H Hin) as (ln & Hl & Hln).
  apply line_item_source in Hln
    as (-> & _ & tok & v & Hn & Hv & H0 & H6 & Hp & Hd & _).
  split; [assumption |]. split; [eauto 10 |].
  apply stripped_lines_spec in Hl as (_ & [_ Hlast] & _).
  destruct (describe_occurs tok ln (numeric_nonempty _ _ Hn) Hlast)
    as [Ho Ht].
  rewrite Hd. destruct (Ocr.describe tok ln) as [| c d] eqn:Ed.
  - simpl. split; [discriminate |]. split; [split; reflexivity | auto].
  - simpl. split; [discriminate | auto].
Qed.

Lemma X12_item_source_witness :
  In (raw_line (mkItem (S_ "Tea") (dec 45 1) (S_ "Tea 4.50")))
     (stripped_lines (S_ "Tea 4.50"))
  /\ (exists tok ctx v,
        numeric_token_of
          (raw_line (mkItem (S_ "Tea") (dec 45 1) (S_ "Tea 4.50"))) tok
        /\ Ocr._normalize_number_token (Some tok) ctx = Ret (Some v)
        /\ fltb f0 v = true /\ fleb v f1e6 = true
        /\ price (mkItem (S_ "Tea") (dec 45 1) (S_ "Tea 4.50"))
           = py_round v 2)
  /\ description (mkItem (S_ "Tea") (dec 45 1) (S_ "Tea 4.50")) <> []
  /\ trimmed (description (mkItem (S_ "Tea") (dec 45 1) (S_ "Tea 4.50")))
  /\ (description (mkItem (S_ "Tea") (dec 45 1) (S_ "Tea 4.50"))
      = S_ "(item)"
      \/ occurs_in (description (mkItem (S_ "Tea") (dec 45 1) (S_ "Tea 4.50")))
           (raw_line (mkItem (S_ "Tea") (dec 45 1) (S_ "Tea 4.50")))).
Proof.
  apply (X12_item_source (S_ "Tea 4.50")
           [mkItem (S_ "Tea") (dec 45 1) (S_ "Tea 4.50")]).
  - vm_compute. reflexivity.
  - left. reflexivity.
Defined.

(** ** A price at the end of the line *)

Lemma rmatch_seq (r1 r2 : regex) (st : mstate) (k : mstate -> option mstate) :
  rmatch (Seq r1 r2) st k = rmatch r1 st (fun st1 => rmatch r2 st1 k).
Proof. reflexivity. Qed.

Lemma rmatch_grp (i : nat) (r : regex) (st : mstate)
    (k : mstate -> option mstate) :
  rmatch (Grp i r) st k
  = rmatch r st
      (fun st' =>
         k (MState (pos st') (prev st') (rest st')
              ((i, firstn (pos st' - pos st) (rest st)) :: caps st'))).
Proof. reflexivity. Qed.

Lemma search_at_here (r : regex) (s : str) :
  forall i pv m,
    search_at r i pv s = Some m ->
    exists a s' pv',
      s = a ++ s' /\ m_start m = (i + length a)%nat
      /\ rmatch r (MState (m_start m) pv' s' []) Some = Some (m_end m).
Proof.
  induction s as [| c s IH]; intros i pv m H.
  - rewrite search_at_nil in H.
    destruct (rmatch r (MState i pv [] []) Some) as [e |] eqn:E;
      [| discriminate].
    injection H as <-. exists [], [], pv. simpl.
    split; [reflexivity |]. split; [lia | assumption].
  - rewrite search_at_cons in H.
    destruct (rmatch r (MState i pv (c :: s) []) Some) as [e |] eqn:E.
    + injection H as <-. exists [], (c :: s), pv. simpl.
      split; [reflexivity |]. split; [lia | assumption].
    + apply IH in H as (a & s' & pv' & -> & Hst & Hm).
      exists (c :: a), s', pv'. simpl.
      split; [reflexivity |]. split; [lia | assumption].
Qed.

Lemma no_captures (r : regex) (w : str) (new : list (nat * str)) :
  (forall i t, ~ captures r i t) ->
  Forall (fun c => captures r (fst c) (snd c) /\ occurs_in (snd c) w) new ->
  new = [].
Proof.
  intros Hno Hf. destruct Hf as [| c l [Hc _] _]; [reflexivity |].
  destruct (Hno _ _ Hc).
Qed.

Lemma num_tok_no_captures (i : nat) (t : str) : ~ captures num_tok i t.
Proof. cbn. tauto. Qed.

Lemma spaces_eol_no_captures (i : nat) (t : str) :
  ~ captures (Seq (star ws) Eol) i t.
Proof. cbn. tauto. Qed.

Lemma last_is_space_app (u v : str) :
  last_is isspace (u ++ v) = false -> forallb isspace v = true -> v = [].
Proof.
  intros Hl Hv. destruct v as [| x v] using rev_ind; [reflexivity |].
  exfalso. unfold last_is in Hl. rewrite app_assoc, rev_app_distr in Hl.
  simpl in Hl. rewrite forallb_app in Hv. apply andb_prop in Hv as [_ Hv].
  simpl in Hv. rewrite Hl in Hv. discriminate.
Qed.

Lemma lang_spaces_eol (w : str) :
  lang (Seq (star ws) Eol) w -> forallb isspace w = true.
Proof.
  intros (u & v & -> & (parts & -> & Hp & _) & ->).
  rewrite app_nil_r. apply (lang_chr_star isspace parts Hp).
Qed.

(** When the line ends with a numeric token, group 1 of the rightmost
    pattern is the end of the line. *)
Lemma rightmost_match (ln : str) (m : rematch) :
  last_is isspace ln = false ->
  search Ocr._RIGHTMOST_NUM_RE ln = Some m ->
  exists a t, ln = a ++ t /\ group m 1 = Some t /\ m_start m = length a.
Proof.
  intros Hl H. pose proof (eol_search_end _ _ _ _ _ _ H) as Hend.
  apply search_at_here in H as (a & s' & pv' & -> & Hstart & H).
  unfold Ocr._RIGHTMOST_NUM_RE in H. rewrite rmatch_seq, rmatch_grp in H.
  apply rmatch_sound in H as (st1 & w1 & H & _ & (Hr1 & Hp1 & n1 & Hc1 & Hf1)).
  apply (no_captures num_tok w1 n1 num_tok_no_captures) in Hf1. subst n1.
  apply rmatch_sound in H as (st2 & w2 & H & L2 & (Hr2 & Hp2 & n2 & Hc2 & Hf2)).
  apply (no_captures _ w2 n2 spaces_eol_no_captures) in Hf2. subst n2.
  injection H as H. simpl in Hr1, Hp1, Hc1, Hr2, Hp2, Hc2.
  assert (firstn (pos st1 - m_start m) s' = w1) as Hw1.
  { rewrite Hr1, Hp1.
    replace (m_start m + length w1 - m_start m)%nat
      with (length w1 + 0)%nat by lia.
    rewrite firstn_app_2. simpl. apply app_nil_r. }
  rewrite Hw1 in Hc2. apply lang_spaces_eol in L2.
  assert (rest st2 = []) as Hrest.
  { rewrite <- H in Hend. destruct Hend as [E | (c & E & Hc)]; [assumption |].
    exfalso. rewrite Hr1, Hr2, E in Hl. unfold last_is in Hl.
    rewrite !app_assoc, rev_app_distr in Hl. simpl in Hl. congruence. }
  rewrite Hr1, Hr2, Hrest, app_nil_r in Hl |- *.
  rewrite app_assoc in Hl. apply last_is_space_app in Hl; [| assumption].
  subst w2. rewrite app_nil_r. exists a, w1. split; [reflexivity |].
  split; [| simpl in Hstart; assumption].
  unfold group. rewrite <- H, Hc2. simpl. reflexivity.
Qed.

Lemma rmatch_lit (s t : str) (k : mstate -> option mstate) :
  forall i pv c,
    exists pv',
      rmatch (lit s) (MState i pv (s ++ t) c) k
      = k (MState (i + length s) pv' t c).
Proof.
  induction s as [| x s IH]; intros i pv c.
  - exists pv. simpl. rewrite Nat.add_0_r. reflexivity.
  - destruct (IH (Datatypes.S i) (Some x) c) as [pv' E]. exists pv'.
    change (lit (x :: s)) with (Seq (Chr (ascii_eqb x)) (lit s)).
    rewrite rmatch_seq. cbn [rmatch rest app pos caps].
    unfold ascii_eqb at 1. rewrite Ascii.eqb_refl. rewrite E.
    simpl. replace (i + Datatypes.S (length s))%nat
      with (Datatypes.S (i + length s)) by lia. reflexivity.
Qed.

Lemma search_at_app (r : regex) (a s : str) :
  forall i pv,
    (forall pv', is_Some (rmatch r (MState (i + length a) pv' s []) Some)) ->
    is_Some (search_at r i pv (a ++ s)).
Proof.
  induction a as [| c a IH]; intros i pv H.
  - simpl in H. rewrite Nat.add_0_r in H. specialize (H pv).
    destruct H as [e He]. simpl.
    destruct s; [rewrite search_at_nil | rewrite search_at_cons];
      rewrite He; eauto.
  - simpl app. rewrite search_at_cons.
    destruct (rmatch r _ Some); [eauto |]. apply IH.
    intros pv'. simpl in H.
    replace (Datatypes.S i + length a)%nat
      with (i + Datatypes.S (length a))%nat by lia. apply H.
Qed.

(** Deleting the token that ends a trimmed line leaves what stands before
    it. *)
Lemma token_re_sub_exact (chosen a : str) :
  chosen <> [] -> last_is isspace (a ++ chosen) = false ->
  re_sub (Seq (lit chosen) (Seq (star ws) Eol)) [] (a ++ chosen) = a.
Proof.
  intros Hne Hl. unfold re_sub. rewrite sub_at_step.
  destruct (search_at_app (Seq (lit chosen) (Seq (star ws) Eol)) a chosen
              0 None) as [m E].
  { intros pv'. rewrite rmatch_seq.
    destruct (rmatch_lit chosen [] (fun st1 =>
                rmatch (Seq (star ws) Eol) st1 Some)
                (0 + length a) pv' []) as [pv'' Hlit].
    rewrite app_nil_r in Hlit. rewrite Hlit. simpl. eauto. }
  rewrite E.
  pose proof (eol_search_end _ _ _ _ _ _ E) as Hend.
  apply search_at_sound in E as (a0 & w & Hs & Hst & Hp & L & _).
  assert (rest (m_end m) = []) as Hr.
  { destruct Hend as [H | (c & H & Hc)]; [assumption |]. exfalso.
    rewrite H in Hs. unfold last_is in Hl.
    rewrite Hs, !rev_app_distr in Hl. simpl in Hl. congruence. }
  destruct L as (u & v & -> & Hu & Hv). apply lang_lit in Hu. subst u.
  apply lang_spaces_eol in Hv.
  rewrite Hr, app_nil_r in Hs. pose proof Hl as Hl'.
  rewrite Hs, app_assoc in Hl'. apply last_is_space_app in Hl'; [| assumption].
  subst v. rewrite app_nil_r in *. apply app_inv_tail in Hs. subst a0.
  cbv zeta. rewrite Hr. rewrite Hst in Hp. rewrite Hp, Hst.
  replace (0 + length a - 0)%nat with (length a) by lia.
  assert ((0 + length a <? 0 + length a + length chosen)%nat = true) as ->.
  { apply Nat.ltb_lt. destruct chosen; [congruence | simpl; lia]. }
  assert (forall fuel i pv,
            sub_at fuel (Seq (lit chosen) (Seq (star ws) Eol)) [] i pv []
            = []) as ->.
  { intros fuel i pv. destruct fuel; [reflexivity |]. rewrite sub_at_step.
    destruct (search_at _ i pv []) as [m' |] eqn:E'; [| reflexivity].
    exfalso. apply search_at_sound in E' as (a' & w' & Hs' & _ & _ & L' & _).
    destruct L' as (u & v' & -> & Hu & _). apply lang_lit in Hu. subst u.
    destruct a'; [| discriminate]. destruct chosen; [congruence |].
    discriminate. }
  rewrite firstn_app, Nat.sub_diag, firstn_all. simpl.
  rewrite !app_nil_r. reflexivity.
Qed.

Lemma describe_before_token (chosen a : str) :
  chosen <> [] -> last_is isspace (a ++ chosen) = false ->
  occurs_in (Ocr.describe chosen (a ++ chosen)) a.
Proof.
  intros Hne Hl. unfold Ocr.describe. cbv zeta.
  change (S_ "") with (@nil ascii).
  rewrite (token_re_sub_exact chosen a Hne Hl).
  set (d1 := strip a).
  match goal with
  | |- occurs_in (strip (re_sub (Seq Bol ?r3) _
                           (strip (re_sub (Seq Bol ?r2) _ d1)))) _ =>
      destruct (bol_re_sub_suffix r2 d1) as (a2 & H2);
      set (e2 := re_sub (Seq Bol r2) [] d1) in *;
      destruct (bol_re_sub_suffix r3 (strip e2)) as (a3 & H3);
      set (e3 := re_sub (Seq Bol r3) [] (strip e2)) in *
  end.
  assert (occurs_in d1 a) as H1 by apply strip_by_occurs.
  assert (occurs_in (strip e2) d1) as H2'.
  { apply (occurs_in_trans _ e2); [apply strip_by_occurs |].
    exists a2, []. rewrite app_nil_r. assumption. }
  assert (occurs_in (strip e3) (strip e2)) as H3'.
  { apply (occurs_in_trans _ e3); [apply strip_by_occurs |].
    exists a3, []. rewrite app_nil_r. assumption. }
  eauto using occurs_in_trans.
Qed.

Lemma line_item_at_end (ctx : list number) (ln : str) (it : Item) :
  last_is isspace ln = false ->
  is_Some (search Ocr._RIGHTMOST_NUM_RE ln) ->
  Ocr.line_item ctx ln = Ret (Some it) ->
  exists a tok v,
    ln = a ++ tok /\ numeric_token_of ln tok
    /\ Ocr._normalize_number_token (Some tok)
         (if is_empty ctx then None else Some ctx) = Ret (Some v)
    /\ price it = py_round v 2
    /\ (description it = S_ "(item)" \/ occurs_in (description it) a).
Proof.
  intros Hl [m Hm] H.
  apply line_item_source in H
    as (_ & _ & tok & v & Hn & Hv & _ & _ & Hp & Hd & Hright).
  destruct (rightmost_match ln m Hl Hm) as (a & t & Hln & Hg & _).
  rewrite (Hright m Hm) in Hg. injection Hg as <-.
  exists a, tok, v. split; [assumption |]. split; [assumption |].
  split; [assumption |]. split; [assumption |].
  rewrite Hd. destruct (Ocr.describe tok ln) as [| c d] eqn:Ed;
    [left; reflexivity |].
  right. simpl. rewrite <- Ed. subst ln.
  apply describe_before_token; [| assumption].
  eapply numeric_nonempty. eassumption.
Qed.

(** X13.  A price at the end of the line: when the rightmost pattern
    matches the raw line of an item, the token the price was read from is
    the end of that line, and the description is the placeholder "(item)"
    or a contiguous piece of what stands before the token. *)
Theorem X13_price_at_line_end (raw_text : str) (items : list Item)
    (it : Item) :
  Ocr.extract_lines_with_prices (Some raw_text) = Ret items ->
  In it items ->
  is_Some (search Ocr._RIGHTMOST_NUM_RE (raw_line it)) ->
  exists a tok ctx v,
    raw_line it = a ++ tok /\ numeric_token_of (raw_line it) tok
    /\ Ocr._normalize_number_token (Some tok) ctx = Ret (Some v)
    /\ price it = py_round v 2
    /\ (description it = S_ "(item)" \/ occurs_in (description it) a).
Proof.
  unfold Ocr.extract_lines_with_prices.
  destruct (is_empty raw_text); [intros [= <-] [] |]. cbv zeta.
  intros H Hin Hm.
  destruct (items_of_from_line _ _ _ _ H Hin) as (ln & Hl & Hln).
  pose proof (line_item_source _ _ _ Hln) as [Hraw _]. rewrite Hraw in *.
  apply stripped_lines_spec in Hl as (_ & [_ Hlast] & _).
  destruct (line_item_at_end _ _ _ Hlast Hm Hln)
    as (a & tok & v & H1 & H2 & H3 & H4 & H5).
  exists a, tok. eauto 10.
Qed.

Lemma X13_price_at_line_end_witness :
  exists a tok ctx v,
    raw_line (mkItem (S_ "Tea") (dec 45 1) (S_ "1. Tea 4.50")) = a ++ tok
    /\ numeric_token_of
         (raw_line (mkItem (S_ "Tea") (dec 45 1) (S_ "1. Tea 4.50"))) tok
    /\ Ocr._normalize_number_token (Some tok) ctx = Ret (Some v)
    /\ price (mkItem (S_ "Tea") (dec 45 1) (S_ "1. Tea 4.50")) = py_round v 2
    /\ (description (mkItem (S_ "Tea") (dec 45 1) (S_ "1. Tea 4.50"))
        = S_ "(item)"
        \/ occurs_in
             (description (mkItem (S_ "Tea") (dec 45 1) (S_ "1. Tea 4.50")))
             a).
Proof.
  apply (X13_price_at_line_end (S_ "1. Tea 4.50")
           [mkItem (S_ "Tea") (dec 45 1) (S_ "1. Tea 4.50")]).
  - vm_compute. reflexivity.
  - left. reflexivity.
  - vm_compute. eauto.
Defined.

(** ** The fallback names *)

Lemma lang_plus_chr (p : ascii -> bool) (w : str) :
  lang (plus (Chr p)) w -> w <> [] /\ forallb p w = true.
Proof.
  intros (ws & -> & Hws & Hlo & _).
  destruct (lang_chr_star p ws Hws) as [Hall Hlen].
  split; [| assumption]. intros E. rewrite E in Hlen. simpl in Hlen.
  unfold str in *. lia.
Qed.

Lemma lang_cap_word (w : str) : lang Nlp.cap_word w -> capitalised w.
Proof.
  intros (u & v & -> & (c & -> & Hc) & Hv).
  apply lang_plus_chr in Hv as [Hne Hall]. exists c, v. auto.
Qed.

Lemma lang_name_words (parts : list str) :
  Forall (lang (Seq (plus ws) Nlp.cap_word)) parts ->
  exists more : list (str * str),
    concat parts = concat (map (fun p => fst p ++ snd p) more)
    /\ length more = length parts
    /\ Forall (fun p : str * str =>
                 fst p <> [] /\ forallb isspace (fst p) = true
                 /\ capitalised (snd p)) more.
Proof.
  induction 1 as [| u us (sp & w & -> & Hsp & Hw) _ (more & E & Hl & Hf)].
  - exists []. split; [reflexivity |]. split; [reflexivity | constructor].
  - apply lang_plus_chr in Hsp as [Hne Hall]. apply lang_cap_word in Hw.
    exists ((sp, w) :: more). simpl. rewrite E, Hl.
    split; [reflexivity |]. split; [reflexivity |].
    constructor; [simpl; auto | assumption].
Qed.

Lemma name_group (t : str) : captures Nlp.name_re 1 t -> name_like t.
Proof.
  unfold Nlp.name_re, Nlp.cap_word.
  cbn [captures plus ws].
  intros [[] | [[[_ H] | H] | []]].
  - fold Nlp.cap_word in H.
    destruct H as (w & x & -> & Hw & (ws & -> & Hws & _ & Hhi)).
    apply lang_cap_word in Hw.
    destruct (lang_name_words ws Hws) as (more & E & Hl & Hf).
    exists w, more. split; [rewrite E; reflexivity |].
    split; [assumption |]. split; [unfold str in *; lia | assumption].
  - exfalso.
    repeat match goal with
           | H : _ \/ _ |- _ => destruct H
           | H : False |- _ => destruct H
           end.
Qed.

Lemma capitalised_ends (w : str) :
  capitalised w ->
  first_is isupper_az w = true /\ last_is islower_az w = true
  /\ (2 <= length w)%nat.
Proof.
  intros (c & tl & -> & Hc & Hne & Hall).
  split; [assumption |]. split.
  - unfold last_is. simpl.
    destruct tl as [| x tl] using rev_ind; [congruence |].
    rewrite rev_app_distr. simpl. rewrite forallb_app in Hall.
    apply andb_prop in Hall as [_ Hall]. simpl in Hall.
    destruct (islower_az x); [reflexivity | discriminate].
  - destruct tl; [congruence | simpl; lia].
Qed.

Lemma last_is_app (p : ascii -> bool) (u v : str) :
  v <> [] -> last_is p (u ++ v) = last_is p v.
Proof.
  intros Hv. unfold last_is. rewrite rev_app_distr.
  destruct (rev v) as [| x r] eqn:E; [| reflexivity].
  apply (f_equal (@rev ascii)) in E. rewrite rev_involutive in E.
  contradiction.
Qed.

Lemma name_like_ends (t : str) :
  name_like t ->
  first_is isupper_az t = true /\ last_is islower_az t = true
  /\ (2 <= length t)%nat.
Proof.
  intros (w & more & -> & Hw & _ & Hf).
  destruct (capitalised_ends w Hw) as (Hfw & Hlw & Hlen).
  split; [| split].
  - destruct Hw as (c & tl & -> & Hc & _). assumption.
  - clear Hfw Hlen Hw. revert w Hlw.
    induction Hf as [| [sp x] more (_ & _ & Hx) _ IH]; intros w Hlw; simpl.
    + rewrite app_nil_r. assumption.
    + destruct (capitalised_ends x Hx) as (_ & Hlx & Hlenx).
      rewrite app_assoc. apply IH.
      rewrite app_assoc, last_is_app; [assumption |].
      destruct x; [simpl in Hlenx; lia | discriminate].
  - rewrite length_app. lia.
Qed.

Lemma upper_not_space (c : ascii) : isupper_az c = true -> isspace c = false.
Proof.
  unfold isupper_az, isspace, in_range. generalize (code c). intros n H.
  apply andb_prop in H as [H1 H2]. apply N.leb_le in H1, H2.
  destruct (N.leb_spec n 13), (N.leb_spec 28 n), (N.leb_spec n 32),
    (N.eqb_spec n 133), (N.eqb_spec n 160);
    rewrite ?andb_false_r; simpl; try reflexivity; lia.
Qed.

Lemma lower_not_space (c : ascii) : islower_az c = true -> isspace c = false.
Proof.
  unfold islower_az, isspace, in_range. generalize (code c). intros n H.
  apply andb_prop in H as [H1 H2]. apply N.leb_le in H1, H2.
  destruct (N.leb_spec n 13), (N.leb_spec 28 n), (N.leb_spec n 32),
    (N.eqb_spec n 133), (N.eqb_spec n 160);
    rewrite ?andb_false_r; simpl; try reflexivity; lia.
Qed.

Lemma name_like_strip (t : str) : name_like t -> strip t = t.
Proof.
  intros H. destruct (name_like_ends t H) as (Hf & Hl & _).
  apply strip_by_id.
  - eapply first_is_weaken; [| exact Hf].
    intros c Hc. rewrite (upper_not_space c Hc). reflexivity.
  - eapply (first_is_weaken islower_az); [| exact Hl].
    intros c Hc. rewrite (lower_not_space c Hc). reflexivity.
Qed.

Lemma fallback_name (text name : str) :
  In name (Nlp.fallback_persons text) ->
  name_like name /\ occurs_in name text
  /\ Nlp._is_metadata_line name = false.
Proof.
  unfold Nlp.fallback_persons. intros H.
  apply in_flat_map in H as (m & Hm & H).
  destruct (finditer_at_binds Nlp.name_re 1 eq_refl _ _ _ _ _ Hm)
    as [t Ht].
  destruct (finditer_sound _ _ _ Hm) as (w & Hw & _ & Hg).
  destruct (Hg 1%nat t Ht) as [Hc Ho]. apply name_group in Hc.
  unfold group_str in H. rewrite Ht in H. simpl in H.
  rewrite (name_like_strip t Hc) in H.
  destruct ((1 <? len t) && negb (Nlp._is_metadata_line t)) eqn:E;
    [| destruct H].
  destruct H as [<- | []]. apply andb_prop in E as [_ E].
  apply negb_true_iff in E.
  split; [assumption |]. split; [| assumption].
  eapply occurs_in_trans; eassumption.
Qed.

Lemma find_persons_fallback (nlp : option Nlp.ner) (text : str) :
  no_model_persons nlp text ->
  Nlp.find_persons nlp text = Nlp.fallback_persons text.
Proof.
  unfold Nlp.find_persons, no_model_persons.
  destruct nlp as [model |]; [| reflexivity].
  intros [-> | ->]; reflexivity.
Qed.

(** X14.  The names of the fallback: when the named-entity model is
    missing, fails or finds no person, every candidate name is one to
    three capitalised words (a letter A-Z followed by one or more letters
    a-z) set apart by white space, stands in the text, has at least two
    characters and no white space at either end, and is not a metadata
    line.  The length test of the source never rejects a candidate. *)
Theorem X14_fallback_names (nlp : option Nlp.ner) (text name : str) :
  no_model_persons nlp text ->
  In name (Nlp.find_persons nlp text) ->
  name_like name /\ occurs_in name text
  /\ first_is isupper_az name = true /\ last_is islower_az name = true
  /\ (2 <= length name)%nat /\ strip name = name
  /\ Nlp._is_metadata_line name = false.
Proof.
  intros Hno Hin. rewrite (find_persons_fallback nlp text Hno) in Hin.
  apply fallback_name in Hin as (Hn & Ho & Hm).
  destruct (name_like_ends name Hn) as (Hf & Hl & Hlen).
  auto 10 using name_like_strip.
Qed.

Lemma X14_fallback_names_witness :
  name_like (S_ "Mary Ann") /\ occurs_in (S_ "Mary Ann") (S_ "for Mary Ann")
  /\ first_is isupper_az (S_ "Mary Ann") = true
  /\ last_is islower_az (S_ "Mary Ann") = true
  /\ (2 <= length (S_ "Mary Ann"))%nat
  /\ strip (S_ "Mary Ann") = S_ "Mary Ann"
  /\ Nlp._is_metadata_line (S_ "Mary Ann") = false.
Proof.
  apply (X14_fallback_names None (S_ "for Mary Ann") (S_ "Mary Ann")).
  - exact I.
  - vm_compute. left. reflexivity.
Defined.

(** ** The assignments of the entry point *)

Lemma first_seen_nonempty (l : list str) : l <> [] -> first_seen l <> [].
Proof. destruct l; [congruence | discriminate]. Qed.

Lemma relations_entry (nlp : option Nlp.ner) (items : list Item)
    (text : str) (i : nat) (names : list str) :
  Nlp.detect_person_item_relations nlp items (Some text) !! i = Some names ->
  exists it,
    items !! i = Some it
    /\ names <> [] /\ List.NoDup names
    /\ Forall (fun name =>
                 In name (Nlp.find_persons nlp text)
                 /\ (2 <= length (strip name))%nat) names.
Proof.
  unfold Nlp.detect_person_item_relations.
  destruct (is_empty text || is_empty items);
    [rewrite lookup_empty; discriminate |].
  unfold Nlp.assign_persons. rewrite assign_from_lookup.
  change (i <? 0)%nat with false. cbv iota. rewrite Nat.sub_0_r.
  rewrite lookup_empty.
  destruct (items !! i) as [it |]; [| discriminate]. cbv zeta.
  destruct (is_empty (List.filter _ (Nlp.find_persons nlp text))) eqn:E;
    [discriminate |].
  intros [= <-]. exists it.
  split; [reflexivity |]. rewrite fromkeys_first_seen.
  split; [apply first_seen_nonempty; intros E'; rewrite E' in E;
          discriminate |].
  split; [apply first_seen_NoDup |].
  apply List.Forall_forall. intros name Hin.
  apply (proj1 (first_seen_In _ _)) in Hin.
  apply filter_In in Hin as [Hin Hname].
  apply name_assigned_iff in Hname as [Hlen _].
  auto.
Qed.

(** X15.  What [detect_person_item_relations] returns: every key is the
    index of an item; every value is a non-empty list without duplicates
    of candidate names of at least two characters (after trimming); and
    when the model gives no person, each of these names is one to three
    capitalised words that stand in the text. *)
Theorem X15_relations (nlp : option Nlp.ner) (items : list Item)
    (text : str) (i : nat) (names : list str) :
  Nlp.detect_person_item_relations nlp items (Some text) !! i = Some names ->
  (i < length items)%nat
  /\ names <> [] /\ List.NoDup names
  /\ Forall (fun name =>
               In name (Nlp.find_persons nlp text)
               /\ (2 <= length (strip name))%nat) names
  /\ (no_model_persons nlp text ->
      Forall (fun name => name_like name /\ occurs_in name text) names).
Proof.
  intros H. apply relations_entry in H as (it & Hit & Hne & Hnd & Hf).
  split; [eapply lookup_lt_Some; eassumption |].
  split; [assumption |]. split; [assumption |].
  rewrite List.Forall_forall in Hf. split.
  - apply List.Forall_forall. intros name Hin.
    destruct (Hf name Hin) as (H1 & H2). auto.
  - intros Hno. apply List.Forall_forall. intros name Hin.
    destruct (Hf name Hin) as (H1 & _).
    rewrite (find_persons_fallback nlp text Hno) in H1.
    apply fallback_name in H1 as (Hn & Ho & _). auto.
Qed.

Lemma X15_relations_witness :
  (0 < length [mkItem (S_ "Burger") (dec 8 0) (S_ "Burger 8.00 John")])%nat
  /\ [S_ "Burger"; S_ "John"] <> [] /\ List.NoDup [S_ "Burger"; S_ "John"]
  /\ Forall (fun name =>
               In name (Nlp.find_persons None (S_ "Burger 8.00 John"))
               /\ (2 <= length (strip name))%nat) [S_ "Burger"; S_ "John"]
  /\ (no_model_persons None (S_ "Burger 8.00 John") ->
      Forall (fun name =>
                name_like name /\ occurs_in name (S_ "Burger 8.00 John"))
        [S_ "Burger"; S_ "John"]).
Proof.
  apply (X15_relations None
           [mkItem (S_ "Burger") (dec 8 0) (S_ "Burger 8.00 John")]
           (S_ "Burger 8.00 John") 0 [S_ "Burger"; S_ "John"]).
  vm_compute. reflexivity.
Defined.

(** ** Characters the normalizers ignore *)

Lemma keep_app (p : ascii -> bool) (u v : str) :
  keep p (u ++ v) = keep p u ++ keep p v.
Proof. unfold keep. apply List.filter_app. Qed.

Lemma keep_none (p q : ascii -> bool) (s : str) :
  (forall c, p c = true -> q c = false) ->
  forallb q s = true -> keep p s = [].
Proof.
  intros Hpq. unfold keep. induction s as [| c s IH]; simpl; [reflexivity |].
  intros H. apply andb_prop in H as [Hc Hs].
  destruct (p c) eqn:E; [| auto]. rewrite (Hpq c E) in Hc. discriminate.
Qed.

Lemma keep_strip (p : ascii -> bool) (s : str) :
  (forall c, p c = true -> isspace c = false) ->
  keep p (strip s) = keep p s.
Proof.
  intros Hp. destruct (strip_by_split isspace s) as (a & b & E & Ha & Hb).
  fold (strip s) in E. rewrite E at 2. rewrite !keep_app.
  rewrite (keep_none p isspace a Hp Ha), (keep_none p isspace b Hp Hb).
  rewrite app_nil_r. reflexivity.
Qed.

Lemma keep_keep (p : ascii -> bool) (s : str) : keep p (keep p s) = keep p s.
Proof.
  apply keep_id. apply forallb_forall. intros c Hc.
  apply filter_In in Hc as [_ Hc]. assumption.
Qed.

Lemma sep_not_space (c : ascii) :
  ascii_eqb c "." || ascii_eqb c "," || ascii_eqb c "-" = true ->
  isspace c = false.
Proof.
  intros H. apply orb_prop in H as [H | H]; [apply orb_prop in H as [H | H] |];
    apply ascii_eqb_eq in H; subst; reflexivity.
Qed.

Lemma num_char_not_space (c : ascii) : num_char c = true -> isspace c = false.
Proof.
  unfold num_char. destruct (isdigit c) eqn:E; [intros _ |].
  - apply digit_not_space. assumption.
  - simpl. intros H. apply sep_not_space. rewrite H. reflexivity.
Qed.

Lemma num_char_minus_not_space (c : ascii) :
  Ocr.num_char_minus c = true -> isspace c = false.
Proof.
  unfold Ocr.num_char_minus. destruct (isdigit c) eqn:E; [intros _ |].
  - apply digit_not_space. assumption.
  - simpl. intros H. apply sep_not_space.
    destruct (ascii_eqb c ","), (ascii_eqb c "."), (ascii_eqb c "-");
      simpl in *; congruence.
Qed.

Lemma existsb_keep (p q : ascii -> bool) (s : str) :
  (forall c, q c = true -> p c = true) ->
  existsb q (keep p s) = existsb q s.
Proof.
  intros Hqp. unfold keep. induction s as [| c s IH]; simpl; [reflexivity |].
  destruct (p c) eqn:Ep; simpl; rewrite IH; [reflexivity |].
  destruct (q c) eqn:Eq; [| reflexivity].
  rewrite (Hqp c Eq) in Ep. discriminate.
Qed.

Lemma nlp_normalizer_keep (tok : str) (ctx : option (list number)) :
  Nlp._clean_and_convert_token (Some tok) ctx
  = Nlp._clean_and_convert_token (Some (keep num_char tok)) ctx.
Proof.
  unfold Nlp._clean_and_convert_token. cbv zeta.
  rewrite !(keep_strip num_char) by apply num_char_not_space.
  rewrite keep_keep. reflexivity.
Qed.

Lemma ocr_normalizer_keep (tok : str) (ctx : option (list number)) :
  Ocr._normalize_number_token (Some tok) ctx
  = Ocr._normalize_number_token (Some (keep Ocr.num_char_minus tok)) ctx.
Proof.
  unfold Ocr._normalize_number_token. cbv zeta.
  rewrite !(keep_strip Ocr.num_char_minus) by apply num_char_minus_not_space.
  rewrite keep_keep. change (matches digit) with (matches (Chr isdigit)).
  rewrite !matches_chr.
  rewrite (existsb_keep Ocr.num_char_minus isdigit).
  2:{ intros c Hc. unfold Ocr.num_char_minus. rewrite Hc. reflexivity. }
  destruct (existsb isdigit tok) eqn:Ed.
  - assert (is_empty tok = false) as ->
      by (destruct tok; [discriminate | reflexivity]).
    assert (is_empty (keep Ocr.num_char_minus tok) = false) as ->;
      [| reflexivity].
    rewrite <- (existsb_keep Ocr.num_char_minus isdigit) in Ed.
    + destruct (keep Ocr.num_char_minus tok); [discriminate | reflexivity].
    + intros c Hc. unfold Ocr.num_char_minus. rewrite Hc. reflexivity.
  - rewrite !orb_true_r. reflexivity.
Qed.

(** X16.  Characters the normalizers ignore: [_clean_and_convert_token]
    gives the same outcome on a token and on what is left of it when
    every character other than a digit, a point or a comma is deleted, and
    [_normalize_number_token] likewise for digits, points, commas and
    hyphens.  Currency signs, letters and blanks anywhere in the token
    change nothing. *)
Theorem X16_normalizers_ignore_other_characters (tok : str)
    (ctx : option (list number)) :
  Nlp._clean_and_convert_token (Some tok) ctx
  = Nlp._clean_and_convert_token (Some (keep num_char tok)) ctx
  /\ Ocr._normalize_number_token (Some tok) ctx
     = Ocr._normalize_number_token (Some (keep Ocr.num_char_minus tok)) ctx.
Proof. split; [apply nlp_normalizer_keep | apply ocr_normalizer_keep]. Qed.

(** ** The two normalizers on the tokens the patterns capture *)

Lemma normalizers_agree_on_amounts (tok : str) (ctx : option (list number)) :
  amount_token tok = true ->
  Nlp._clean_and_convert_token (Some tok) ctx
  = Ocr._normalize_number_token (Some tok) ctx.
Proof.
  intros Htok. pose proof Htok as H. unfold amount_token in H.
  apply andb_prop in H as [H Hl]. apply andb_prop in H as [Ha Hf].
  assert (Hstrip : strip tok = tok).
  { apply strip_by_id; (eapply (first_is_weaken isdigit); [| eassumption]);
      intros c Hc; rewrite (digit_not_space c Hc); reflexivity. }
  unfold Nlp._clean_and_convert_token, Ocr._normalize_number_token.
  cbv zeta. rewrite Hstrip.
  rewrite (keep_id num_char tok Ha).
  rewrite (keep_id Ocr.num_char_minus tok).
  2:{ apply (forallb_weaken num_char); [| assumption].
      intros c. unfold num_char, Ocr.num_char_minus.
      destruct (isdigit c), (ascii_eqb c "."), (ascii_eqb c ","); simpl;
        congruence. }
  rewrite (digit_search tok Hf).
  destruct tok as [| c tok]; [discriminate |].
  change (is_empty (c :: tok)) with false. cbv iota. simpl negb. cbv iota.
  rewrite <- resolve_separators_agree.
  destruct (resolve_separators_shape (c :: tok) Htok) as (Hdd & Hfd & Hld).
  rewrite strip_by_id.
  2,3: (eapply (first_is_weaken isdigit); [| eassumption]);
       intros x Hx; rewrite (digit_not_sep "." x); auto.
  rewrite (keep_id Ocr.digit_or_dot _ Hdd).
  destruct (negb (fullmatch Ocr.plain_number_re
                    (Nlp.resolve_separators (c :: tok))));
    apply convert_agree.
Qed.

(** X17.  Every numeric token the two modules take out of a line: after
    a match of [_AMT_RE], of the phase-1 pattern, of [_NUM_TOKEN_RE] or of
    [_RIGHTMOST_NUM_RE] (by [search] or by [finditer]), the numeric group
    took part in the match; its text stands in the line, has 2 to 22
    characters, all of them digits, points or commas, with a digit first
    and last; and on it the two normalizers return, without raising, the
    same result for every context. *)
Theorem X17_captured_tokens (r : regex) (g : nat) (ln : str) (m : rematch) :
  In (r, g) token_patterns ->
  search r ln = Some m \/ In m (finditer r ln) ->
  exists t,
    group m g = Some t /\ numeric_token_of ln t
    /\ forall ctx, exists v,
         Nlp._clean_and_convert_token (Some t) ctx = Ret v
         /\ Ocr._normalize_number_token (Some t) ctx = Ret v.
Proof.
  intros Hp Hm. destruct (found_numeric r g ln m Hp Hm) as (t & Hg & Hn).
  exists t. split; [assumption |]. split; [assumption |].
  destruct Hn as (Ha & Hl & _). intros ctx.
  destruct (nlp_normalizer_returns (Some t) ctx) as [v Hv].
  { intros t' [= <-]. lia. }
  exists v. split; [assumption |].
  rewrite <- (normalizers_agree_on_amounts t ctx Ha). assumption.
Qed.

Lemma X17_captured_tokens_witness :
  exists t,
    group (ReMatch 4 (MState 8 (Some "0"%char) [] [(1%nat, S_ "4.50")])) 1
    = Some t
    /\ numeric_token_of (S_ "Tea 4.50") t
    /\ forall ctx, exists v,
         Nlp._clean_and_convert_token (Some t) ctx = Ret v
         /\ Ocr._normalize_number_token (Some t) ctx = Ret v.
Proof.
  apply (X17_captured_tokens Ocr._RIGHTMOST_NUM_RE 1 (S_ "Tea 4.50")).
  - simpl. auto.
  - left. vm_compute. reflexivity.
Defined.

(** ** What the results depend on *)

Lemma nlp_convert_context (s : str) (c1 c2 : option (list number)) :
  shows_decimals c1 = shows_decimals c2 ->
  Nlp.convert s c1 = Nlp.convert s c2.
Proof. intros H. unfold Nlp.convert. rewrite H. reflexivity. Qed.

Lemma nlp_normalizer_context (tok : option str)
    (c1 c2 : option (list number)) :
  shows_decimals c1 = shows_decimals c2 ->
  Nlp._clean_and_convert_token tok c1 = Nlp._clean_and_convert_token tok c2.
Proof.
  intros H. unfold Nlp._clean_and_convert_token.
  destruct tok as [tok |]; [| reflexivity]. cbv zeta.
  rewrite (nlp_convert_context _ c1 c2 H). reflexivity.
Qed.

Lemma ocr_normalizer_context (tok : option str)
    (c1 c2 : option (list number)) :
  shows_decimals c1 = shows_decimals c2 ->
  Ocr._normalize_number_token tok c1 = Ocr._normalize_number_token tok c2.
Proof.
  intros H. unfold Ocr._normalize_number_token, Ocr.convert.
  rewrite H. reflexivity.
Qed.

Lemma phase1_line_context (c1 c2 : list number) (ln : str) :
  shows_decimals (Some c1) = shows_decimals (Some c2) ->
  Nlp.phase1_line c1 ln = Nlp.phase1_line c2 ln.
Proof.
  intros H. unfold Nlp.phase1_line.
  destruct (_ && _); [reflexivity |].
  destruct (search Nlp.total_kw_re ln); [| reflexivity].
  rewrite (nlp_normalizer_context _ _ _ H). reflexivity.
Qed.

Lemma phase1_context (c1 c2 : list number) (lns : list str) :
  shows_decimals (Some c1) = shows_decimals (Some c2) ->
  Nlp.phase1 c1 lns = Nlp.phase1 c2 lns.
Proof.
  intros H. induction lns as [| ln lns IH]; simpl; [reflexivity |].
  rewrite (phase1_line_context c1 c2 ln H), IH. reflexivity.
Qed.

Lemma line_candidates_context (c1 c2 : list number) (ln : str)
    (ms : list rematch) :
  shows_decimals (Some c1) = shows_decimals (Some c2) ->
  Nlp.line_candidates c1 ln ms = Nlp.line_candidates c2 ln ms.
Proof.
  intros H. induction ms as [| m ms IH]; simpl; [reflexivity |].
  rewrite (nlp_normalizer_context _ _ _ H), IH. reflexivity.
Qed.

Lemma phase2_candidates_context (c1 c2 : list number) (lns : list str) :
  shows_decimals (Some c1) = shows_decimals (Some c2) ->
  Nlp.phase2_candidates c1 lns = Nlp.phase2_candidates c2 lns.
Proof.
  intros H. induction lns as [| ln lns IH]; simpl; [reflexivity |].
  rewrite (line_candidates_context c1 c2 ln _ H), IH. reflexivity.
Qed.

Lemma last_n_last_n {A} (n k : nat) (l : list A) :
  (n <= k)%nat -> last_n n (last_n k l) = last_n n l.
Proof.
  intros Hnk. unfold last_n. rewrite skipn_skipn, length_skipn.
  f_equal. lia.
Qed.

(** X18.  What a total depends on: two non-empty texts with the same last
    20 non-empty stripped lines, and in which the context numbers agree on
    whether one of them has a fractional part, get the same result from
    [find_total_amount].  Earlier lines, blank lines and white space
    around a line matter in no other way. *)
Theorem X18_total_window (t1 t2 : str) :
  is_empty t1 = false -> is_empty t2 = false ->
  last_n 20 (stripped_lines t1) = last_n 20 (stripped_lines t2) ->
  shows_decimals (Some (Nlp.context_numbers_of (stripped_lines t1)))
  = shows_decimals (Some (Nlp.context_numbers_of (stripped_lines t2))) ->
  Nlp.find_total_amount (Some t1) = Nlp.find_total_amount (Some t2).
Proof.
  intros E1 E2 Hw Hc. unfold Nlp.find_total_amount. rewrite E1, E2.
  cbv zeta.
  rewrite <- (last_n_last_n 12 20 (stripped_lines t1)) by lia.
  rewrite <- (last_n_last_n 12 20 (stripped_lines t2)) by lia.
  rewrite Hw.
  rewrite (phase1_context _ _ _ Hc), (phase2_candidates_context _ _ _ Hc).
  reflexivity.
Qed.

Lemma X18_total_window_witness :
  Nlp.find_total_amount (Some (S_ "Shop 12345
Tea 4.50"))
  = Nlp.find_total_amount (Some (S_ "  Shop 12345

Tea 4.50  ")).
Proof.
  apply X18_total_window; vm_compute; reflexivity.
Defined.

Lemma line_item_context (c1 c2 : list number) (ln : str) :
  shows_decimals (Some c1) = shows_decimals (Some c2) ->
  Ocr.line_item c1 ln = Ocr.line_item c2 ln.
Proof.
  intros H. unfold Ocr.line_item.
  destruct (Ocr._is_metadata_line ln); [reflexivity |].
  destruct (match search Ocr._RIGHTMOST_NUM_RE ln with
            | Some _ => _ | None => _ end) as [chosen |]; [| reflexivity].
  destruct (is_empty chosen); [reflexivity |].
  rewrite (ocr_normalizer_context (Some chosen)
             (if is_empty c1 then None else Some c1)
             (if is_empty c2 then None else Some c2)); [reflexivity |].
  destruct c1, c2; simpl in *; auto; try discriminate.
Qed.

Lemma items_of_complete (ctx : list number) (lns : list str)
    (items : list Item) (ln : str) (it : Item) :
  Ocr.items_of ctx lns = Ret items -> In ln lns ->
  Ocr.line_item ctx ln = Ret (Some it) -> In it items.
Proof.
  revert items. induction lns as [| l lns IH]; simpl; intros items H Hin Hl;
    [destruct Hin |].
  destruct (Ocr.line_item ctx l) as [o | e] eqn:E; simpl in H;
    [| discriminate].
  destruct (Ocr.items_of ctx lns) as [its | e]; simpl in H; [| discriminate].
  injection H as <-. destruct Hin as [-> | Hin].
  - rewrite Hl in E. injection E as <-. left. reflexivity.
  - specialize (IH its eq_refl Hin Hl). destruct o; [right |]; assumption.
Qed.

(** X19.  What an item depends on: when two texts agree on whether one
    of their context numbers has a fractional part, an item that
    [extract_lines_with_prices] returns for the first text, and whose raw
    line is also a line of the second, is returned for the second text
    too.  An item is a function of its own line and of that one bit. *)
Theorem X19_item_line_local (t1 t2 : str) (items1 items2 : list Item)
    (it : Item) :
  Ocr.extract_lines_with_prices (Some t1) = Ret items1 ->
  Ocr.extract_lines_with_prices (Some t2) = Ret items2 ->
  shows_decimals (Some (Ocr.context_numbers_of (stripped_lines t1)))
  = shows_decimals (Some (Ocr.context_numbers_of (stripped_lines t2))) ->
  In it items1 -> In (raw_line it) (stripped_lines t2) -> In it items2.
Proof.
  unfold Ocr.extract_lines_with_prices.
  destruct (is_empty t1); [intros [= <-] _ _ [] |].
  destruct (is_empty t2) eqn:E2.
  { destruct t2; [| discriminate]. intros _ _ _ _ []. }
  cbv zeta. intros H1 H2 Hc Hin Hl.
  destruct (items_of_from_line _ _ _ _ H1 Hin) as (ln & _ & Hln).
  pose proof (line_item_source _ _ _ Hln) as [Hraw _]. rewrite Hraw in Hl.
  rewrite (line_item_context _ _ ln Hc) in Hln.
  eapply items_of_complete; eassumption.
Qed.

Lemma X19_item_line_local_witness :
  In (mkItem (S_ "Tea") (dec 45 1) (S_ "Tea 4.50"))
     [mkItem (S_ "Bun") (dec 125 2) (S_ "Bun 1.25");
      mkItem (S_ "Tea") (dec 45 1) (S_ "Tea 4.50")].
Proof.
  apply (X19_item_line_local (S_ "Tea 4.50") (S_ "Bun 1.25
Tea 4.50")
           [mkItem (S_ "Tea") (dec 45 1) (S_ "Tea 4.50")]).
  - vm_compute. reflexivity.
  - vm_compute. reflexivity.
  - vm_compute. reflexivity.
  - left. reflexivity.
  - vm_compute. auto.
Defined.

(** ** The rightmost pattern finds the longest numeric end of a line *)

Lemma rep_loop_step (m : mstate -> (mstate -> option mstate) -> option mstate)
    (lo : nat) (hi : option nat) (k : mstate -> option mstate)
    (fuel cnt : nat) (st : mstate) :
  rep_loop m lo hi k (Datatypes.S fuel) cnt st
  = if match hi with Some h => (cnt <? h)%nat | None => true end
    then
      match m st (fun st' => if (pos st <? pos st')%nat
                             then rep_loop m lo hi k fuel (Datatypes.S cnt) st'
                             else None) with
      | Some e => Some e
      | None => if (lo <=? cnt)%nat then k st else None
      end
    else if (lo <=? cnt)%nat then k st else None.
Proof. reflexivity. Qed.

Lemma rep_loop_zero (m : mstate -> (mstate -> option mstate) -> option mstate)
    (lo : nat) (hi : option nat) (k : mstate -> option mstate)
    (cnt : nat) (st : mstate) :
  rep_loop m lo hi k 0 cnt st = if (lo <=? cnt)%nat then k st else None.
Proof. reflexivity. Qed.

Lemma rmatch_chr_cons (p : ascii -> bool) (x : ascii) (s : str) (i : nat)
    (pv : option ascii) (c : list (nat * str))
    (k : mstate -> option mstate) :
  p x = true ->
  rmatch (Chr p) (MState i pv (x :: s) c) k
  = k (MState (Datatypes.S i) (Some x) s c).
Proof. intros H. simpl. rewrite H. reflexivity. Qed.

(** A greedy repetition of a character class finds every way of going on
    that takes some of the characters available. *)
Lemma rep_loop_chr_complete (p : ascii -> bool) (lo : nat) (hi : option nat)
    (k : mstate -> option mstate) :
  forall w fuel cnt i pv s' c,
    forallb p w = true ->
    (length (w ++ s') < fuel)%nat ->
    (lo <= cnt + length w)%nat -> within hi (cnt + length w) ->
    is_Some (k (MState (i + length w) (fold_left (fun _ x => Some x) w pv)
                  s' c)) ->
    is_Some (rep_loop (rmatch (Chr p)) lo hi k fuel cnt
               (MState i pv (w ++ s') c)).
Proof.
  induction w as [| x w IH]; intros fuel cnt i pv s' c Hp Hf Hlo Hhi Hk.
  - cbn [length app fold_left] in *. rewrite Nat.add_0_r in *.
    assert ((lo <=? cnt)%nat = true) as Hle by (apply Nat.leb_le; lia).
    destruct fuel as [| fuel]; [lia |]. rewrite rep_loop_step.
    destruct (match hi with Some h => (cnt <? h)%nat | None => true end);
      [| rewrite Hle; assumption].
    match goal with
    | |- context [rmatch (Chr p) ?s ?k'] => destruct (rmatch (Chr p) s k')
    end; [eauto |]. rewrite Hle. assumption.
  - simpl in Hp. apply andb_prop in Hp as [Hx Hp].
    cbn [length app fold_left] in *.
    destruct fuel as [| fuel]; [lia |]. rewrite rep_loop_step.
    assert (match hi with Some h => (cnt <? h)%nat | None => true end = true)
      as ->.
    { destruct hi as [h |]; [| reflexivity]. unfold within in Hhi.
      apply Nat.ltb_lt. lia. }
    rewrite rmatch_chr_cons by assumption. cbn [pos].
    replace (i <? Datatypes.S i)%nat with true
      by (symmetry; apply Nat.ltb_lt; lia).
    specialize (IH fuel (Datatypes.S cnt) (Datatypes.S i) (Some x) s' c Hp).
    destruct IH as [e He].
    + lia.
    + lia.
    + destruct hi; unfold within in *; [lia | exact I].
    + replace (Datatypes.S i + length w)%nat
        with (i + Datatypes.S (length w))%nat by lia. assumption.
    + rewrite He. eauto.
Qed.

Lemma amount_token_parts (t : str) :
  amount_token t = true -> (2 <= length t <= 22)%nat ->
  exists d mid d',
    t = d :: mid ++ [d'] /\ isdigit d = true /\ isdigit d' = true
    /\ forallb num_char mid = true /\ (length mid <= 20)%nat.
Proof.
  unfold amount_token, last_is. intros H Hl.
  apply andb_prop in H as [H Hlast]. apply andb_prop in H as [Hall Hfirst].
  destruct t as [| d t]; [discriminate |]. simpl in Hfirst.
  destruct t as [| x t] using rev_ind; [simpl in Hl; lia |]. clear IHt.
  exists d, t, x. simpl in Hlast, Hall, Hl.
  rewrite rev_app_distr in Hlast. simpl in Hlast.
  apply andb_prop in Hall as [_ Hall]. rewrite forallb_app in Hall.
  apply andb_prop in Hall as [Hall _]. rewrite length_app in Hl. simpl in Hl.
  split; [reflexivity |]. split; [assumption |]. split; [assumption |].
  split; [assumption | lia].
Qed.

(** The numeric pattern matches a numeric token, whatever follows, when
    the rest of the pattern matches after it. *)
Lemma rmatch_num_tok_complete (t s' : str) (k : mstate -> option mstate)
    (i : nat) (pv : option ascii) (c : list (nat * str)) :
  amount_token t = true -> (2 <= length t <= 22)%nat ->
  (forall pv', is_Some (k (MState (i + length t) pv' s' c))) ->
  is_Some (rmatch num_tok (MState i pv (t ++ s') c) k).
Proof.
  intros Ht Hl Hk.
  destruct (amount_token_parts t Ht Hl)
    as (d & mid & d' & -> & Hd & Hd' & Hm & Hlen).
  unfold num_tok. rewrite !rmatch_seq.
  unfold digit at 1. cbn [app]. rewrite rmatch_chr_cons by assumption.
  cbv beta. rewrite rmatch_seq, rmatch_rep. cbn [rest].
  rewrite <- app_assoc.
  apply rep_loop_chr_complete; try assumption; [lia | lia |].
  cbv beta. unfold digit. cbn [app].
  rewrite rmatch_chr_cons by assumption.
  specialize (Hk (Some d')). cbn [length] in Hk. rewrite length_app in Hk.
  cbn [length] in Hk.
  replace (Datatypes.S (Datatypes.S i + length mid))
    with (i + Datatypes.S (length mid + 1))%nat by lia.
  assumption.
Qed.

Lemma search_at_leftmost (r : regex) (a s : str) :
  forall i pv,
    (forall pv', is_Some (rmatch r (MState (i + length a) pv' s []) Some)) ->
    exists m,
      search_at r i pv (a ++ s) = Some m /\ (m_start m <= i + length a)%nat.
Proof.
  induction a as [| c a IH]; intros i pv H.
  - simpl in H. rewrite Nat.add_0_r in H. specialize (H pv).
    destruct H as [e He]. simpl.
    exists (ReMatch i e). split; [| simpl; lia].
    destruct s; [rewrite search_at_nil | rewrite search_at_cons];
      rewrite He; reflexivity.
  - simpl app. rewrite search_at_cons.
    destruct (rmatch r _ Some) as [e |].
    + exists (ReMatch i e). split; [reflexivity | simpl; lia].
    + destruct (IH (Datatypes.S i) (Some c)) as (m & Hm & Hs).
      * intros pv'. simpl in H.
        replace (Datatypes.S i + length a)%nat
          with (i + Datatypes.S (length a))%nat by lia. apply H.
      * exists m. split; [assumption | simpl; lia].
Qed.

Lemma numeric_suffix_found (ln a t : str) :
  last_is isspace ln = false -> ln = a ++ t ->
  amount_token t = true -> (2 <= length t <= 22)%nat ->
  exists m a' t',
    search Ocr._RIGHTMOST_NUM_RE ln = Some m /\ group m 1 = Some t'
    /\ ln = a' ++ t' /\ amount_token t' = true
    /\ (length t <= length t' <= 22)%nat.
Proof.
  intros Hl -> Ht Hlen.
  destruct (search_at_leftmost Ocr._RIGHTMOST_NUM_RE a t 0 None)
    as (m & Hm & Hstart).
  { intros pv'. unfold Ocr._RIGHTMOST_NUM_RE.
    rewrite rmatch_seq, rmatch_grp.
    rewrite <- (app_nil_r t) at 1.
    apply rmatch_num_tok_complete; try assumption.
    intros pv''. simpl. eauto. }
  fold (search Ocr._RIGHTMOST_NUM_RE (a ++ t)) in Hm.
  destruct (rightmost_match _ m Hl Hm) as (a' & t' & E & Hg & Hst).
  destruct (found_numeric Ocr._RIGHTMOST_NUM_RE 1 (a ++ t) m)
    as (t'' & Hg' & Hn); [simpl; auto | auto |].
  assert (t'' = t') as -> by congruence.
  destruct Hn as (Ha' & Hl' & _).
  exists m, a', t'. split; [assumption |]. split; [assumption |].
  split; [assumption |]. split; [assumption |].
  apply (f_equal (@length ascii)) in E. rewrite !length_app in E.
  unfold str in *. lia.
Qed.

Lemma longer_suffix (a t a' t' : str) :
  a ++ t = a' ++ t' -> (length t <= length t')%nat ->
  exists x, a = a' ++ x /\ t' = x ++ t.
Proof.
  revert a'. induction a as [| c a IH]; intros a' E Hl.
  - destruct a' as [| c' a'].
    + exists []. simpl in E. split; [reflexivity | symmetry; assumption].
    + exfalso. simpl in E. apply (f_equal (@length ascii)) in E.
      simpl in E. rewrite length_app in E. lia.
  - destruct a' as [| c' a'].
    + exists (c :: a). simpl in E. split; [reflexivity | symmetry; assumption].
    + simpl in E. injection E as -> E.
      destruct (IH a' E Hl) as (x & -> & ->). exists x. auto.
Qed.

Lemma numeric_suffix_same (a t a' t' : str) :
  a ++ t = a' ++ t' -> (length t <= length t')%nat ->
  forallb num_char t' = true -> last_is num_char a = false -> t' = t.
Proof.
  intros E Hl Hall Ha.
  destruct (longer_suffix a t a' t' E Hl) as (x & -> & ->).
  destruct x as [| c x] using rev_ind; [reflexivity |]. exfalso.
  unfold last_is in Ha. rewrite app_assoc, rev_app_distr in Ha. simpl in Ha.
  rewrite !forallb_app in Hall. simpl in Hall. rewrite Ha in Hall.
  rewrite andb_false_r in Hall. discriminate.
Qed.

Lemma line_item_found (ctx : list number) (ln : str) (m : rematch)
    (t : str) (v : float) :
  Ocr._is_metadata_line ln = false ->
  search Ocr._RIGHTMOST_NUM_RE ln = Some m -> group m 1 = Some t ->
  t <> [] ->
  Ocr._normalize_number_token (Some t)
    (if is_empty ctx then None else Some ctx) = Ret (Some v) ->
  fleb v f0 || fltb f1e6 v = false ->
  Ocr.line_item ctx ln
  = Ret (Some (mkItem (if is_empty (Ocr.describe t ln) then S_ "(item)"
                       else Ocr.describe t ln)
                      (py_round v 2) ln)).
Proof.
  intros Hmeta Hm Hg Hne Hv Hrange. unfold Ocr.line_item.
  rewrite Hmeta, Hm. cbv iota beta. rewrite Hg.
  destruct t as [| c t]; [congruence |].
  change (is_empty (c :: t)) with false. cbv iota.
  rewrite Hv. simpl. rewrite Hrange. reflexivity.
Qed.

(** X20.  A line that ends with a price yields an item: take a non-empty
    stripped line that is not a metadata line and ends with a numeric
    token [t] (2 to 22 characters of digits, points and commas, a digit
    first and last).  The token read is the longest such end of the line
    (it is [t] itself when the character before [t] is not a digit, a
    point or a comma), and whenever its normalized value passes the range
    check, the result holds the item of that line with that value rounded
    to two decimals as its price. *)
Theorem X20_line_with_price_yields_item (raw_text : str) (items : list Item)
    (ln a t : str) :
  Ocr.extract_lines_with_prices (Some raw_text) = Ret items ->
  In ln (stripped_lines raw_text) ->
  Ocr._is_metadata_line ln = false ->
  ln = a ++ t -> amount_token t = true -> (2 <= length t <= 22)%nat ->
  exists a' t',
    ln = a' ++ t' /\ amount_token t' = true
    /\ (length t <= length t' <= 22)%nat
    /\ (last_is num_char a = false -> t' = t)
    /\ forall v,
         Ocr._normalize_number_token (Some t')
           (if is_empty (Ocr.context_numbers_of (stripped_lines raw_text))
            then None
            else Some (Ocr.context_numbers_of (stripped_lines raw_text)))
         = Ret (Some v) ->
         fleb v f0 || fltb f1e6 v = false ->
         In (mkItem (if is_empty (Ocr.describe t' ln) then S_ "(item)"
                     else Ocr.describe t' ln)
                    (py_round v 2) ln) items.
Proof.
  unfold Ocr.extract_lines_with_prices.
  destruct (is_empty raw_text) eqn:Ee.
  { destruct raw_text; [| discriminate]. intros _ []. }
  cbv zeta. intros H Hin Hmeta E Ht Hlen.
  pose proof (stripped_lines_spec _ _ Hin) as (_ & [_ Hlast] & _).
  destruct (numeric_suffix_found ln a t Hlast E Ht Hlen)
    as (m & a' & t' & Hm & Hg & E' & Ht' & Hlen').
  exists a', t'. split; [assumption |]. split; [assumption |].
  split; [assumption |]. split.
  - intros Ha. apply (numeric_suffix_same a t a' t'); try assumption.
    + congruence.
    + lia.
    + unfold amount_token in Ht'. apply andb_prop in Ht' as [Ht' _].
      apply andb_prop in Ht' as [Ht' _]. assumption.
  - intros v Hv Hrange.
    eapply items_of_complete; [eassumption | eassumption |].
    apply (line_item_found _ ln m t' v); try assumption.
    intros ->. simpl in Hlen'. lia.
Qed.

Lemma X20_line_with_price_yields_item_witness :
  exists a' t',
    S_ "Tea 4.50" = a' ++ t' /\ amount_token t' = true
    /\ (length (S_ "4.50") <= length t' <= 22)%nat
    /\ (last_is num_char (S_ "Tea ") = false -> t' = S_ "4.50")
    /\ forall v,
         Ocr._normalize_number_token (Some t')
           (if is_empty (Ocr.context_numbers_of
                           (stripped_lines (S_ "Bun 1.25
Tea 4.50")))
            then None
            else Some (Ocr.context_numbers_of
                         (stripped_lines (S_ "Bun 1.25
Tea 4.50"))))
         = Ret (Some v) ->
         fleb v f0 || fltb f1e6 v = false ->
         In (mkItem (if is_empty (Ocr.describe t' (S_ "Tea 4.50"))
                     then S_ "(item)"
                     else Ocr.describe t' (S_ "Tea 4.50"))
                    (py_round v 2) (S_ "Tea 4.50"))
            [mkItem (S_ "Bun") (dec 125 2) (S_ "Bun 1.25");
             mkItem (S_ "Tea") (dec 45 1) (S_ "Tea 4.50")].
Proof.
  apply (X20_line_with_price_yields_item (S_ "Bun 1.25
Tea 4.50") _ (S_ "Tea 4.50") (S_ "Tea ") (S_ "4.50")).
  - vm_compute. reflexivity.
  - vm_compute. auto.
  - vm_compute. reflexivity.
  - reflexivity.
  - reflexivity.
  - simpl. lia.
Defined.

(** ** Lines with fewer than two digits *)

Lemma numeric_two_digits (ln t : str) :
  numeric_token_of ln t -> (2 <= length (keep isdigit ln))%nat.
Proof.
  intros (Ha & Hl & (a & b & ->)).
  destruct (amount_token_parts t Ha Hl) as (d & mid & d' & -> & Hd & Hd' & _).
  rewrite !keep_app.
  change (d :: mid ++ [d']) with ([d] ++ mid ++ [d']).
  rewrite !keep_app, !length_app. unfold keep at 2 4. simpl.
  rewrite Hd, Hd'. simpl. lia.
Qed.

Lemma items_two_digits (raw_text : str) (items : list Item) (it : Item) :
  Ocr.extract_lines_with_prices (Some raw_text) = Ret items ->
  In it items ->
  In (raw_line it) (stripped_lines raw_text)
  /\ (2 <= length (keep isdigit (raw_line it)))%nat.
Proof.
  unfold Ocr.extract_lines_with_prices.
  destruct (is_empty raw_text); [intros [= <-] [] |]. cbv zeta.
  intros H Hin.
  destruct (items_of_from_line _ _ _ _ H Hin) as (ln & Hl & Hln).
  apply line_item_source in Hln as (-> & _ & tok & v & Hn & _).
  split; [assumption |]. eapply numeric_two_digits. eassumption.
Qed.

(** X21.  Lines with fewer than two digits give nothing: a numeric token
    has at least two characters, so when no non-empty line of the text
    holds two digits, [extract_lines_with_prices] returns no item and
    [find_total_amount] returns [None].  A price written with a single
    digit, as in "Tea 5", is never read. *)
Theorem X21_single_digit_lines_ignored (raw_text : str) :
  (forall ln, In ln (stripped_lines raw_text) ->
              (length (keep isdigit ln) <= 1)%nat) ->
  Ocr.extract_lines_with_prices (Some raw_text) = Ret []
  /\ Nlp.find_total_amount (Some raw_text) = Ret None.
Proof.
  intros Hall. split.
  - destruct (items_of_returns
                (Ocr.context_numbers_of (stripped_lines raw_text))
                (stripped_lines raw_text)) as [items H].
    assert (Ocr.extract_lines_with_prices (Some raw_text) = Ret items) as E.
    { unfold Ocr.extract_lines_with_prices.
      destruct (is_empty raw_text) eqn:Ee; [| assumption].
      destruct raw_text; [| discriminate]. simpl in H. congruence. }
    destruct items as [| it items]; [assumption |]. exfalso.
    destruct (items_two_digits raw_text _ it E) as [Hin Hd];
      [left; reflexivity |].
    specialize (Hall _ Hin). lia.
  - destruct (phase1_returns
                (Nlp.context_numbers_of (stripped_lines raw_text))
                (rev (last_n 12 (stripped_lines raw_text)))) as [r1 H1].
    destruct (phase2_candidates_returns
                (Nlp.context_numbers_of (stripped_lines raw_text))
                (rev (last_n 20 (stripped_lines raw_text)))) as [cs H2].
    destruct (Nlp.find_total_amount (Some raw_text)) as [[r |] | e] eqn:E.
    + exfalso. apply total_source in E as (ln & tok & v & Hin & Hn & _).
      apply in_skipn in Hin. apply numeric_two_digits in Hn.
      specialize (Hall _ Hin). lia.
    + reflexivity.
    + exfalso. unfold Nlp.find_total_amount in E.
      destruct (is_empty raw_text); [discriminate |]. cbv zeta in E.
      rewrite H1 in E. simpl in E. destruct r1; [discriminate |].
      rewrite H2 in E. discriminate.
Qed.

Lemma X21_single_digit_lines_ignored_witness :
  Ocr.extract_lines_with_prices (Some (S_ "Tea 5
Bun 7")) = Ret []
  /\ Nlp.find_total_amount (Some (S_ "Tea 5
Bun 7")) = Ret None.
Proof.
  apply (X21_single_digit_lines_ignored (S_ "Tea 5
Bun 7")).
  intros ln [<- | [<- | []]]; vm_compute; lia.
Defined.

(** ** The value of a token with at most one separator *)

Lemma digits_no_sep (c : ascii) (s : str) :
  isdigit c = false -> forallb isdigit s = true -> has_char c s = false.
Proof.
  intros Hc Hs. unfold has_char. apply not_true_is_false. intros E.
  apply existsb_exists in E as (x & Hin & Hx). apply ascii_eqb_eq in Hx.
  subst x. rewrite forallb_forall in Hs. rewrite (Hs c Hin) in Hc.
  discriminate.
Qed.

Lemma has_char_app (c : ascii) (u v : str) :
  has_char c (u ++ v) = has_char c u || has_char c v.
Proof. apply existsb_app. Qed.

Lemma has_char_here (c : ascii) (s : str) : has_char c (c :: s) = true.
Proof.
  unfold has_char. simpl. unfold ascii_eqb. rewrite Ascii.eqb_refl.
  reflexivity.
Qed.

Lemma eqb_swap (a b : ascii) : ascii_eqb a b = ascii_eqb b a.
Proof. apply Ascii.eqb_sym. Qed.

Lemma split_none (c : ascii) (s : str) :
  has_char c s = false -> split c s = [s].
Proof.
  induction s as [| x s IH]; simpl; [reflexivity |].
  unfold has_char. simpl. intros H. apply orb_false_elim in H as [Hx Hs].
  rewrite eqb_swap, Hx. rewrite (IH Hs). reflexivity.
Qed.

Lemma split_at (c : ascii) (u v : str) :
  has_char c u = false -> split c (u ++ c :: v) = u :: split c v.
Proof.
  induction u as [| x u IH]; simpl.
  - intros _. unfold ascii_eqb. rewrite Ascii.eqb_refl. reflexivity.
  - unfold has_char. simpl. intros H. apply orb_false_elim in H as [Hx Hu].
    rewrite eqb_swap, Hx. rewrite (IH Hu). reflexivity.
Qed.

Lemma replace_none (c : ascii) (b s : str) :
  has_char c s = false -> replace c b s = s.
Proof.
  unfold replace. induction s as [| x s IH]; simpl; [reflexivity |].
  unfold has_char. simpl. intros H. apply orb_false_elim in H as [Hx Hs].
  rewrite eqb_swap, Hx. simpl. f_equal. apply IH. assumption.
Qed.

Lemma replace_at (c : ascii) (b u v : str) :
  has_char c u = false -> has_char c v = false ->
  replace c b (u ++ c :: v) = u ++ b ++ v.
Proof.
  intros Hu Hv. rewrite replace_app, (replace_none c b u Hu).
  change (c :: v) with ([c] ++ v). rewrite replace_app.
  rewrite (replace_none c b v Hv). unfold replace. simpl.
  unfold ascii_eqb. rewrite Ascii.eqb_refl, app_nil_r. reflexivity.
Qed.

Lemma digits_value_total (s : str) :
  forallb isdigit s = true -> forall acc, exists n, digits_value acc s = Some n.
Proof.
  induction s as [| c s IH]; simpl; intros H acc; [eauto |].
  apply andb_prop in H as [Hc Hs]. rewrite Hc. apply IH. assumption.
Qed.

Lemma digits_amount_token (i f : str) (sep : ascii) :
  i <> [] -> f <> [] ->
  forallb isdigit i = true -> forallb isdigit f = true ->
  num_char sep = true ->
  amount_token (i ++ sep :: f) = true.
Proof.
  intros Hi Hf Di Df Hsep. unfold amount_token.
  assert (forall s, forallb isdigit s = true -> forallb num_char s = true)
    as Hnum.
  { intros s. apply forallb_weaken. intros c Hc. unfold num_char.
    rewrite Hc. reflexivity. }
  rewrite forallb_app. simpl. rewrite (Hnum i Di), Hsep, (Hnum f Df). simpl.
  destruct i as [| c i]; [congruence |]. simpl in Di |- *.
  apply andb_prop in Di as [Dc _]. rewrite Dc. simpl.
  unfold last_is. change (c :: i ++ sep :: f) with ((c :: i) ++ sep :: f).
  rewrite rev_app_distr. simpl.
  destruct f as [| x f] using rev_ind; [congruence |].
  rewrite rev_app_distr. simpl. rewrite forallb_app in Df.
  apply andb_prop in Df as [_ Dx]. simpl in Dx.
  destruct (isdigit x); [reflexivity | discriminate].
Qed.

Lemma nlp_normalizer_on_amount (tok : str) (ctx : option (list number)) :
  amount_token tok = true ->
  Nlp._clean_and_convert_token (Some tok) ctx
  = Nlp.convert (Nlp.resolve_separators tok) ctx.
Proof.
  intros Htok. pose proof Htok as H. unfold amount_token in H.
  apply andb_prop in H as [H Hl]. apply andb_prop in H as [Ha Hf].
  assert (Hstrip : strip tok = tok).
  { apply strip_by_id; (eapply (first_is_weaken isdigit); [| eassumption]);
      intros c Hc; rewrite (digit_not_space c Hc); reflexivity. }
  unfold Nlp._clean_and_convert_token. cbv zeta.
  rewrite Hstrip, (keep_id num_char tok Ha).
  destruct tok; [discriminate | reflexivity].
Qed.

Lemma py_float_decimal (i f : str) (n : Z) :
  i <> [] -> forallb isdigit i = true -> forallb isdigit f = true ->
  digits_value 0 (i ++ f) = Some n ->
  py_float (i ++ "."%char :: f) = Some (dec n (length f)).
Proof.
  intros Hi Di Df Hn. unfold py_float.
  rewrite split_at by (apply digits_no_sep; [reflexivity | assumption]).
  rewrite split_none by (apply digits_no_sep; [reflexivity | assumption]).
  destruct i as [| c i]; [congruence |]. simpl app in *.
  rewrite Hn. reflexivity.
Qed.

(** X22.  A decimal token is read at face value: for digit strings [i]
    and [f], both normalizers read "i.f" with one or two digits after the
    point, and "i,f" with any number of digits after the comma other than
    three, as the decimal number i.f (correctly rounded), whatever the
    context. *)
Theorem X22_decimal_token_at_face_value (i f : str) (sep : ascii)
    (ctx : option (list number)) :
  i <> [] -> f <> [] ->
  forallb isdigit i = true -> forallb isdigit f = true ->
  (sep = "."%char /\ (length f <= 2)%nat)
  \/ (sep = ","%char /\ length f <> 3%nat) ->
  exists n,
    digits_value 0 (i ++ f) = Some n
    /\ Nlp._clean_and_convert_token (Some (i ++ sep :: f)) ctx
       = Ret (Some (dec n (length f)))
    /\ Ocr._normalize_number_token (Some (i ++ sep :: f)) ctx
       = Ret (Some (dec n (length f))).
Proof.
  intros Hi Hf Di Df Hsep.
  destruct (digits_value_total (i ++ f)) with (acc := 0) as [n Hn].
  { rewrite forallb_app, Di, Df. reflexivity. }
  exists n. split; [assumption |].
  assert (amount_token (i ++ sep :: f) = true) as Ht.
  { apply digits_amount_token; try assumption.
    destruct Hsep as [[-> _] | [-> _]]; reflexivity. }
  assert (Nlp._clean_and_convert_token (Some (i ++ sep :: f)) ctx
          = Ret (Some (dec n (length f)))) as HN;
    [| split; [exact HN |]; rewrite <- HN; symmetry;
       apply normalizers_agree_on_amounts; exact Ht].
  etransitivity; [apply nlp_normalizer_on_amount; exact Ht |].
  assert (Nlp.resolve_separators (i ++ sep :: f) = i ++ "."%char :: f) as ->.
  { unfold Nlp.resolve_separators.
    destruct Hsep as [[-> Hlen] | [-> Hlen]].
    - rewrite !has_char_app, has_char_here.
      rewrite (digits_no_sep "." i), (digits_no_sep "," i) by auto.
      change (has_char "," ("."%char :: f)) with (has_char "," f).
      rewrite (digits_no_sep "," f) by auto. simpl.
      rewrite split_at, split_none
        by (apply digits_no_sep; [reflexivity | assumption]).
      unfold last_part, len. simpl.
      destruct (Z.ltb_spec 2 (Z.of_nat (length f))); [lia | reflexivity].
    - rewrite !has_char_app, has_char_here.
      rewrite (digits_no_sep "." i), (digits_no_sep "," i) by auto.
      change (has_char "." (","%char :: f)) with (has_char "." f).
      rewrite (digits_no_sep "." f) by auto. simpl.
      rewrite split_at, split_none
        by (apply digits_no_sep; [reflexivity | assumption]).
      unfold last_part, len. simpl.
      rewrite replace_at by (apply digits_no_sep; [reflexivity | assumption]).
      destruct (Z.of_nat (length f) =? 2); [reflexivity |].
      destruct (Z.eqb_spec (Z.of_nat (length f)) 3); [lia | reflexivity]. }
  unfold Nlp.convert. rewrite has_char_app, has_char_here, orb_true_r.
  rewrite (py_float_decimal i f n); auto.
Qed.

Lemma X22_decimal_token_at_face_value_witness :
  exists n,
    digits_value 0 (S_ "12" ++ S_ "50") = Some n
    /\ Nlp._clean_and_convert_token (Some (S_ "12" ++ ","%char :: S_ "50"))
         None
       = Ret (Some (dec n (length (S_ "50"))))
    /\ Ocr._normalize_number_token (Some (S_ "12" ++ ","%char :: S_ "50"))
         None
       = Ret (Some (dec n (length (S_ "50")))).
Proof.
  apply (X22_decimal_token_at_face_value (S_ "12") (S_ "50") ","%char None);
    try discriminate; try reflexivity.
  right. split; [reflexivity | simpl; lia].
Defined.

Lemma nlp_convert_integer (t : str) (ctx : option (list number)) (n : Z)
    (x : float) :
  t <> [] -> forallb isdigit t = true ->
  (length t <= int_max_str_digits)%nat ->
  digits_value 0 t = Some n -> py_float_of_int n = Ret x ->
  Nlp.convert t ctx
  = Ret (Some (if (length t <=? 3)%nat then x
               else if (length t =? 4)%nat && negb (shows_decimals ctx)
                    then x else fdiv x f100)).
Proof.
  intros Hne Dt Hcap Hn Hx. unfold Nlp.convert.
  rewrite (digits_no_sep "." t) by auto.
  rewrite (py_int_digits t n Hne Hcap Hn).
  destruct t as [| c t]; [congruence |].
  unfold len. rewrite Hx.
  destruct (Z.leb_spec 5 (Z.of_nat (length (c :: t)))),
    (Nat.leb_spec (length (c :: t)) 3),
    (Nat.eqb_spec (length (c :: t)) 4),
    (Z.leb_spec 4 (Z.of_nat (length (c :: t))));
    try lia; simpl; try reflexivity;
    destruct (shows_decimals ctx); simpl; try reflexivity; lia.
Qed.

(** X23.  The value of a token of digits: for a non-empty string of at
    most 300 digits with integer value [n], both normalizers return
    [float(n)] when it has up to three digits, [float(n) / 100.0] when it
    has five or more, and for exactly four digits [float(n) / 100.0] if
    some context number has a fractional part and [float(n)] otherwise. *)
Theorem X23_integer_token_value (t : str) (ctx : option (list number)) :
  t <> [] -> forallb isdigit t = true -> (length t <= 300)%nat ->
  exists n x,
    digits_value 0 t = Some n /\ py_float_of_int n = Ret x
    /\ x = float_of_Z n
    /\ Nlp._clean_and_convert_token (Some t) ctx
       = Ret (Some (if (length t <=? 3)%nat then x
                    else if (length t =? 4)%nat && negb (shows_decimals ctx)
                         then x else fdiv x f100))
    /\ Ocr._normalize_number_token (Some t) ctx
       = Nlp._clean_and_convert_token (Some t) ctx.
Proof.
  intros Hne Dt Hlen.
  destruct (digits_value_total t Dt 0) as [n Hn].
  assert (length t <= int_max_str_digits)%nat as Hcap
    by (unfold int_max_str_digits; lia).
  assert (py_int t = Some n) as Hint by (apply py_int_digits; assumption).
  destruct (short_int_converts t n Hlen Hint) as [x Hx].
  exists n, x. split; [assumption |]. split; [assumption |].
  split.
  { unfold py_float_of_int in Hx. destruct (float_of_Z n); congruence. }
  assert (keep num_char t = t) as Hk.
  { apply keep_id. eapply forallb_weaken; [| exact Dt].
    intros c Hc. unfold num_char. rewrite Hc. reflexivity. }
  assert (Nlp._clean_and_convert_token (Some t) ctx
          = Nlp.convert t ctx) as E.
  { unfold Nlp._clean_and_convert_token. cbv zeta.
    rewrite (keep_strip num_char) by apply num_char_not_space.
    rewrite Hk. destruct t as [| c t]; [congruence |].
    change (is_empty (c :: t)) with false. cbv iota.
    unfold Nlp.resolve_separators.
    rewrite (digits_no_sep "." (c :: t)), (digits_no_sep "," (c :: t)) by auto.
    reflexivity. }
  split.
  - rewrite E. apply (nlp_convert_integer t ctx n x); assumption.
  - symmetry. apply normalizers_agree_on_amounts.
    unfold amount_token.
    assert (forallb num_char t = true) as ->.
    { eapply forallb_weaken; [| exact Dt].
      intros c Hc. unfold num_char. rewrite Hc. reflexivity. }
    destruct t as [| c t]; [congruence |]. simpl in Dt |- *.
    apply andb_prop in Dt as [Dc Dt]. rewrite Dc. simpl.
    unfold last_is. simpl.
    destruct t as [| y t] using rev_ind; [simpl; assumption |].
    rewrite rev_app_distr. simpl. rewrite forallb_app in Dt.
    apply andb_prop in Dt as [_ Dy]. simpl in Dy.
    destruct (isdigit y); [reflexivity | discriminate].
Qed.

Lemma X23_integer_token_value_witness :
  exists n x,
    digits_value 0 (S_ "18099") = Some n /\ py_float_of_int n = Ret x
    /\ x = float_of_Z n
    /\ Nlp._clean_and_convert_token (Some (S_ "18099")) None
       = Ret (Some (if (length (S_ "18099") <=? 3)%nat then x
                    else if (length (S_ "18099") =? 4)%nat
                            && negb (shows_decimals None)
                         then x else fdiv x f100))
    /\ Ocr._normalize_number_token (Some (S_ "18099")) None
       = Nlp._clean_and_convert_token (Some (S_ "18099")) None.
Proof.
  apply (X23_integer_token_value (S_ "18099") None);
    [discriminate | reflexivity | simpl; lia].
Defined.

(** X24.  A separator read as a thousands separator: for digit strings [i]
    and [f], both normalizers read "i.f" with three or more digits after
    the point, and "i,f" with exactly three digits after the comma, as
    they read the digits "if" without the separator; so "1.2345" is read
    as "12345", which the rule for five digits turns into 123.45. *)
Theorem X24_thousands_separator_dropped (i f : str) (sep : ascii)
    (ctx : option (list number)) :
  i <> [] -> f <> [] ->
  forallb isdigit i = true -> forallb isdigit f = true ->
  (sep = "."%char /\ (3 <= length f)%nat)
  \/ (sep = ","%char /\ length f = 3%nat) ->
  Nlp._clean_and_convert_token (Some (i ++ sep :: f)) ctx
  = Nlp._clean_and_convert_token (Some (i ++ f)) ctx
  /\ Ocr._normalize_number_token (Some (i ++ sep :: f)) ctx
     = Ocr._normalize_number_token (Some (i ++ f)) ctx.
Proof.
  intros Hi Hf Di Df Hsep.
  assert (amount_token (i ++ sep :: f) = true) as Ht.
  { apply digits_amount_token; try assumption.
    destruct Hsep as [[-> _] | [-> _]]; reflexivity. }
  assert (forallb isdigit (i ++ f) = true) as Dif
    by (rewrite forallb_app, Di, Df; reflexivity).
  assert (amount_token (i ++ f) = true) as Ht'.
  { unfold amount_token.
    assert (forallb num_char (i ++ f) = true) as ->.
    { eapply forallb_weaken; [| exact Dif].
      intros c Hc. unfold num_char. rewrite Hc. reflexivity. }
    destruct i as [| c i]; [congruence |]. simpl in Di |- *.
    apply andb_prop in Di as [Dc _]. rewrite Dc. simpl.
    unfold last_is. change (c :: i ++ f) with ((c :: i) ++ f).
    rewrite rev_app_distr.
    destruct f as [| x f] using rev_ind; [congruence |].
    rewrite rev_app_distr. simpl. rewrite forallb_app in Df.
    apply andb_prop in Df as [_ Dx]. simpl in Dx.
    destruct (isdigit x); [reflexivity | discriminate]. }
  assert (Nlp._clean_and_convert_token (Some (i ++ sep :: f)) ctx
          = Nlp._clean_and_convert_token (Some (i ++ f)) ctx) as HN.
  2:{ split; [exact HN |].
      etransitivity;
        [symmetry; apply normalizers_agree_on_amounts; exact Ht |].
      etransitivity; [exact HN |].
      apply normalizers_agree_on_amounts; exact Ht'. }
  etransitivity; [apply nlp_normalizer_on_amount; exact Ht |].
  etransitivity; [| symmetry; apply nlp_normalizer_on_amount; exact Ht'].
  f_equal.
  assert (Nlp.resolve_separators (i ++ f) = i ++ f) as ->.
  { unfold Nlp.resolve_separators.
    rewrite (digits_no_sep "." (i ++ f)), (digits_no_sep "," (i ++ f)) by auto.
    reflexivity. }
  unfold Nlp.resolve_separators.
  destruct Hsep as [[-> Hlen] | [-> Hlen]].
  - rewrite !has_char_app, has_char_here.
    rewrite (digits_no_sep "." i), (digits_no_sep "," i) by auto.
    change (has_char "," ("."%char :: f)) with (has_char "," f).
    rewrite (digits_no_sep "," f) by auto. simpl.
    rewrite split_at, split_none
      by (apply digits_no_sep; [reflexivity | assumption]).
    unfold last_part, len, join. simpl. rewrite app_nil_r.
    destruct (Z.ltb_spec 2 (Z.of_nat (length f))); [reflexivity | lia].
  - rewrite !has_char_app, has_char_here.
    rewrite (digits_no_sep "." i), (digits_no_sep "," i) by auto.
    change (has_char "." (","%char :: f)) with (has_char "." f).
    rewrite (digits_no_sep "." f) by auto. simpl.
    rewrite split_at, split_none
      by (apply digits_no_sep; [reflexivity | assumption]).
    unfold last_part, len, join. simpl. rewrite app_nil_r, Hlen. reflexivity.
Qed.

Lemma X24_thousands_separator_dropped_witness :
  Nlp._clean_and_convert_token (Some (S_ "1" ++ "."%char :: S_ "2345")) None
  = Nlp._clean_and_convert_token (Some (S_ "1" ++ S_ "2345")) None
  /\ Ocr._normalize_number_token (Some (S_ "1" ++ "."%char :: S_ "2345")) None
     = Ocr._normalize_number_token (Some (S_ "1" ++ S_ "2345")) None.
Proof.
  apply (X24_thousands_separator_dropped (S_ "1") (S_ "2345") "."%char None);
    try discriminate; try reflexivity.
  left. split; [reflexivity | simpl; lia].
Defined.

Lemma rfind_from_none (c : ascii) (s : str) :
  has_char c s = false -> forall i, rfind_from i c s = -1.
Proof.
  induction s as [| x s IH]; simpl; [reflexivity |].
  unfold has_char. simpl. intros H i. apply orb_false_elim in H as [Hx Hs].
  rewrite (IH Hs). simpl. rewrite eqb_swap, Hx. reflexivity.
Qed.

Lemma rfind_from_at (c : ascii) (u v : str) :
  has_char c v = false ->
  forall i, 0 <= i -> rfind_from i c (u ++ c :: v) = i + Z.of_nat (length u).
Proof.
  intros Hv. induction u as [| x u IH]; intros i Hi.
  - simpl. rewrite (rfind_from_none c v Hv). simpl.
    unfold ascii_eqb. rewrite Ascii.eqb_refl. lia.
  - simpl app. simpl rfind_from. rewrite IH by lia.
    destruct (Z.leb_spec 0 (i + 1 + Z.of_nat (length u))); [| lia].
    simpl length. lia.
Qed.

(** X25.  With both separators the last one is the decimal separator: for
    digit strings [i], [m] and [f], both normalizers read "i,m.f" and
    "i.m,f" as the decimal number with the integer digits "im" and the
    decimals "f" (correctly rounded), whatever the number of decimals and
    the context. *)
Theorem X25_last_separator_is_decimal (i m f : str) (s1 s2 : ascii)
    (ctx : option (list number)) :
  i <> [] -> f <> [] ->
  forallb isdigit i = true -> forallb isdigit m = true ->
  forallb isdigit f = true ->
  (s1 = ","%char /\ s2 = "."%char) \/ (s1 = "."%char /\ s2 = ","%char) ->
  exists n,
    digits_value 0 ((i ++ m) ++ f) = Some n
    /\ Nlp._clean_and_convert_token (Some (i ++ s1 :: m ++ s2 :: f)) ctx
       = Ret (Some (dec n (length f)))
    /\ Ocr._normalize_number_token (Some (i ++ s1 :: m ++ s2 :: f)) ctx
       = Ret (Some (dec n (length f))).
Proof.
  intros Hi Hf Di Dm Df Hsep.
  assert (forallb isdigit (i ++ m) = true) as Dim
    by (rewrite forallb_app, Di, Dm; reflexivity).
  destruct (digits_value_total ((i ++ m) ++ f)) with (acc := 0) as [n Hn].
  { rewrite forallb_app, Dim, Df. reflexivity. }
  exists n. split; [assumption |].
  assert (amount_token (i ++ s1 :: m ++ s2 :: f) = true) as Ht.
  { assert (num_char s1 = true /\ num_char s2 = true) as [N1 N2]
      by (destruct Hsep as [[-> ->] | [-> ->]]; split; reflexivity).
    assert (forall s, forallb isdigit s = true -> forallb num_char s = true)
      as Hnum.
    { intros s. apply forallb_weaken. intros c Hc. unfold num_char.
      rewrite Hc. reflexivity. }
    unfold amount_token. rewrite forallb_app. simpl. rewrite forallb_app.
    simpl. rewrite (Hnum i Di), N1, (Hnum m Dm), N2, (Hnum f Df). simpl.
    destruct i as [| c i]; [congruence |]. simpl in Di |- *.
    apply andb_prop in Di as [Dc _]. rewrite Dc. simpl.
    unfold last_is. change (c :: i ++ s1 :: m ++ s2 :: f)
      with ((c :: i) ++ s1 :: m ++ s2 :: f).
    rewrite rev_app_distr. simpl rev. rewrite rev_app_distr. simpl rev.
    destruct f as [| x f] using rev_ind; [congruence |].
    rewrite rev_app_distr. simpl. rewrite forallb_app in Df.
    apply andb_prop in Df as [_ Dx]. simpl in Dx.
    destruct (isdigit x); [reflexivity | discriminate]. }
  assert (Nlp._clean_and_convert_token (Some (i ++ s1 :: m ++ s2 :: f)) ctx
          = Ret (Some (dec n (length f)))) as HN;
    [| split; [exact HN |]; rewrite <- HN; symmetry;
       apply normalizers_agree_on_amounts; exact Ht].
  etransitivity; [apply nlp_normalizer_on_amount; exact Ht |].
  assert (Nlp.resolve_separators (i ++ s1 :: m ++ s2 :: f)
          = (i ++ m) ++ "."%char :: f) as ->.
  { unfold Nlp.resolve_separators.
    assert (has_char "." (i ++ s1 :: m ++ s2 :: f) = true) as ->.
    { rewrite has_char_app. destruct Hsep as [[-> ->] | [-> ->]].
      - change (","%char :: m ++ "."%char :: f)
          with ((","%char :: m) ++ "."%char :: f).
        rewrite has_char_app, has_char_here, !orb_true_r. reflexivity.
      - rewrite has_char_here, orb_true_r. reflexivity. }
    assert (has_char "," (i ++ s1 :: m ++ s2 :: f) = true) as ->.
    { rewrite has_char_app. destruct Hsep as [[-> ->] | [-> ->]].
      - rewrite has_char_here, orb_true_r. reflexivity.
      - change ("."%char :: m ++ ","%char :: f)
          with (("."%char :: m) ++ ","%char :: f).
        rewrite has_char_app, has_char_here, !orb_true_r. reflexivity. }
    cbv iota. simpl andb. cbv iota.
    assert (forall c, isdigit c = false ->
              has_char c i = false /\ has_char c m = false
              /\ has_char c f = false) as Hno
      by (intros c Hc; auto using digits_no_sep).
    destruct (Hno "."%char eq_refl) as (Pi & Pm & Pf).
    destruct (Hno ","%char eq_refl) as (Ci & Cm & Cf).
    unfold rfind. destruct Hsep as [[-> ->] | [-> ->]].
    - rewrite (rfind_from_at "," i (m ++ "."%char :: f)) by
        (rewrite ?has_char_app; simpl; rewrite ?Cm; try lia;
         unfold has_char in *; simpl; rewrite Cf; reflexivity).
      change (i ++ ","%char :: m ++ "."%char :: f)
        with (i ++ (","%char :: m) ++ "."%char :: f).
      rewrite app_assoc.
      rewrite (rfind_from_at "." (i ++ ","%char :: m) f Pf) by lia.
      rewrite length_app. simpl length.
      destruct (Z.ltb_spec (0 + Z.of_nat (length i))
                  (0 + Z.of_nat (length i + Datatypes.S (length m))));
        [| lia].
      rewrite <- app_assoc. simpl app. change (S_ "") with (@nil ascii).
      rewrite (replace_at "," [] i (m ++ "."%char :: f) Ci).
      + simpl. rewrite <- app_assoc. reflexivity.
      + rewrite has_char_app, Cm. unfold has_char in *. simpl. rewrite Cf.
        reflexivity.
    - rewrite (rfind_from_at "." i (m ++ ","%char :: f)) by
        (rewrite ?has_char_app; simpl; rewrite ?Pm; try lia;
         unfold has_char in *; simpl; rewrite Pf; reflexivity).
      change (i ++ "."%char :: m ++ ","%char :: f)
        with (i ++ ("."%char :: m) ++ ","%char :: f).
      rewrite app_assoc.
      rewrite (rfind_from_at "," (i ++ "."%char :: m) f Cf) by lia.
      rewrite length_app. simpl length.
      destruct (Z.ltb_spec (0 + Z.of_nat (length i + Datatypes.S (length m)))
                  (0 + Z.of_nat (length i)));
        [lia |].
      rewrite <- app_assoc. simpl app. change (S_ "") with (@nil ascii).
      rewrite (replace_at "." [] i (m ++ ","%char :: f) Pi).
      + simpl app. rewrite app_assoc.
        rewrite (replace_at "," (S_ ".") (i ++ m) f);
          [reflexivity | | assumption].
        rewrite has_char_app, Ci, Cm. reflexivity.
      + rewrite has_char_app, Pm. unfold has_char in *. simpl. rewrite Pf.
        reflexivity. }
  unfold Nlp.convert. rewrite has_char_app, has_char_here, orb_true_r.
  rewrite (py_float_decimal (i ++ m) f n); auto.
  destruct i; [congruence | discriminate].
Qed.

Lemma X25_last_separator_is_decimal_witness :
  exists n,
    digits_value 0 ((S_ "1" ++ S_ "234") ++ S_ "56") = Some n
    /\ Nlp._clean_and_convert_token
         (Some (S_ "1" ++ "."%char :: S_ "234" ++ ","%char :: S_ "56")) None
       = Ret (Some (dec n (length (S_ "56"))))
    /\ Ocr._normalize_number_token
         (Some (S_ "1" ++ "."%char :: S_ "234" ++ ","%char :: S_ "56")) None
       = Ret (Some (dec n (length (S_ "56")))).
Proof.
  apply (X25_last_separator_is_decimal (S_ "1") (S_ "234") (S_ "56")
           "."%char ","%char None);
    try discriminate; try reflexivity.
  right. split; reflexivity.
Defined.

(* ===================================================================== *)
(** * Binary64 arithmetic on exact values *)
(* ===================================================================== *)

(** ** Rounding a quotient *)

Lemma new_location_ratio (n d : Z) :
  0 < d -> new_location d (n mod d) = loc_of_ratio n d.
Proof.
  intros Hd. pose proof (Z.mod_pos_bound n d Hd) as Hr.
  unfold new_location, loc_of_ratio, new_location_even, new_location_odd.
  destruct (Z.even d) eqn:Ev; [reflexivity |].
  destruct (Z.eqb_spec (n mod d) 0); [reflexivity |].
  f_equal.
  assert (d <> 2 * (n mod d)) as Hne.
  { intros E. rewrite E, Z.even_mul in Ev. discriminate. }
  destruct (Z.compare_spec (2 * (n mod d) + 1) d),
           (Z.compare_spec (2 * (n mod d)) d); try reflexivity; lia.
Qed.

Lemma shr_record_of_loc_m (m : Z) (l : location) :
  shr_m (shr_record_of_loc m l) = m.
Proof. destruct l as [| []]; reflexivity. Qed.

Lemma loc_of_shr_record_of_loc (m : Z) (l : location) :
  loc_of_shr_record (shr_record_of_loc m l) = l.
Proof. destruct l as [| []]; reflexivity. Qed.

Lemma shr_1_ratio (n d : Z) :
  0 <= n -> 0 < d -> shr_1 (rec_of_ratio n d) = rec_of_ratio n (2 * d).
Proof.
  intros Hn Hd. unfold rec_of_ratio, loc_of_ratio.
  pose proof (Z.div_mod n d ltac:(lia)) as E.
  pose proof (Z.mod_pos_bound n d Hd) as Hr.
  pose proof (Z.div_pos n d Hn Hd) as Hq.
  set (q := n / d) in *. set (r := n mod d) in *.
  pose proof (Z.div_mod q 2 ltac:(lia)) as E2.
  pose proof (Z.mod_pos_bound q 2 ltac:(lia)) as Hb.
  assert (n = (2 * d) * (q / 2) + (d * (q mod 2) + r)) as En by lia.
  assert (0 <= d * (q mod 2) + r < 2 * d) as Hr2 by nia.
  rewrite <- (Z.div_unique n (2 * d) (q / 2) (d * (q mod 2) + r)) by
      (try left; assumption).
  rewrite <- (Z.mod_unique n (2 * d) (q / 2) (d * (q mod 2) + r)) by
      (try left; assumption).
  assert (q mod 2 = 0 \/ q mod 2 = 1) as [Hb0 | Hb1] by lia.
  - rewrite Hb0, Z.mul_0_r, Z.add_0_l.
    assert (q = 2 * (q / 2)) as Eq by lia.
    assert (0 <= q / 2) as Hh by lia.
    revert Eq Hh. generalize (q / 2). intros h -> Hh.
    destruct (Z.eqb_spec r 0) as [-> | Hr0].
    + destruct h as [| p | p]; try lia; reflexivity.
    + assert ((2 * r ?= 2 * d) = Lt) as -> by (apply Z.compare_lt_iff; lia).
      destruct h as [| p | p]; try lia;
        destruct (2 * r ?= d); reflexivity.
  - rewrite Hb1, Z.mul_1_r.
    assert (q = 2 * (q / 2) + 1) as Eq by lia.
    assert (0 <= q / 2) as Hh by lia.
    revert Eq Hh. generalize (q / 2). intros h -> Hh.
    destruct (Z.eqb_spec (d + r) 0) as [? | _]; [lia |].
    destruct (Z.eqb_spec r 0) as [-> | Hr0].
    + rewrite Z.add_0_r, Z.compare_refl.
      destruct h as [| p | p]; try lia; reflexivity.
    + assert ((2 * (d + r) ?= 2 * d) = Gt) as -> by (apply Z.compare_gt_iff; lia).
      destruct h as [| p | p]; try lia;
        destruct (2 * r ?= d); reflexivity.
Qed.

Lemma iter_shr_1_ratio (n d : Z) (p : positive) :
  0 <= n -> 0 < d ->
  SpecFloat.iter_pos shr_1 p (rec_of_ratio n d) = rec_of_ratio n (d * 2 ^ Zpos p).
Proof.
  intros Hn Hd.
  pose proof (iter_pos_counted shr_1
     (fun k x => x = rec_of_ratio n (d * 2 ^ k))) as H.
  specialize (H ltac:(intros k x Hk ->; rewrite shr_1_ratio by (try assumption; nia);
                      f_equal; rewrite Z.pow_add_r by lia; lia)
                p 0 (rec_of_ratio n d) ltac:(lia)
                ltac:(cbv beta; f_equal; simpl; lia)).
  exact H.
Qed.

Lemma round_nearest_even_ratio (n d : Z) :
  0 < d ->
  round_nearest_even (n / d) (loc_of_ratio n d) = div_half_even n d.
Proof.
  intros Hd. unfold loc_of_ratio, div_half_even, round_nearest_even.
  destruct (Z.eqb_spec (n mod d) 0) as [E | E].
  - rewrite E. assert ((2 * 0 ?= d) = Lt) as -> by (apply Z.compare_lt_iff; lia).
    reflexivity.
  - destruct (2 * (n mod d) ?= d); reflexivity.
Qed.

Lemma shr_fexp_ratio (n d e : Z) :
  0 <= n -> 0 < d ->
  shr_fexp prec emax (n / d) e (loc_of_ratio n d)
  = let e1 := Z.max e (fexp prec emax (Zdigits2 (n / d) + e)) in
    (rec_of_ratio n (d * 2 ^ (e1 - e)), e1).
Proof.
  intros Hn Hd. unfold shr_fexp, shr. cbv zeta.
  fold (rec_of_ratio n d).
  destruct (fexp prec emax (Zdigits2 (n / d) + e) - e) as [| p | p] eqn:E.
  - replace (Z.max e _) with e by lia.
    rewrite Z.sub_diag, Z.pow_0_r, Z.mul_1_r. reflexivity.
  - replace (Z.max e _) with (e + Zpos p) by lia.
    rewrite iter_shr_1_ratio by assumption.
    replace (e + Zpos p - e) with (Zpos p) by lia. reflexivity.
  - replace (Z.max e _) with e by lia.
    rewrite Z.sub_diag, Z.pow_0_r, Z.mul_1_r. reflexivity.
Qed.

Lemma loc_of_ratio_1 (n : Z) : loc_of_ratio n 1 = loc_Exact.
Proof. unfold loc_of_ratio. rewrite Z.mod_1_r. reflexivity. Qed.

Lemma div_half_even_nonneg (n d : Z) :
  0 <= n -> 0 < d -> 0 <= div_half_even n d.
Proof.
  intros Hn Hd. unfold div_half_even.
  pose proof (Z.div_pos n d Hn Hd).
  destruct (2 * (n mod d) ?= d); try destruct (Z.even (n / d)); lia.
Qed.

Lemma binary_round_aux_ratio (s : bool) (n d e : Z) :
  0 <= n -> 0 < d ->
  binary_round_aux prec emax s (n / d) e (loc_of_ratio n d) = round_ratio s n d e.
Proof.
  intros Hn Hd. unfold binary_round_aux, round_ratio.
  rewrite shr_fexp_ratio by assumption. cbv zeta.
  set (e1 := Z.max e (fexp prec emax (Zdigits2 (n / d) + e))).
  assert (0 < d * 2 ^ (e1 - e)) as Hd' by (apply Z.mul_pos_pos; [assumption | apply Z.pow_pos_nonneg; lia]).
  unfold rec_of_ratio.
  rewrite shr_record_of_loc_m, loc_of_shr_record_of_loc.
  rewrite round_nearest_even_ratio by assumption.
  pose proof (div_half_even_nonneg n _ Hn Hd') as Hq2.
  set (q2 := div_half_even n (d * 2 ^ (e1 - e))) in *.
  pose proof (shr_fexp_ratio q2 1 e1 Hq2 ltac:(lia)) as H.
  rewrite loc_of_ratio_1, Z.div_1_r in H. rewrite H. cbv zeta.
  unfold rec_of_ratio. rewrite shr_record_of_loc_m, Z.mul_1_l.
  reflexivity.
Qed.

Lemma Zdigits2_bounds (m : Z) :
  0 < m -> 2 ^ (Zdigits2 m - 1) <= m < 2 ^ Zdigits2 m.
Proof.
  intros Hm. destruct m as [| p | p]; try lia. simpl Zdigits2.
  split; [| apply digits2_pos_gt].
  destruct (Z.le_gt_cases (2 ^ (Zpos (digits2_pos p) - 1)) (Zpos p)) as [? | H];
    [assumption |].
  apply digits2_pos_le in H. lia.
Qed.

Lemma Zdigits2_le (m k : Z) : 0 <= m -> m < 2 ^ k -> Zdigits2 m <= k.
Proof.
  intros Hm H. destruct m as [| p | p]; try lia.
  - simpl. destruct (Z.le_gt_cases 0 k); [assumption |].
    rewrite Z.pow_neg_r in H by lia. lia.
  - simpl. apply digits2_pos_le. assumption.
Qed.

Lemma Zdigits2_ge (m k : Z) : 0 <= k -> 2 ^ k <= m -> k + 1 <= Zdigits2 m.
Proof.
  intros Hk H.
  assert (0 < m) as Hm by (pose proof (Z.pow_pos_nonneg 2 k); lia).
  destruct (Zdigits2_bounds m Hm) as [_ Hu].
  destruct (Z.le_gt_cases (k + 1) (Zdigits2 m)) as [? | Hlt]; [assumption |].
  assert (2 ^ Zdigits2 m <= 2 ^ k); [| lia].
  apply Z.pow_le_mono_r; [lia |]. lia.
Qed.

Lemma pow2_pos (k : Z) : 0 <= k -> 0 < 2 ^ k.
Proof. intros. apply Z.pow_pos_nonneg; lia. Qed.

Lemma pow2_split (a b : Z) : 0 <= a -> 0 <= b -> 2 ^ (a + b) = 2 ^ a * 2 ^ b.
Proof. intros. apply Z.pow_add_r; assumption. Qed.

(** The digits left of a quotient. *)
Lemma div_pow2_lt (m k j : Z) :
  0 <= m -> 0 <= j -> 0 <= k -> m < 2 ^ (k + j) -> m / 2 ^ j < 2 ^ k.
Proof.
  intros Hm Hj Hk H. apply Z.div_lt_upper_bound; [apply pow2_pos; assumption |].
  rewrite <- pow2_split by assumption. rewrite Z.add_comm. assumption.
Qed.

Lemma div_pow2_ge (m k j : Z) :
  0 <= j -> 0 <= k -> 2 ^ (k + j) <= m -> 2 ^ k <= m / 2 ^ j.
Proof.
  intros Hj Hk H. apply Z.div_le_lower_bound; [apply pow2_pos; assumption |].
  rewrite <- pow2_split by assumption. rewrite Z.add_comm. assumption.
Qed.

Lemma div_half_even_bounds (n d : Z) :
  0 <= n -> 0 < d -> n / d <= div_half_even n d <= n / d + 1.
Proof.
  intros Hn Hd. unfold div_half_even.
  destruct (2 * (n mod d) ?= d); try destruct (Z.even (n / d)); lia.
Qed.

(** Half-even rounding against an even bound. *)
Lemma div_half_even_gt (n d k : Z) :
  0 <= n -> 0 < d -> Z.even k = true ->
  (k < div_half_even n d <-> (2 * k + 1) * d < 2 * n).
Proof.
  intros Hn Hd Hk. unfold div_half_even.
  pose proof (Z.div_mod n d ltac:(lia)) as E.
  pose proof (Z.mod_pos_bound n d Hd) as Hr.
  set (q := n / d) in *. set (r := n mod d) in *.
  destruct (Z.compare_spec (2 * r) d) as [Hc | Hc | Hc].
  - destruct (Z.even q) eqn:Eq.
    + split; intros Hx; [nia |].
      destruct (Z.lt_trichotomy k q) as [? | [-> | ?]]; [assumption | nia | nia].
    + assert (k <> q) as Hkq by (intros ->; congruence).
      split; intros Hx; [nia |].
      destruct (Z.lt_trichotomy k q) as [? | [-> | ?]]; [lia | lia | nia].
  - split; intros Hx; [nia |].
    destruct (Z.le_gt_cases q k); [nia | assumption].
  - split; intros Hx; [nia |].
    destruct (Z.le_gt_cases (q + 1) k); [nia | assumption].
Qed.

(** Half-even rounding against an odd bound: the tie goes up. *)
Lemma div_half_even_gt_odd (n d k : Z) :
  0 <= n -> 0 < d -> Z.odd k = true ->
  (k < div_half_even n d <-> (2 * k + 1) * d <= 2 * n).
Proof.
  intros Hn Hd Hk. unfold div_half_even.
  pose proof (Z.div_mod n d ltac:(lia)) as E.
  pose proof (Z.mod_pos_bound n d Hd) as Hr.
  set (q := n / d) in *. set (r := n mod d) in *.
  destruct (Z.compare_spec (2 * r) d) as [Hc | Hc | Hc].
  - destruct (Z.even q) eqn:Eq.
    + assert (k <> q) as Hkq by (intros ->; rewrite <- Z.negb_even, Eq in Hk; discriminate).
      split; intros Hx; [nia |].
      destruct (Z.lt_trichotomy k q) as [? | [-> | ?]]; [assumption | lia | nia].
    + split; intros Hx; [nia |].
      destruct (Z.le_gt_cases (q + 1) k); [nia | assumption].
  - split; intros Hx; [nia |].
    destruct (Z.le_gt_cases q k); [nia | assumption].
  - split; intros Hx; [nia |].
    destruct (Z.le_gt_cases (q + 1) k); [nia | assumption].
Qed.

Lemma round_ratio_cases (s : bool) (n d e : Z) :
  0 <= n -> 0 < d -> e <= fexp prec emax (Zdigits2 (n / d) + e) ->
  let e1 := fexp prec emax (Zdigits2 (n / d) + e) in
  let q2 := div_half_even n (d * 2 ^ (e1 - e)) in
  0 <= q2 <= 2 ^ 53
  /\ (e1 = Zdigits2 (n / d) + e - 53 -> 2 ^ 52 <= q2)
  /\ round_ratio s n d e
     = if q2 <? 2 ^ 53 then of_mantissa s q2 e1
       else of_mantissa s (2 ^ 52) (e1 + 1).
Proof.
  intros Hn Hd HP e1 q2.
  assert (0 < 2 ^ (e1 - e)) as Hp by (apply pow2_pos; unfold e1; lia).
  assert (0 < d * 2 ^ (e1 - e)) as Hd' by (apply Z.mul_pos_pos; assumption).
  pose proof (div_half_even_bounds n _ Hn Hd') as Hb. fold q2 in Hb.
  rewrite <- Z.div_div in Hb by lia.
  pose proof (Z.div_pos n d Hn Hd) as Hq.
  set (q := n / d) in *.
  assert (q / 2 ^ (e1 - e) < 2 ^ 53) as Hq1.
  { apply div_pow2_lt; try lia.
    destruct (Z.eq_dec q 0) as [-> | Hq0]; [apply pow2_pos; lia |].
    destruct (Zdigits2_bounds q ltac:(lia)) as [_ Hu].
    eapply Z.lt_le_trans; [exact Hu |].
    apply Z.pow_le_mono_r; [lia |].
    unfold e1, fexp, SpecFloat.emin, prec, emax. lia. }
  assert (0 <= q / 2 ^ (e1 - e)) as Hq1' by (apply Z.div_pos; lia).
  assert (0 <= q2 <= 2 ^ 53) as Hq2 by lia.
  split; [exact Hq2 |]. split.
  { intros He1.
    assert (2 ^ 52 <= q / 2 ^ (e1 - e)); [| lia].
    assert (0 < q) as Hq0.
    { destruct (Z.eq_dec q 0) as [E0 | ?]; [| lia].
      rewrite E0 in He1, HP. simpl Zdigits2 in *. fold e1 in HP.
      unfold fexp, SpecFloat.emin, prec, emax in *. lia. }
    apply div_pow2_ge; try lia.
    destruct (Zdigits2_bounds q Hq0) as [Hl _].
    replace (52 + (e1 - e)) with (Zdigits2 q - 1) by lia. exact Hl. }
  unfold round_ratio. cbv zeta. fold q.
  replace (Z.max e (fexp prec emax (Zdigits2 q + e))) with e1 by (unfold e1; lia).
  fold q2.
  destruct (Z.ltb_spec q2 (2 ^ 53)) as [Hlt | Hge].
  - pose proof (Zdigits2_le q2 53 ltac:(lia) Hlt) as Hdg.
    pose proof (Zdigits2_nonneg q2).
    replace (Z.max e1 (fexp prec emax (Zdigits2 q2 + e1))) with e1
      by (unfold e1, fexp, SpecFloat.emin, prec, emax in *; lia).
    rewrite Z.sub_diag, Z.pow_0_r, Z.div_1_r. reflexivity.
  - assert (q2 = 2 ^ 53) as -> by lia.
    change (Zdigits2 (2 ^ 53)) with 54.
    replace (Z.max e1 (fexp prec emax (54 + e1))) with (e1 + 1)
      by (unfold e1, fexp, SpecFloat.emin, prec, emax in *; lia).
    replace (e1 + 1 - e1) with 1 by lia. reflexivity.
Qed.

Lemma SFdiv_ratio (sx sy : bool) (mx my : positive) (ex ey : Z) :
  SFdiv prec emax (S754_finite sx mx ex) (S754_finite sy my ey)
  = round_ratio (xorb sx sy)
      (Zpos mx * 2 ^ (ex - ey - div_exponent mx my ex ey)) (Zpos my)
      (div_exponent mx my ex ey).
Proof.
  unfold SFdiv, SFdiv_core_binary. fold (div_exponent mx my ex ey).
  set (e' := div_exponent mx my ex ey).
  assert (e' <= ex - ey) as He by (unfold e', div_exponent; lia).
  assert (match ex - ey - e' with
          | 0 => Zpos mx
          | Zpos _ => Z.shiftl (Zpos mx) (ex - ey - e')
          | Zneg _ => 0
          end = Zpos mx * 2 ^ (ex - ey - e')) as ->.
  { destruct (ex - ey - e') as [| p | p] eqn:E; try lia.
    rewrite Z.shiftl_mul_pow2 by lia. reflexivity. }
  set (n := Zpos mx * 2 ^ (ex - ey - e')).
  assert (0 <= n) as Hn by (unfold n; pose proof (pow2_pos (ex - ey - e')); nia).
  pose proof (binary_round_aux_ratio (xorb sx sy) n (Zpos my) e' Hn ltac:(lia)) as H.
  rewrite <- new_location_ratio in H by lia.
  unfold Z.div, Z.modulo in H.
  destruct (Z.div_eucl n (Zpos my)) as [q r]. exact H.
Qed.

Lemma SFdiv_ratio_digits (mx my : positive) (ex ey : Z) :
  let e' := div_exponent mx my ex ey in
  let n := Zpos mx * 2 ^ (ex - ey - e') in
  e' <= fexp prec emax (Zdigits2 (n / Zpos my) + e').
Proof.
  intros e' n.
  assert (e' <= ex - ey) as He by (unfold e', div_exponent; lia).
  destruct (Z.le_gt_cases e' (SpecFloat.emin prec emax)) as [Hm | Hm];
    [unfold fexp; lia |].
  assert (e' <= Zdigits2 (Zpos mx) + ex - (Zdigits2 (Zpos my) + ey) - 53) as Hd.
  { unfold e', div_exponent, fexp, prec in *. lia. }
  destruct (Zdigits2_bounds (Zpos mx) ltac:(lia)) as [Hx _].
  destruct (Zdigits2_bounds (Zpos my) ltac:(lia)) as [_ Hy].
  pose proof (Zdigits2_nonneg (Zpos my)) as Hy0.
  assert (1 <= Zdigits2 (Zpos mx)) as Hx0 by (simpl; lia).
  set (dx := Zdigits2 (Zpos mx)) in *. set (dy := Zdigits2 (Zpos my)) in *.
  set (s := ex - ey - e') in *.
  assert (0 <= dx - 1 + s - dy) as Hk by lia.
  assert (2 ^ (dx - 1 + s - dy) <= n / Zpos my) as Hq.
  { apply Z.div_le_lower_bound; [lia |].
    unfold n.
    apply Z.le_trans with (2 ^ dy * 2 ^ (dx - 1 + s - dy)).
    - apply Z.mul_le_mono_nonneg_r; [apply Z.lt_le_incl, pow2_pos; lia | lia].
    - rewrite <- pow2_split by lia.
      replace (dy + (dx - 1 + s - dy)) with ((dx - 1) + s) by lia.
      rewrite pow2_split by lia.
      apply Z.mul_le_mono_nonneg_r; [apply Z.lt_le_incl, pow2_pos; lia | lia]. }
  apply Zdigits2_ge in Hq; [| lia].
  unfold fexp, prec. lia.
Qed.

Lemma SFltb_of_mantissa (k : positive) (ek m e : Z) :
  0 <= m -> ek <= emax - prec ->
  (SFltb (S754_finite false k ek) (of_mantissa false m e) = true
   <-> 0 < m /\ (ek < e \/ ek = e /\ Zpos k < m)).
Proof.
  intros Hm Hk. unfold of_mantissa.
  destruct m as [| p | p]; try lia.
  - cbn. split; [discriminate | lia].
  - destruct (Z.leb_spec e (emax - prec)) as [He | He].
    + unfold SFltb, SFcompare.
      destruct (Z.compare_spec ek e) as [E | E | E].
      * subst e. rewrite Pos.compare_cont_spec. simpl.
        destruct (Pos.compare_spec k p) as [E | E | E]; simpl;
          split; try discriminate; try lia; intros; reflexivity.
      * split; [lia | reflexivity].
      * split; [discriminate | lia].
    + cbn. split; [lia | reflexivity].
Qed.

(** When the rounded quotient lies above a float with an even mantissa:
    when the quotient lies above the midpoint between that float and the
    next one. *)
Lemma round_ratio_above (n d e : Z) (k : positive) (ek : Z) :
  0 <= n -> 0 < d -> e <= fexp prec emax (Zdigits2 (n / d) + e) ->
  2 ^ 52 <= Zpos k < 2 ^ 53 -> Z.even (Zpos k) = true ->
  SpecFloat.emin prec emax <= ek <= emax - prec ->
  (SFltb (S754_finite false k ek) (round_ratio false n d e) = true
   <-> (2 * Zpos k + 1) * d * 2 ^ (ek - Z.min e ek)
       < 2 * n * 2 ^ (e - Z.min e ek)).
Proof.
  intros Hn Hd HP Hk Hev Hek.
  destruct (round_ratio_cases false n d e Hn Hd HP) as (Hq2 & Hnorm & ->).
  pose proof (Z.div_pos n d Hn Hd) as Hq.
  pose proof (Z.div_mod n d ltac:(lia)) as Ediv.
  pose proof (Z.mod_pos_bound n d Hd) as Hr.
  set (e1 := fexp prec emax (Zdigits2 (n / d) + e)) in *.
  set (q2 := div_half_even n (d * 2 ^ (e1 - e))) in *.
  set (q := n / d) in *.
  pose proof (Zdigits2_nonneg q) as Hdq.
  assert (SFltb (S754_finite false k ek)
            (if q2 <? 2 ^ 53 then of_mantissa false q2 e1
             else of_mantissa false (2 ^ 52) (e1 + 1)) = true
          <-> 0 < q2 /\ (ek < e1 \/ ek = e1 /\ Zpos k < q2)) as ->.
  { destruct (Z.ltb_spec q2 (2 ^ 53)) as [Hlt | Hge].
    - apply SFltb_of_mantissa; lia.
    - rewrite SFltb_of_mantissa by lia. lia. }
  destruct (Z.lt_trichotomy e1 ek) as [Hlt | [Heq | Hgt]].
  - (* the result lies in a lower binade *)
    split; [lia |]. intros H. exfalso.
    replace (Z.min e ek) with e in H by lia.
    rewrite Z.sub_diag, Z.pow_0_r, Z.mul_1_r in H.
    assert (q + 1 <= 2 ^ Zdigits2 q) as Hqd.
    { destruct (Z.eq_dec q 0) as [-> | Hq0]; [simpl; lia |].
      destruct (Zdigits2_bounds q ltac:(lia)). lia. }
    assert (2 ^ Zdigits2 q <= 2 ^ 52 * 2 ^ (ek - e)) as Hpw.
    { rewrite <- pow2_split by lia. apply Z.pow_le_mono_r; [lia |].
      unfold e1, fexp, prec in *. lia. }
    pose proof (pow2_pos (ek - e) ltac:(lia)) as Hp.
    assert (n < (q + 1) * d) as Hn1 by nia.
    assert ((q + 1) * d <= Zpos k * 2 ^ (ek - e) * d) as Hn2.
    { apply Z.mul_le_mono_nonneg_r; [lia |].
      apply Z.le_trans with (2 ^ 52 * 2 ^ (ek - e)); [lia |].
      apply Z.mul_le_mono_nonneg_r; lia. }
    nia.
  - (* the same binade: the mantissas decide *)
    subst ek. replace (Z.min e e1) with e by lia.
    rewrite Z.sub_diag, Z.pow_0_r, Z.mul_1_r.
    pose proof (pow2_pos (e1 - e) ltac:(lia)) as Hp.
    rewrite <- Z.mul_assoc.
    rewrite <- (div_half_even_gt n (d * 2 ^ (e1 - e)) (Zpos k) Hn ltac:(nia) Hev).
    fold q2. lia.
  - (* the result lies in a higher binade *)
    assert (e1 = Zdigits2 q + e - 53) as He1
        by (unfold e1, fexp, prec in *; lia).
    specialize (Hnorm He1).
    split; [intros _ | lia].
    set (a := ek - Z.min e ek). set (b := e - Z.min e ek).
    assert (0 <= a) by (unfold a; lia). assert (0 <= b) by (unfold b; lia).
    assert (54 + a <= Zdigits2 q + b) as Hab by (unfold a, b; lia).
    assert (0 < q) as Hq0.
    { destruct (Z.eq_dec q 0) as [E0 | ?]; [| lia].
      rewrite E0 in He1. simpl in He1.
      unfold fexp, SpecFloat.emin, prec, emax in *. lia. }
    destruct (Zdigits2_bounds q Hq0) as [Hl _].
    pose proof (pow2_pos a ltac:(lia)) as Hpa.
    pose proof (pow2_pos b ltac:(lia)) as Hpb.
    assert (2 ^ 54 * 2 ^ a <= 2 * 2 ^ (Zdigits2 q - 1) * 2 ^ b) as Hpw.
    { rewrite <- pow2_split by lia.
      replace (2 * 2 ^ (Zdigits2 q - 1)) with (2 ^ 1 * 2 ^ (Zdigits2 q - 1))
        by reflexivity.
      rewrite <- !pow2_split by lia.
      apply Z.pow_le_mono_r; lia. }
    assert ((2 * Zpos k + 1) * 2 ^ a < 2 * q * 2 ^ b) as Hlt.
    { apply Z.lt_le_trans with (2 ^ 54 * 2 ^ a).
      - apply Z.mul_lt_mono_pos_r; lia.
      - eapply Z.le_trans; [exact Hpw |].
        apply Z.mul_le_mono_nonneg_r; lia. }
    assert (q * d <= n) as Hqn by lia.
    apply Z.lt_le_trans with (2 * q * 2 ^ b * d); [nia |].
    assert (2 * q * 2 ^ b * d = 2 * (q * d) * 2 ^ b) as -> by ring.
    apply Z.mul_le_mono_nonneg_r; lia.
Qed.

Lemma round_ratio_valid (s : bool) (n d e : Z) :
  0 <= n -> 0 < d -> e <= fexp prec emax (Zdigits2 (n / d) + e) ->
  valid_binary prec emax (round_ratio s n d e) = true.
Proof.
  intros Hn Hd HP.
  destruct (round_ratio_cases s n d e Hn Hd HP) as (Hq2 & Hnorm & ->).
  set (e1 := fexp prec emax (Zdigits2 (n / d) + e)) in *.
  set (q2 := div_half_even n (d * 2 ^ (e1 - e))) in *.
  destruct (Z.ltb_spec q2 (2 ^ 53)) as [Hlt | Hge]; unfold of_mantissa.
  - destruct q2 as [| p | p] eqn:E; try reflexivity.
    destruct (Z.leb_spec e1 (emax - prec)) as [He | He]; [| reflexivity].
    simpl. unfold bounded, canonical_mantissa.
    apply andb_true_intro. split; [| apply Z.leb_le; assumption].
    apply Z.eqb_eq.
    pose proof (Zdigits2_le (Zpos p) 53 ltac:(lia) Hlt) as Hdg.
    simpl Zdigits2 in Hdg.
    destruct (Z.eq_dec e1 (Zdigits2 (n / d) + e - 53)) as [E1 | E1].
    + specialize (Hnorm E1).
      pose proof (Zdigits2_ge (Zpos p) 52 ltac:(lia) Hnorm) as Hdl.
      simpl Zdigits2 in Hdl.
      unfold e1, fexp, SpecFloat.emin, prec, emax in *. lia.
    + unfold e1, fexp, SpecFloat.emin, prec, emax in *. lia.
  - change (2 ^ 52) with (Zpos 4503599627370496).
    destruct (Z.leb_spec (e1 + 1) (emax - prec)) as [He | He]; [| reflexivity].
    simpl. unfold bounded, canonical_mantissa.
    apply andb_true_intro. split; [| apply Z.leb_le; assumption].
    apply Z.eqb_eq. change (Zpos (digits2_pos 4503599627370496)) with 53.
    unfold e1, fexp, SpecFloat.emin, prec, emax in *. lia.
Qed.

Lemma SFdiv_valid (sx sy : bool) (mx my : positive) (ex ey : Z) :
  valid_binary prec emax
    (SFdiv prec emax (S754_finite sx mx ex) (S754_finite sy my ey)) = true.
Proof.
  rewrite SFdiv_ratio.
  pose proof (SFdiv_ratio_digits mx my ex ey) as HP. cbv zeta in HP.
  assert (div_exponent mx my ex ey <= ex - ey) as He
      by (unfold div_exponent; lia).
  apply round_ratio_valid; [| lia | exact HP].
  pose proof (pow2_pos (ex - ey - div_exponent mx my ex ey) ltac:(lia)). nia.
Qed.

Lemma binary_round_ratio (s : bool) (m : positive) :
  binary_round prec emax s m 0
  = round_ratio s (Zpos m * 2 ^ (- int_exponent m)) 1 (int_exponent m)
  /\ int_exponent m
     <= fexp prec emax
          (Zdigits2 (Zpos m * 2 ^ (- int_exponent m) / 1) + int_exponent m).
Proof.
  unfold binary_round, shl_align, int_exponent.
  rewrite Z.add_0_r, Z.sub_0_r, Z.div_1_r.
  change (Zpos (digits2_pos m)) with (Zdigits2 (Zpos m)).
  set (x := fexp prec emax (Zdigits2 (Zpos m))).
  destruct x as [| p | p] eqn:E.
  - replace (Z.min 0 0) with 0 by lia. simpl Z.opp. rewrite Z.pow_0_r, Z.mul_1_r.
    split; [| rewrite Z.add_0_r; fold x; lia].
    pose proof (binary_round_aux_ratio s (Zpos m) 1 0 ltac:(lia) ltac:(lia)) as H.
    rewrite loc_of_ratio_1, Z.div_1_r in H. exact H.
  - replace (Z.min (Zpos p) 0) with 0 by lia. simpl Z.opp. rewrite Z.pow_0_r, Z.mul_1_r.
    split; [| rewrite Z.add_0_r; fold x; lia].
    pose proof (binary_round_aux_ratio s (Zpos m) 1 0 ltac:(lia) ltac:(lia)) as H.
    rewrite loc_of_ratio_1, Z.div_1_r in H. exact H.
  - replace (Z.min (Zneg p) 0) with (Zneg p) by lia.
    change (- Zneg p) with (Zpos p).
    assert (Zpos (Pos.iter xO m p) = Zpos m * 2 ^ Zpos p) as Eit.
    { clear. induction p as [| p IH] using Pos.peano_ind.
      - simpl. lia.
      - rewrite Pos.iter_succ, Pos2Z.inj_succ, Z.pow_succ_r by lia.
        rewrite Pos2Z.inj_xO, IH. ring. }
    rewrite <- Eit. split.
    + pose proof (binary_round_aux_ratio s (Zpos (Pos.iter xO m p)) 1
                    (Zneg p) ltac:(lia) ltac:(lia)) as H.
      rewrite loc_of_ratio_1, Z.div_1_r in H. exact H.
    + simpl Zdigits2. rewrite digits2_pos_iter_xO.
      replace (Zpos (digits2_pos m) + Zpos p + Zneg p)
        with (Zdigits2 (Zpos m)) by (simpl; lia).
      fold x. lia.
Qed.

Lemma float_of_Z_ratio (m : positive) :
  float_of_Z (Zpos m)
  = round_ratio false (Zpos m * 2 ^ (- int_exponent m)) 1 (int_exponent m).
Proof. apply (binary_round_ratio false m). Qed.

Lemma float_of_Z_valid (z : Z) : valid_binary prec emax (float_of_Z z) = true.
Proof.
  assert (forall s m, valid_binary prec emax (binary_round prec emax s m 0) = true)
    as H.
  { intros s m. destruct (binary_round_ratio s m) as [-> HP].
    apply round_ratio_valid; [| lia | exact HP].
    assert (int_exponent m <= 0) by (unfold int_exponent; lia).
    pose proof (pow2_pos (- int_exponent m) ltac:(lia)). nia. }
  destruct z as [| m | m]; [reflexivity | apply H | apply H].
Qed.

(** ** Values *)

Lemma Qpow2_pos (e : Z) : (0 < 2 ^ e)%Q.
Proof. apply Qpower_0_lt. reflexivity. Qed.

Lemma Qpow2_split (a b : Z) : (2 ^ (a + b) == 2 ^ a * 2 ^ b)%Q.
Proof. apply Qpower_plus. discriminate. Qed.

Lemma Qpow2_inject (a : Z) : 0 <= a -> (2 ^ a == inject_Z (2 ^ a))%Q.
Proof. intros H. symmetry. apply (Zpower_Qpower 2 a H). Qed.

(** Scaling a dyadic number to an integer. *)
Lemma dyadic_scale (a x E : Z) :
  E <= x -> (inject_Z a * 2 ^ x == inject_Z (a * 2 ^ (x - E)) * 2 ^ E)%Q.
Proof.
  intros H. replace x with ((x - E) + E) at 1 by lia.
  rewrite Qpow2_split, (Qpow2_inject (x - E)) by lia.
  rewrite inject_Z_mult. ring.
Qed.

Lemma dyadic_lt (a b x y E : Z) :
  E <= x -> E <= y ->
  ((inject_Z a * 2 ^ x < inject_Z b * 2 ^ y)%Q
   <-> a * 2 ^ (x - E) < b * 2 ^ (y - E)).
Proof.
  intros Hx Hy.
  rewrite (dyadic_scale a x E Hx), (dyadic_scale b y E Hy).
  rewrite Qmult_lt_r by apply Qpow2_pos.
  rewrite <- Zlt_Qlt. reflexivity.
Qed.

Lemma dyadic_le (a b x y E : Z) :
  E <= x -> E <= y ->
  ((inject_Z a * 2 ^ x <= inject_Z b * 2 ^ y)%Q
   <-> a * 2 ^ (x - E) <= b * 2 ^ (y - E)).
Proof.
  intros Hx Hy.
  rewrite (dyadic_scale a x E Hx), (dyadic_scale b y E Hy).
  rewrite Qmult_le_r by apply Qpow2_pos.
  rewrite <- Zle_Qle. reflexivity.
Qed.

Lemma Qlt_div_iff (a b c : Q) : (0 < c -> (a < b / c <-> a * c < b))%Q.
Proof.
  intros Hc. rewrite <- (Qmult_lt_r a (b / c) c Hc).
  assert (b / c * c == b)%Q as ->; [| reflexivity].
  field. intros E. rewrite E in Hc. discriminate.
Qed.

Lemma Qle_div_iff (a b c : Q) : (0 < c -> (a <= b / c <-> a * c <= b))%Q.
Proof.
  intros Hc. rewrite <- (Qmult_le_r a (b / c) c Hc).
  assert (b / c * c == b)%Q as ->; [| reflexivity].
  field. intros E. rewrite E in Hc. discriminate.
Qed.

Lemma value_pos (m : positive) (e : Z) : (0 < value (S754_finite false m e))%Q.
Proof.
  simpl. apply Qmult_lt_0_compat; [reflexivity | apply Qpow2_pos].
Qed.

(** The quotient of two positive floats is above 50 exactly when the
    quotient of their values is above the midpoint between 50 and the next
    float, [50 + 2^-47]. *)
Lemma fdiv_above_50 (m1 m2 : positive) (e1 e2 : Z) :
  fltb f50 (fdiv (S754_finite false m1 e1) (S754_finite false m2 e2)) = true
  <-> (50 + 2 ^ (-48)
       < value (S754_finite false m1 e1) / value (S754_finite false m2 e2))%Q.
Proof.
  unfold fltb, fdiv. rewrite SFdiv_ratio. simpl xorb.
  pose proof (SFdiv_ratio_digits m1 m2 e1 e2) as HP. cbv zeta in HP.
  set (e' := div_exponent m1 m2 e1 e2) in *.
  assert (e' <= e1 - e2) as He by (unfold e', div_exponent; lia).
  pose proof (pow2_pos (e1 - e2 - e') ltac:(lia)) as Hp.
  change f50 with (S754_finite false 7036874417766400 (-47)).
  rewrite (round_ratio_above _ (Zpos m2) e' 7036874417766400 (-47));
    [| nia | lia | exact HP | split; [vm_compute; discriminate | reflexivity]
     | reflexivity | split; vm_compute; discriminate ].
  set (M := Z.min e' (-47)).
  rewrite Qlt_div_iff by apply value_pos.
  assert ((50 + 2 ^ (-48)) * value (S754_finite false m2 e2)
          == inject_Z ((2 * 7036874417766400 + 1) * Zpos m2)
             * 2 ^ (-48 + e2))%Q as ->.
  { simpl value. rewrite inject_Z_mult, Qpow2_split.
    assert (50 + 2 ^ (-48) == inject_Z (2 * 7036874417766400 + 1) * 2 ^ (-48))%Q
      as -> by reflexivity.
    ring. }
  simpl value.
  rewrite (dyadic_lt _ (Zpos m1) (-48 + e2) e1 (M + e2 - 1)) by lia.
  replace (-48 + e2 - (M + e2 - 1)) with (-47 - M) by lia.
  replace (e1 - (M + e2 - 1)) with (1 + ((e1 - e2 - e') + (e' - M))) by lia.
  rewrite (pow2_split 1), pow2_split by lia.
  change (2 ^ 1) with 2.
  split; intros H; nia.
Qed.

(** ** Every candidate is a binary64 number *)

Lemma float_of_ratio_valid (n : Z) (d : positive) :
  binary64 (float_of_ratio n d) = true.
Proof.
  unfold float_of_ratio. destruct n; try reflexivity. apply SFdiv_valid.
Qed.

Lemma fdiv_f100_valid (f : float) : binary64 (fdiv f f100) = true.
Proof.
  unfold fdiv. set (c := f100). vm_compute in c. subst c.
  destruct f as [s | s | | s m e]; try reflexivity. apply SFdiv_valid.
Qed.

Lemma py_float_valid (s : str) (v : float) :
  py_float s = Some v -> binary64 v = true.
Proof.
  unfold py_float.
  destruct (split "." s) as [| i [| f [| ? ?]]]; try discriminate.
  - destruct i; [discriminate |].
    destruct (digits_value 0 _); [| discriminate].
    intros [= <-]. apply float_of_ratio_valid.
  - destruct (i ++ f); [discriminate |].
    destruct (digits_value 0 _); [| discriminate].
    intros [= <-]. apply float_of_ratio_valid.
Qed.

Lemma py_float_of_int_valid (z : Z) (f : float) :
  py_float_of_int z = Ret f -> binary64 f = true.
Proof.
  unfold py_float_of_int. pose proof (float_of_Z_valid z) as H.
  destruct (float_of_Z z); intros [= <-]; assumption || reflexivity.
Qed.

Lemma nlp_convert_valid (s : str) (ctx : option (list number)) (v : float) :
  Nlp.convert s ctx = Ret (Some v) -> binary64 v = true.
Proof.
  unfold Nlp.convert.
  destruct (has_char "." s).
  - intros [= H]. eapply py_float_valid. eassumption.
  - destruct (py_int s) as [val |]; [| discriminate].
    destruct (py_float_of_int val) as [f | e] eqn:E;
      [| repeat match goal with |- context [if ?b then _ else _] =>
           destruct b end; discriminate].
    pose proof (py_float_of_int_valid val f E) as Hf.
    repeat match goal with |- context [if ?b then _ else _] =>
      destruct b end; simpl; intros [= <-];
      auto using fdiv_f100_valid.
Qed.

Lemma nlp_normalizer_valid (tok : option str) (ctx : option (list number))
    (v : float) :
  Nlp._clean_and_convert_token tok ctx = Ret (Some v) -> binary64 v = true.
Proof.
  unfold Nlp._clean_and_convert_token. destruct tok as [tok |];
    [| discriminate].
  cbv zeta. destruct (is_empty _); [discriminate |].
  apply nlp_convert_valid.
Qed.

Lemma line_candidates_valid (ctx : list number) (ln : str)
    (ms : list rematch) (cs : list (float * str)) :
  Nlp.line_candidates ctx ln ms = Ret cs ->
  Forall (fun c => binary64 (fst c) = true) cs.
Proof.
  revert cs. induction ms as [| m ms IH]; simpl; intros cs H.
  - injection H as <-. constructor.
  - destruct (Nlp._clean_and_convert_token (group m 1) (Some ctx))
      as [val | e] eqn:Ev; simpl in H; [| discriminate].
    destruct (Nlp.line_candidates ctx ln ms) as [cs' | e]; simpl in H;
      [| discriminate].
    specialize (IH cs' eq_refl).
    destruct val as [val |]; [| injection H as <-; assumption].
    destruct (fltb f0 val && fltb val f1e7) eqn:E; injection H as <-;
      [| assumption].
    constructor; [| assumption].
    simpl. eapply nlp_normalizer_valid. eassumption.
Qed.

Lemma phase2_candidates_valid (ctx : list number) (lns : list str)
    (cs : list (float * str)) :
  Nlp.phase2_candidates ctx lns = Ret cs ->
  Forall (fun c => binary64 (fst c) = true) cs.
Proof.
  revert cs. induction lns as [| ln lns IH]; simpl; intros cs H.
  - injection H as <-. constructor.
  - destruct (Nlp._is_metadata_line ln); [auto |].
    destruct (Nlp.line_candidates ctx ln (finditer Nlp._AMT_RE ln))
      as [c1 | e] eqn:E1; simpl in H; [| discriminate].
    destruct (Nlp.phase2_candidates ctx lns) as [c2 | e]; simpl in H;
      [| discriminate].
    injection H as <-. apply Forall_app. split.
    + eapply line_candidates_valid. eassumption.
    + auto.
Qed.

(** ** The order of floats is the order of their values *)

Lemma canonical_digits (m : positive) (e : Z) :
  binary64 (S754_finite false m e) = true ->
  Zpos m < 2 ^ 53
  /\ (SpecFloat.emin prec emax < e -> 2 ^ 52 <= Zpos m)
  /\ SpecFloat.emin prec emax <= e.
Proof.
  unfold binary64, valid_binary, bounded, canonical_mantissa.
  intros H. apply andb_prop in H as [H _]. apply Z.eqb_eq in H.
  destruct (Zdigits2_bounds (Zpos m) ltac:(lia)) as [Hl Hu].
  simpl Zdigits2 in *.
  assert (Zpos (digits2_pos m) <= 53) as Hd
      by (unfold fexp, prec in H; lia).
  split; [| split].
  - eapply Z.lt_le_trans; [exact Hu |]. apply Z.pow_le_mono_r; lia.
  - intros He.
    assert (Zpos (digits2_pos m) = 53) as E
        by (unfold fexp, SpecFloat.emin, prec, emax in *; lia).
    rewrite E in Hl. exact Hl.
  - unfold fexp in H. lia.
Qed.

Lemma value_lt_exponent (m1 m2 : positive) (e1 e2 : Z) :
  binary64 (S754_finite false m1 e1) = true ->
  binary64 (S754_finite false m2 e2) = true ->
  e1 < e2 ->
  (value (S754_finite false m1 e1) < value (S754_finite false m2 e2))%Q.
Proof.
  intros H1 H2 He.
  destruct (canonical_digits m1 e1 H1) as (Hu & _ & Hmin).
  destruct (canonical_digits m2 e2 H2) as (_ & Hl & _).
  specialize (Hl ltac:(lia)).
  simpl value. rewrite (dyadic_lt _ _ e1 e2 e1) by lia.
  rewrite Z.sub_diag, Z.pow_0_r, Z.mul_1_r.
  replace (e2 - e1) with (1 + (e2 - e1 - 1)) by lia.
  rewrite pow2_split by lia. change (2 ^ 1) with 2.
  pose proof (pow2_pos (e2 - e1 - 1) ltac:(lia)). nia.
Qed.

Lemma fltb_value (x y : float) :
  binary64 x = true -> binary64 y = true ->
  posfin x = true -> posfin y = true ->
  (fltb x y = true <-> (value x < value y)%Q).
Proof.
  destruct x as [| | | [] m1 e1]; try discriminate.
  destruct y as [| | | [] m2 e2]; try discriminate.
  intros H1 H2 _ _. rewrite fltb_posfin.
  destruct (Z.lt_trichotomy e1 e2) as [He | [He | He]].
  - split; [intros _ | lia]. apply value_lt_exponent; assumption.
  - subst e2. simpl value. rewrite (dyadic_lt _ _ e1 e1 e1) by lia.
    rewrite Z.sub_diag, Z.pow_0_r, !Z.mul_1_r. lia.
  - split; [lia |]. intros H. exfalso.
    pose proof (value_lt_exponent m2 m1 e2 e1 H2 H1 He) as H'.
    apply (Qlt_irrefl (value (S754_finite false m1 e1))).
    eapply Qlt_trans; eassumption.
Qed.

Lemma fleb_value (x y : float) :
  binary64 x = true -> binary64 y = true ->
  posfin x = true -> posfin y = true ->
  (fleb x y = true <-> (value x <= value y)%Q).
Proof.
  destruct x as [| | | [] m1 e1]; try discriminate.
  destruct y as [| | | [] m2 e2]; try discriminate.
  intros H1 H2 _ _. rewrite fleb_posfin.
  destruct (Z.lt_trichotomy e1 e2) as [He | [He | He]].
  - split; [intros _ | lia]. apply Qlt_le_weak.
    apply value_lt_exponent; assumption.
  - subst e2. simpl value. rewrite (dyadic_le _ _ e1 e1 e1) by lia.
    rewrite Z.sub_diag, Z.pow_0_r, !Z.mul_1_r. lia.
  - split; [lia |]. intros H. exfalso.
    pose proof (value_lt_exponent m2 m1 e2 e1 H2 H1 He) as H'.
    apply (Qlt_irrefl (value (S754_finite false m1 e1))).
    eapply Qle_lt_trans; eassumption.
Qed.

(** ** Rounding to two decimals *)

Lemma nearest_even_eq (x y : Q) (n : Z) :
  (x == y)%Q -> nearest_even x n -> nearest_even y n.
Proof. unfold nearest_even. intros E. rewrite E. auto. Qed.

Lemma nearest_even_unique (x : Q) (n n' : Z) :
  nearest_even x n -> nearest_even x n' -> n = n'.
Proof.
  intros [H1 T1] [H2 T2].
  apply Qabs_Qle_condition in H1 as [L1 U1].
  apply Qabs_Qle_condition in H2 as [L2 U2].
  assert (inject_Z n' - inject_Z n <= 1)%Q as Ha by lra.
  assert (inject_Z n - inject_Z n' <= 1)%Q as Hb by lra.
  assert (n' <= n + 1) as Ha'.
  { rewrite Zle_Qle, inject_Z_plus. change (inject_Z 1) with 1%Q. lra. }
  assert (n <= n' + 1) as Hb'.
  { rewrite Zle_Qle, inject_Z_plus. change (inject_Z 1) with 1%Q. lra. }
  destruct (Z.eq_dec n n') as [? | Hne]; [assumption | exfalso].
  assert (n' = n + 1 \/ n = n' + 1) as [-> | ->] by lia.
  - rewrite inject_Z_plus in *.
    assert (x - inject_Z n == 1 # 2)%Q as E1 by (change (inject_Z 1) with 1%Q in *; lra).
    assert (x - (inject_Z n + inject_Z 1) == - (1 # 2))%Q as E2
        by (change (inject_Z 1) with 1%Q in *; lra).
    rewrite E1 in T1. rewrite E2 in T2.
    specialize (T1 ltac:(reflexivity)). specialize (T2 ltac:(reflexivity)).
    rewrite Z.even_add in T2. rewrite T1 in T2. discriminate.
  - rewrite inject_Z_plus in *.
    assert (x - inject_Z n' == 1 # 2)%Q as E1 by (change (inject_Z 1) with 1%Q in *; lra).
    assert (x - (inject_Z n' + inject_Z 1) == - (1 # 2))%Q as E2
        by (change (inject_Z 1) with 1%Q in *; lra).
    rewrite E1 in T2. rewrite E2 in T1.
    specialize (T1 ltac:(reflexivity)). specialize (T2 ltac:(reflexivity)).
    rewrite Z.even_add in T1. rewrite T2 in T1. discriminate.
Qed.

Lemma ratio_minus_int (a : Z) (b : positive) (n : Z) :
  (inject_Z a / inject_Z (Zpos b) - inject_Z n == (a - n * Zpos b) # b)%Q.
Proof.
  unfold Qeq, Qminus, Qdiv, Qplus, Qmult, Qinv, Qopp, inject_Z. simpl. 
  rewrite ?Pos2Z.inj_mul. lia.
Qed.

Lemma div_half_even_nearest (a : Z) (b : positive) :
  0 <= a -> nearest_even (inject_Z a / inject_Z (Zpos b)) (div_half_even a (Zpos b)).
Proof.
  intros Ha. unfold nearest_even. rewrite ratio_minus_int.
  unfold div_half_even.
  pose proof (Z.div_mod a (Zpos b) ltac:(lia)) as E.
  pose proof (Z.mod_pos_bound a (Zpos b) ltac:(lia)) as Hr.
  set (q := a / Zpos b) in *. set (r := a mod Zpos b) in *.
  unfold Qabs, Qle, Qeq. simpl Qnum. simpl Qden.
  destruct (Z.compare_spec (2 * r) (Zpos b)) as [Hc | Hc | Hc].
  - destruct (Z.even q) eqn:Ev.
    + split; [lia | intros _; assumption].
    + split; [lia |]. intros _. rewrite Z.even_add, Ev. reflexivity.
  - split; [lia |]. intros H. exfalso. lia.
  - split; [lia |]. intros H. exfalso. lia.
Qed.

(** [round(v, 2)] is the decimal with two places nearest to the value of
    [v]. *)
Lemma py_round_nearest (m : positive) (e : Z) :
  exists n : Z,
    nearest_even (100 * value (S754_finite false m e)) n
    /\ py_round (S754_finite false m e) 2 = dec n 2.
Proof.
  unfold py_round. change (10 ^ Z.of_nat 2) with 100. cbv zeta.
  destruct (Z.leb_spec 0 e) as [He | He].
  - exists (Zpos m * 2 ^ e * 100). split.
    + apply (nearest_even_eq (inject_Z (Zpos m * 2 ^ e * 100))).
      * simpl value. rewrite (Qpow2_inject e He), !inject_Z_mult.
        change (inject_Z 100) with 100%Q. ring.
      * unfold nearest_even.
        assert (inject_Z (Zpos m * 2 ^ e * 100) - inject_Z (Zpos m * 2 ^ e * 100) == 0)%Q
          as -> by ring.
        split; [discriminate | discriminate].
    + pose proof (pow2_pos e He).
      destruct (Zpos m * 2 ^ e * 100) as [| p | p] eqn:E; try lia.
      reflexivity.
  - assert (exists b : positive, 2 ^ (- e) = Zpos b) as [b Eb].
    { pose proof (pow2_pos (- e) ltac:(lia)).
      destruct (2 ^ (- e)) as [| b | b]; try lia. exists b. reflexivity. }
    rewrite Eb. exists (div_half_even (Zpos m * 100) (Zpos b)). split.
    + apply (nearest_even_eq (inject_Z (Zpos m * 100) / inject_Z (Zpos b))).
      * simpl value. rewrite <- Eb, <- (Qpow2_inject (- e)) by lia.
        rewrite Qpower_opp, inject_Z_mult.
        change (inject_Z 100) with 100%Q. field.
        intros E0. pose proof (Qpow2_pos e) as Hp. rewrite E0 in Hp.
        discriminate.
      * apply div_half_even_nearest. lia.
    + pose proof (div_half_even_nonneg (Zpos m * 100) (Zpos b) ltac:(lia) ltac:(lia)).
      destruct (div_half_even (Zpos m * 100) (Zpos b)) as [| p | p] eqn:E; try lia;
        reflexivity.
Qed.

Lemma f1e7_value : (value f1e7 == 10000000)%Q.
Proof. reflexivity. Qed.

Lemma value_posfin (v : float) : (0 < value v)%Q -> posfin v = true.
Proof.
  destruct v as [| | | [] m e]; simpl; intros H; try discriminate; auto.
  exfalso. 
  assert (0 < inject_Z (Zpos m) * 2 ^ e)%Q
    by (apply Qmult_lt_0_compat; [reflexivity | apply Qpow2_pos]).
  lra.
Qed.

Lemma plausible_value (v : float) :
  binary64 v = true ->
  (plausible v = true <-> (0 < value v < 10000000)%Q).
Proof.
  intros Hv. unfold plausible. rewrite andb_true_iff. split.
  - intros [H0 H1].
    assert (posfin v = true) as Hp
        by (apply plausible_posfin; unfold plausible; rewrite H0, H1; reflexivity).
    destruct v as [| | | [] m e]; try discriminate.
    split; [apply value_pos |].
    rewrite <- f1e7_value. apply fltb_value; auto.
  - intros [H0 H1]. pose proof (value_posfin v H0) as Hp.
    destruct v as [| | | [] m e]; try discriminate.
    split; [reflexivity |].
    apply fltb_value; auto. rewrite f1e7_value. assumption.
Qed.

(** ** The choice between the two largest candidates *)

Lemma py_round_cents (v : float) :
  posfin v = true ->
  exists n : Z, nearest_even (100 * value v) n /\ py_round v 2 = dec n 2.
Proof.
  destruct v as [| | | [] m e]; try discriminate. intros _.
  apply py_round_nearest.
Qed.

Lemma phase2_candidates_values (ctx : list number) (lns : list str)
    (cs : list (float * str)) :
  Nlp.phase2_candidates ctx lns = Ret cs ->
  Forall (fun c => binary64 (fst c) = true
                   /\ (0 < value (fst c) < 10000000)%Q) cs.
Proof.
  intros H.
  pose proof (phase2_candidates_plausible _ _ _ H) as Hp.
  pose proof (phase2_candidates_valid _ _ _ H) as Hv.
  rewrite List.Forall_forall in *. intros c Hc.
  split; [apply Hv, Hc |].
  apply plausible_value; [apply Hv, Hc | apply Hp, Hc].
Qed.

(** The choice between the two largest candidates, on their values. *)
Lemma pick_total_exact (cands : list (float * str)) :
  Forall (fun c => plausible (fst c) = true) cands ->
  Forall (fun c => binary64 (fst c) = true) cands ->
  (2 <= length cands)%nat ->
  exists c1 c2 others,
    Permutation cands (c1 :: c2 :: others)
    /\ Forall (fun c => (value (fst c) <= value (fst c1))%Q) (c2 :: others)
    /\ Forall (fun c => (value (fst c) <= value (fst c2))%Q) others
    /\ (fltb f50 (fdiv (fst c1) (fst c2)) = true
        <-> (50 + 2 ^ (-48) < value (fst c1) / value (fst c2))%Q)
    /\ ((50 + 2 ^ (-48) < value (fst c1) / value (fst c2))%Q ->
        exists n : Z,
          nearest_even (100 * value (fst c2)) n
          /\ Nlp.pick_total cands = Some (dec n 2))
    /\ ((value (fst c1) / value (fst c2) <= 50 + 2 ^ (-48))%Q ->
        exists n : Z,
          nearest_even (100 * value (fst c1)) n
          /\ Nlp.pick_total cands = Some (dec n 2)).
Proof.
  intros Hp Hv Hlen.
  destruct (pick_total_two cands Hp Hlen)
    as (c1 & c2 & others & Hperm & H1 & H2 & Hpick).
  exists c1, c2, others. split; [assumption |].
  assert (forall c, In c (c1 :: c2 :: others) ->
                    binary64 (fst c) = true /\ posfin (fst c) = true) as Hok.
  { intros c Hc. apply (Permutation_in _ (Permutation_sym Hperm)) in Hc.
    rewrite List.Forall_forall in Hp, Hv.
    split; [apply Hv, Hc | apply plausible_posfin, Hp, Hc]. }
  destruct (Hok c1 ltac:(left; reflexivity)) as [Hv1 Hp1].
  destruct (Hok c2 ltac:(right; left; reflexivity)) as [Hv2 Hp2].
  split; [| split].
  - rewrite List.Forall_forall in *. intros c Hc.
    destruct (Hok c ltac:(right; exact Hc)).
    apply fleb_value; auto.
  - rewrite List.Forall_forall in *. intros c Hc.
    destruct (Hok c ltac:(right; right; exact Hc)).
    apply fleb_value; auto.
  - rewrite Hpick. clear Hpick.
    destruct c1 as [v1 l1], c2 as [v2 l2]. simpl fst in *.
    destruct v1 as [| | | [] m1 e1]; try discriminate.
    destruct v2 as [| | | [] m2 e2]; try discriminate.
    pose proof (fdiv_above_50 m1 m2 e1 e2) as Hdiv.
    split; [exact Hdiv |].
    destruct (fltb f50 (fdiv _ _)).
    + split.
      * intros _. destruct (py_round_nearest m2 e2) as (n & Hn & ->).
        exists n. split; [assumption | reflexivity].
      * intros Hle. exfalso.
        apply (Qlt_irrefl (50 + 2 ^ (-48))).
        eapply Qlt_le_trans; [apply Hdiv; reflexivity | exact Hle].
    + split.
      * intros Hlt. apply Hdiv in Hlt. discriminate.
      * intros _. destruct (py_round_nearest m1 e1) as (n & Hn & ->).
        exists n. split; [assumption | reflexivity].
Qed.

(** C4, amended.  In phase 2 (phase 1 returned nothing and the candidates
    collected from the last 20 lines are [cands]) every candidate is a
    binary64 number with a value above 0 and below 10,000,000.  With a
    single candidate, the result is the decimal with two places nearest to
    its value.  With two or more, the candidates can be arranged as one of
    the largest value [c1], one of the second largest value [c2] and the
    others; the result is [c2] rounded to two places when the exact
    quotient of the values of [c1] and [c2] is above [50 + 2^-48], which is
    when the binary64 quotient is above 50, and [c1] rounded to two places
    otherwise.  The candidates 50000 and 450 give 450.0; 100 and 10 give
    100.0; 15.0 and 0.3 give 15.0; 2.675, whose binary64 value lies below
    2.675, gives 2.67, and 12.345 gives 12.35.  The receipt "Tea 12,3456"
    has the total 12.35, and the receipt with the lines "Tea 100.00" and
    "Gum 10.00" has the total 100.0. *)
Theorem C4_phase2_exact_outlier_rule :
  (forall (raw_text : str) (cands : list (float * str)),
     is_empty raw_text = false ->
     Nlp.phase1 (Nlp.context_numbers_of (stripped_lines raw_text))
       (rev (last_n 12 (stripped_lines raw_text))) = Ret None ->
     Nlp.phase2_candidates (Nlp.context_numbers_of (stripped_lines raw_text))
       (rev (last_n 20 (stripped_lines raw_text))) = Ret cands ->
     Forall (fun c => binary64 (fst c) = true
                      /\ (0 < value (fst c) < 10000000)%Q) cands
     /\ (forall c, cands = [c] ->
          exists n : Z,
            nearest_even (100 * value (fst c)) n
            /\ Nlp.find_total_amount (Some raw_text) = Ret (Some (dec n 2)))
     /\ ((2 <= length cands)%nat ->
         exists c1 c2 others,
           Permutation cands (c1 :: c2 :: others)
           /\ Forall (fun c => (value (fst c) <= value (fst c1))%Q)
                     (c2 :: others)
           /\ Forall (fun c => (value (fst c) <= value (fst c2))%Q) others
           /\ (fltb f50 (fdiv (fst c1) (fst c2)) = true
               <-> (50 + 2 ^ (-48) < value (fst c1) / value (fst c2))%Q)
           /\ ((50 + 2 ^ (-48) < value (fst c1) / value (fst c2))%Q ->
               exists n : Z,
                 nearest_even (100 * value (fst c2)) n
                 /\ Nlp.find_total_amount (Some raw_text)
                    = Ret (Some (dec n 2)))
           /\ ((value (fst c1) / value (fst c2) <= 50 + 2 ^ (-48))%Q ->
               exists n : Z,
                 nearest_even (100 * value (fst c1)) n
                 /\ Nlp.find_total_amount (Some raw_text)
                    = Ret (Some (dec n 2)))))
  /\ (forall l1 l2 : str,
        Nlp.pick_total [(dec 50000 0, l1); (dec 450 0, l2)]
        = Some (dec 4500 1))
  /\ (forall l1 l2 : str,
        Nlp.pick_total [(dec 10 0, l1); (dec 100 0, l2)]
        = Some (dec 1000 1))
  /\ (forall l1 l2 : str,
        Nlp.pick_total [(dec 1500 2, l1); (dec 30 2, l2)]
        = Some (dec 150 1))
  /\ (forall l : str, Nlp.pick_total [(dec 2675 3, l)] = Some (dec 267 2))
  /\ (forall l : str, Nlp.pick_total [(dec 12345 3, l)] = Some (dec 1235 2))
  /\ Nlp.find_total_amount (Some (S_ "Tea 12,3456"))
     = Ret (Some (dec 1235 2))
  /\ Nlp.find_total_amount (Some (S_ "Tea 100.00
Gum 10.00")) = Ret (Some (dec 1000 1)).
Proof.
  split; [| repeat split; intros; vm_compute; reflexivity].
  intros raw_text cands He H1 H2.
  pose proof (phase2_candidates_plausible _ _ _ H2) as Hp.
  pose proof (phase2_candidates_valid _ _ _ H2) as Hv.
  rewrite (find_total_amount_phase2 raw_text cands He H1 H2).
  split; [eapply phase2_candidates_values; eassumption |]. split.
  - intros [v l] ->.
    inversion Hp as [| ? ? Hpv _]; subst. simpl in Hpv.
    destruct (py_round_cents v (plausible_posfin v Hpv)) as (n & Hn & E).
    exists n. split; [assumption |].
    unfold Nlp.pick_total. simpl. rewrite E. reflexivity.
  - intros Hlen.
    destruct (pick_total_exact cands Hp Hv Hlen)
      as (c1 & c2 & others & Hperm & Hc1 & Hc2 & Hq & Hhi & Hlo).
    exists c1, c2, others. repeat (split; [assumption |]). split.
    + intros H. destruct (Hhi H) as (n & Hn & ->). eauto.
    + intros H. destruct (Hlo H) as (n & Hn & ->). eauto.
Qed.

(** C4, as stated, fails.  On the receipt with the lines "Tea 15.00" and
    "Gum 0.30" phase 2 has the candidates 15.0 and 0.3; the value of the
    float 0.3 lies below 3/10, so the largest value exceeds the second
    largest by more than a factor of 50, yet the float quotient is exactly
    50.0 and the largest candidate, 15.0, is returned. *)
Theorem C4_exact_quotient_above_50_keeps_top :
  let raw_text := S_ "Tea 15.00
Gum 0.30" in
  Nlp.phase1 (Nlp.context_numbers_of (stripped_lines raw_text))
    (rev (last_n 12 (stripped_lines raw_text))) = Ret None
  /\ Nlp.phase2_candidates (Nlp.context_numbers_of (stripped_lines raw_text))
       (rev (last_n 20 (stripped_lines raw_text)))
     = Ret [(dec 30 2, S_ "Gum 0.30"); (dec 1500 2, S_ "Tea 15.00")]
  /\ (50 < value (dec 1500 2) / value (dec 30 2))%Q
  /\ fdiv (dec 1500 2) (dec 30 2) = f50
  /\ Nlp.find_total_amount (Some raw_text) = Ret (Some (dec 150 1)).
Proof.
  cbv zeta. repeat split; vm_compute; reflexivity.
Qed.

Lemma C4_phase2_exact_outlier_rule_witness :
  exists c1 c2 others,
    Permutation
      [(dec 450 0, S_ "Book 450.00"); (dec 50000 0, S_ "Lamp 50000.00")]
      (c1 :: c2 :: others)
    /\ Forall (fun c => (value (fst c) <= value (fst c1))%Q) (c2 :: others)
    /\ Forall (fun c => (value (fst c) <= value (fst c2))%Q) others
    /\ (fltb f50 (fdiv (fst c1) (fst c2)) = true
        <-> (50 + 2 ^ (-48) < value (fst c1) / value (fst c2))%Q)
    /\ ((50 + 2 ^ (-48) < value (fst c1) / value (fst c2))%Q ->
        exists n : Z,
          nearest_even (100 * value (fst c2)) n
          /\ Nlp.find_total_amount (Some (S_ "Lamp 50000.00
Book 450.00"))
             = Ret (Some (dec n 2)))
    /\ ((value (fst c1) / value (fst c2) <= 50 + 2 ^ (-48))%Q ->
        exists n : Z,
          nearest_even (100 * value (fst c1)) n
          /\ Nlp.find_total_amount (Some (S_ "Lamp 50000.00
Book 450.00"))
             = Ret (Some (dec n 2))).
Proof.
  apply (proj1 C4_phase2_exact_outlier_rule
           (S_ "Lamp 50000.00
Book 450.00")
           [(dec 450 0, S_ "Book 450.00"); (dec 50000 0, S_ "Lamp 50000.00")]);
    [reflexivity | vm_compute; reflexivity | vm_compute; reflexivity
    | simpl; lia].
Defined.

(** ** Where the normalizers raise *)

Lemma is_inf_of_mantissa (s : bool) (m e : Z) :
  0 <= m ->
  (is_inf (of_mantissa s m e) = true <-> 0 < m /\ emax - prec < e).
Proof.
  intros Hm. unfold of_mantissa. destruct m as [| p | p]; try lia.
  - simpl. split; [discriminate | lia].
  - destruct (Z.leb_spec e (emax - prec)); simpl; split;
      try discriminate; try lia; auto.
Qed.

Lemma Zdigits2_shift (m k : Z) :
  0 < m -> 0 <= k -> Zdigits2 (m * 2 ^ k) = Zdigits2 m + k.
Proof.
  intros Hm Hk. destruct (Zdigits2_bounds m Hm) as [Hl Hu].
  pose proof (pow2_pos k Hk) as Hp.
  assert (1 <= Zdigits2 m) as Hd.
  { destruct m as [| p | p]; try lia. simpl. lia. }
  apply Z.le_antisymm.
  - apply Zdigits2_le; [nia |]. rewrite pow2_split by lia.
    apply Z.mul_lt_mono_pos_r; assumption.
  - replace (Zdigits2 m + k) with ((Zdigits2 m - 1 + k) + 1) by lia.
    apply Zdigits2_ge; [lia |]. rewrite pow2_split by lia.
    apply Z.mul_le_mono_nonneg_r; lia.
Qed.

Lemma float_of_Z_overflow (m : positive) :
  is_inf (float_of_Z (Zpos m)) = true <-> float_overflow <= Zpos m.
Proof.
  rewrite float_of_Z_ratio.
  destruct (binary_round_ratio false m) as [_ HP].
  assert (int_exponent m <= 0) as Hie by (unfold int_exponent; lia).
  pose proof (pow2_pos (- int_exponent m) ltac:(lia)) as Hp.
  destruct (round_ratio_cases false (Zpos m * 2 ^ (- int_exponent m)) 1
              (int_exponent m) ltac:(nia) ltac:(lia) HP)
    as (Hq2 & Hnorm & ->).
  clear HP. revert Hq2 Hnorm.
  rewrite Z.div_1_r, Zdigits2_shift by lia.
  replace (Zdigits2 (Zpos m) + - int_exponent m + int_exponent m)
    with (Zdigits2 (Zpos m)) by lia.
  destruct (Zdigits2_bounds (Zpos m) ltac:(lia)) as [Hl Hu].
  set (dm := Zdigits2 (Zpos m)) in *.
  set (e1 := fexp prec emax dm).
  rewrite Z.mul_1_l.
  set (q2 := div_half_even _ _). intros Hq2 Hnorm.
  assert (2 ^ 53 <= float_overflow) as H53
      by (apply Z.leb_le; vm_compute; reflexivity).
  assert (2 ^ 1023 < float_overflow) as H1023
      by (apply Z.ltb_lt; vm_compute; reflexivity).
  assert (float_overflow <= 2 ^ 1024) as H1024
      by (apply Z.leb_le; vm_compute; reflexivity).
  assert (is_inf (if q2 <? 2 ^ 53 then of_mantissa false q2 e1
                  else of_mantissa false (2 ^ 52) (e1 + 1)) = true
          <-> (q2 < 2 ^ 53 /\ 0 < q2 /\ emax - prec < e1)
              \/ (2 ^ 53 <= q2 /\ emax - prec < e1 + 1)) as ->.
  { destruct (Z.ltb_spec q2 (2 ^ 53)); rewrite is_inf_of_mantissa by lia; lia. }
  destruct (Z.le_gt_cases dm 53) as [Hd | Hd].
  - (* no more than 53 digits: the integer is a float *)
    assert (e1 <= 0) as He1 by (unfold e1, fexp, SpecFloat.emin, prec, emax; lia).
    assert (Zpos m < 2 ^ 53) as Hm
        by (eapply Z.lt_le_trans; [exact Hu | apply Z.pow_le_mono_r; lia]).
    unfold emax, prec. lia.
  - assert (e1 = dm - 53) as He1
        by (unfold e1, fexp, SpecFloat.emin, prec, emax; lia).
    assert (int_exponent m = 0) as Hi0.
    { unfold int_exponent. fold dm. fold e1. lia. }
    specialize (Hnorm ltac:(lia)).
    destruct (Z.lt_trichotomy dm 1024) as [Hlt | [Heq | Hgt]].
    + assert (Zpos m < 2 ^ 1023) as Hm
          by (eapply Z.lt_le_trans; [exact Hu | apply Z.pow_le_mono_r; lia]).
      unfold emax, prec. lia.
    + assert (q2 = div_half_even (Zpos m) (2 ^ 971)) as Eq2.
      { unfold q2. rewrite Hi0. simpl Z.opp. rewrite Z.pow_0_r, Z.mul_1_r.
        rewrite He1, Heq. reflexivity. }
      pose proof (div_half_even_gt_odd (Zpos m) (2 ^ 971) (2 ^ 53 - 1)
                    ltac:(lia) ltac:(apply pow2_pos; lia) ltac:(reflexivity))
        as Hodd.
      rewrite <- Eq2 in Hodd.
      assert ((2 * (2 ^ 53 - 1) + 1) * 2 ^ 971 = 2 * float_overflow) as E
          by (vm_compute; reflexivity).
      rewrite E in Hodd. unfold emax, prec. lia.
    + assert (2 ^ 1024 <= Zpos m) as Hm
          by (eapply Z.le_trans; [| exact Hl]; apply Z.pow_le_mono_r; lia).
      unfold emax, prec. lia.
Qed.

Lemma py_float_of_int_raises (z : Z) :
  0 <= z -> (py_float_of_int z = Raise OverflowError <-> float_overflow <= z).
Proof.
  intros Hz. unfold py_float_of_int.
  destruct z as [| m | m]; try lia.
  - simpl. split; [discriminate |]. intros H. exfalso.
    assert (0 < float_overflow) by (apply Z.ltb_lt; vm_compute; reflexivity).
    lia.
  - rewrite <- float_of_Z_overflow.
    destruct (float_of_Z (Zpos m)); simpl; split; intros H;
      try discriminate; reflexivity.
Qed.

Lemma py_float_of_int_total (z : Z) :
  0 <= z ->
  (exists f, py_float_of_int z = Ret f) \/ py_float_of_int z = Raise OverflowError.
Proof.
  intros _. unfold py_float_of_int. destruct (float_of_Z z); eauto.
Qed.

Lemma digits_value_digits (s : str) :
  forall acc v, digits_value acc s = Some v -> forallb isdigit s = true.
Proof.
  induction s as [| c s IH]; intros acc v H; simpl in *; [reflexivity |].
  destruct (isdigit c); [| discriminate]. simpl. eapply IH. eassumption.
Qed.

Lemma digits_amount (s : str) :
  s <> [] -> forallb isdigit s = true -> amount_token s = true.
Proof.
  intros Hne Hd. unfold amount_token.
  assert (forall t, t <> [] -> forallb isdigit t = true ->
                    first_is isdigit t = true) as Hfirst.
  { intros [| c t] Ht H; [congruence |]. simpl in *.
    apply andb_prop in H as [H _]. exact H. }
  rewrite (forallb_weaken isdigit num_char s), (Hfirst s Hne Hd); auto.
  - unfold last_is. simpl. apply Hfirst.
    + intros E. apply (f_equal (@rev ascii)) in E. rewrite rev_involutive in E.
      simpl in E. congruence.
    + rewrite forallb_forall in *. intros x Hx. apply Hd, in_rev, Hx.
  - intros c Hc. unfold num_char. rewrite Hc. reflexivity.
Qed.

Lemma nlp_resolve_digits (s : str) :
  forallb isdigit s = true -> Nlp.resolve_separators s = s.
Proof.
  intros Hd. unfold Nlp.resolve_separators.
  rewrite (digits_no_sep "." s), (digits_no_sep "," s) by auto.
  reflexivity.
Qed.

(** A string of digits raises exactly when [int] accepts it and [float]
    overflows on its value. *)
Lemma nlp_convert_digits_raises (s : str) (ctx : option (list number)) (n : Z) :
  s <> [] -> digits_value 0 s = Some n ->
  (Nlp.convert s ctx = Raise OverflowError
   <-> (length s <= int_max_str_digits)%nat /\ float_overflow <= n).
Proof.
  intros Hne Hn.
  pose proof (digits_value_digits s 0 n Hn) as Hd.
  pose proof (digits_value_bound s 0 n ltac:(lia) Hn) as [Hn0 _].
  rewrite <- (py_float_of_int_raises n Hn0).
  unfold Nlp.convert. rewrite (digits_no_sep "." s) by auto.
  unfold py_int. destruct s as [| c s]; [congruence |].
  destruct (Nat.ltb_spec int_max_str_digits (length (c :: s))) as [Hl | Hl].
  - split; [discriminate | lia].
  - rewrite Hn.
    destruct (py_float_of_int n) as [f | []];
      repeat match goal with
             | |- context [if ?b then _ else _] => destruct b
             end; simpl; split; try discriminate; try tauto; try (intros [_ H]; discriminate).
Qed.

Lemma py_float_of_int_returns_308 (s : str) (v : Z) :
  (length s <= 308)%nat -> py_int s = Some v ->
  exists f, py_float_of_int v = Ret f.
Proof.
  intros Hlen H. apply py_int_bound in H.
  assert (10 ^ Z.of_nat (length s) <= 10 ^ 308)
    by (apply Z.pow_le_mono_r; lia).
  assert (10 ^ 308 < float_overflow) by (apply Z.ltb_lt; vm_compute; reflexivity).
  destruct (py_float_of_int_total v ltac:(lia)) as [? | E]; [assumption |].
  apply py_float_of_int_raises in E; lia.
Qed.

Lemma nlp_convert_returns_308 (s : str) (ctx : option (list number)) :
  (length s <= 308)%nat -> exists r, Nlp.convert s ctx = Ret r.
Proof.
  intros Hlen. unfold Nlp.convert.
  destruct (has_char "." s); [eauto |].
  destruct (py_int s) as [v |] eqn:Ev; [| eauto].
  destruct (py_float_of_int_returns_308 s v Hlen Ev) as [f ->]. simpl.
  repeat match goal with
         | |- context [if ?b then _ else _] => destruct b
         end; eauto.
Qed.

Lemma ocr_convert_returns_308 (s : str) (ctx : option (list number)) :
  (length s <= 308)%nat -> exists r, Ocr.convert s ctx = Ret r.
Proof.
  intros Hlen. unfold Ocr.convert.
  destruct (is_empty s); [eauto |].
  destruct (has_char "." s); [eauto |].
  destruct (py_int s) as [v |] eqn:Ev; [| eauto].
  destruct (py_float_of_int_returns_308 s v Hlen Ev) as [f ->]. simpl.
  repeat match goal with
         | |- context [if ?b then _ else _] => destruct b
         end; eauto.
Qed.

Lemma nlp_normalizer_returns_308 (t : str) (ctx : option (list number)) :
  (length t <= 308)%nat ->
  exists r, Nlp._clean_and_convert_token (Some t) ctx = Ret r.
Proof.
  intros Hlen. unfold Nlp._clean_and_convert_token. cbv zeta.
  destruct (is_empty _); [eauto |].
  apply nlp_convert_returns_308.
  etransitivity; [apply length_nlp_resolve |].
  etransitivity; [apply length_keep |].
  etransitivity; [apply length_strip_by |]. assumption.
Qed.

Lemma ocr_normalizer_returns_308 (t : str) (ctx : option (list number)) :
  (length t <= 308)%nat ->
  exists r, Ocr._normalize_number_token (Some t) ctx = Ret r.
Proof.
  intros Hlen. unfold Ocr._normalize_number_token.
  destruct (is_empty t || negb (matches digit t)); [eauto |]. cbv zeta.
  apply ocr_convert_returns_308.
  assert (length (strip_by (fun c => ascii_eqb c ".")
                    (Ocr.resolve_separators (keep Ocr.num_char_minus (strip t))))
          <= length t)%nat as H.
  { etransitivity; [apply length_strip_by |].
    rewrite <- resolve_separators_agree.
    etransitivity; [apply length_nlp_resolve |].
    etransitivity; [apply length_keep |]. apply length_strip_by. }
  destruct (negb (fullmatch Ocr.plain_number_re _)); [| lia].
  etransitivity; [apply length_keep |]. lia.
Qed.

Lemma nlp_convert_digits_capped (s : str) (ctx : option (list number)) :
  forallb isdigit s = true -> (int_max_str_digits < length s)%nat ->
  Nlp.convert s ctx = Ret None.
Proof.
  intros Hd Hlen. unfold Nlp.convert. rewrite (digits_no_sep "." s) by auto.
  unfold py_int. destruct s as [| c s]; [reflexivity |].
  destruct (Nat.ltb_spec int_max_str_digits (length (c :: s))); [reflexivity | lia].
Qed.

(** C9, amended.  The normalizers are not total on every string, but are on
    every token of at most 308 characters, whatever the context: both
    return, a float or [None].  The tokens the two modules pass are of this
    kind: the numeric group of a match of one of their four patterns has
    at most 22 characters.  On a string of digits that writes the integer
    [n], either normalizer raises [OverflowError] exactly when the string
    has at most 4300 digits, so that [int] converts it, and [n] is at least
    [2^1024 - 2^970], so that [float(n)] overflows; this takes 309 digits
    or more.  On more than 4300 digits, and on [None], both return
    [None]. *)
Theorem C9_normalizers_raise_only_on_huge_integers
    (tok : str) (ctx : option (list number)) :
  ((length tok <= 308)%nat ->
   (exists r, Nlp._clean_and_convert_token (Some tok) ctx = Ret r)
   /\ (exists r, Ocr._normalize_number_token (Some tok) ctx = Ret r))
  /\ (forall (r : regex) (g : nat) (ln : str) (m : rematch),
        In (r, g) token_patterns ->
        search r ln = Some m \/ In m (finditer r ln) ->
        exists t, group m g = Some t /\ (length t <= 22)%nat)
  /\ (forall n : Z,
        digits_value 0 tok = Some n ->
        (Nlp._clean_and_convert_token (Some tok) ctx = Raise OverflowError
         <-> (length tok <= int_max_str_digits)%nat /\ float_overflow <= n)
        /\ (Ocr._normalize_number_token (Some tok) ctx = Raise OverflowError
            <-> (length tok <= int_max_str_digits)%nat /\ float_overflow <= n)
        /\ ((int_max_str_digits < length tok)%nat ->
            Nlp._clean_and_convert_token (Some tok) ctx = Ret None
            /\ Ocr._normalize_number_token (Some tok) ctx = Ret None))
  /\ int_max_str_digits = 4300%nat
  /\ float_overflow = 2 ^ 1024 - 2 ^ 970
  /\ Nlp._clean_and_convert_token None ctx = Ret None
  /\ Ocr._normalize_number_token None ctx = Ret None.
Proof.
  split; [| split; [| split; [| repeat split; reflexivity]]].
  - intros Hlen. split.
    + apply nlp_normalizer_returns_308. assumption.
    + apply ocr_normalizer_returns_308. assumption.
  - intros r g ln m Hp Hm.
    destruct (found_numeric r g ln m Hp Hm) as (t & Hg & _ & Hl & _).
    exists t. split; [assumption | lia].
  - intros n Hn.
    destruct tok as [| c tok].
    { injection Hn as <-.
      assert (0 < float_overflow) by (apply Z.ltb_lt; vm_compute; reflexivity).
      split; [| split]; try (split; [discriminate | lia]).
      unfold int_max_str_digits. simpl. lia. }
    pose proof (digits_value_digits _ 0 n Hn) as Hd.
    assert (amount_token (c :: tok) = true) as Ha
        by (apply digits_amount; [discriminate | assumption]).
    rewrite <- (normalizers_agree_on_amounts _ ctx Ha).
    rewrite (nlp_normalizer_on_amount _ ctx Ha).
    rewrite (nlp_resolve_digits _ Hd).
    split; [| split]; try (apply nlp_convert_digits_raises; (discriminate || assumption)).
    intros Hlen. split; apply nlp_convert_digits_capped; assumption.
Qed.

Lemma C9_normalizers_raise_only_on_huge_integers_witness :
  (exists r, Nlp._clean_and_convert_token (Some (S_ "12,50")) None = Ret r)
  /\ (exists r, Ocr._normalize_number_token (Some (S_ "12,50")) None = Ret r).
Proof.
  apply (proj1 (C9_normalizers_raise_only_on_huge_integers (S_ "12,50") None)).
  simpl. lia.
Defined.

(* ===================================================================== *)
(** * Names near an item *)
(* ===================================================================== *)

(** ** The character before a position *)





(** ** The matcher on a literal between two word boundaries *)






(** ** [str.find] gives the first occurrence *)




Lemma first_occurrence_length (t s a b a' b' : str) :
  first_occurrence t s a b -> first_occurrence t s a' b' -> a = a' /\ b = b'.
Proof.
  intros [E Hmin] [E' Hmin'].
  pose proof (Hmin a' b' E'). pose proof (Hmin' a b E).
  assert (length a = length a') as Hl by lia.
  rewrite E in E'.
  apply app_inj_1 in E' as [Ha Hr]; [| assumption].
  apply app_inv_head in Hr. auto.
Qed.







